(** * Abacus indexer: bar builder, outlier filter, composite build,
      backfill and composite upsert, embedded from the Python sources.

    Python [int] is [Z]; Python [float] is IEEE binary64 and is modelled by
    the kernel's primitive [float], so that every arithmetic step rounds as
    it does in the program.  [Optional[T]] is [option T]; a raised exception
    is the [Raise] case of [outcome].  Dictionaries whose iteration order is
    used are association lists in insertion order; the composite table is a
    finite map. *)

From Stdlib Require Import ZArith List Bool String Floats Lia Permutation.
From Stdlib Require Import Sorted Ascii DecimalString.
From stdpp Require gmap strings.
Import ListNotations.

Local Open Scope Z_scope.

(* ------------------------------------------------------------------ *)
(** ** core/types.py: enumerations *)

Inductive VenueId := BINANCE | COINBASE | KRAKEN | OKX | BYBIT.
Inductive MarketType := SPOT | PERP.
Inductive AssetId := BTC | ETH.
Inductive ExcludeReason :=
  DISCONNECTED | STALE | OUTLIER | NO_DATA | BACKFILL_UNAVAILABLE.
Inductive TakerSide := BUY | SELL.
Inductive DegradedReason :=
  | DR_NONE
  | SINGLE_SOURCE
  | BELOW_PREFERRED_QUORUM
  | VENUE_DISCONNECTED
  | VENUE_STALE
  | VENUE_OUTLIER.

Definition VenueId_eqb (a b : VenueId) : bool :=
  match a, b with
  | BINANCE, BINANCE | COINBASE, COINBASE | KRAKEN, KRAKEN
  | OKX, OKX | BYBIT, BYBIT => true
  | _, _ => false
  end.

Definition ExcludeReason_eqb (a b : ExcludeReason) : bool :=
  match a, b with
  | DISCONNECTED, DISCONNECTED | STALE, STALE | OUTLIER, OUTLIER
  | NO_DATA, NO_DATA | BACKFILL_UNAVAILABLE, BACKFILL_UNAVAILABLE => true
  | _, _ => false
  end.

(** The [.value] of the string enums. *)
Definition venue_value (v : VenueId) : string :=
  match v with
  | BINANCE => "binance" | COINBASE => "coinbase" | KRAKEN => "kraken"
  | OKX => "okx" | BYBIT => "bybit"
  end%string.

Definition market_value (m : MarketType) : string :=
  match m with SPOT => "spot" | PERP => "perp" end%string.

Definition asset_value (a : AssetId) : string :=
  match a with BTC => "BTC" | ETH => "ETH" end%string.

(** [e == r] for an [Optional[ExcludeReason]] field. *)
Definition reason_is (r : ExcludeReason) (e : option ExcludeReason) : bool :=
  match e with Some r' => ExcludeReason_eqb r' r | None => false end.

(* ------------------------------------------------------------------ *)
(** ** core/types.py: Trade, Bar, CompositeBar *)

Record Trade := mkTrade {
  timestamp : Z;
  local_timestamp : Z;
  price : float;
  quantity : float;
  is_buyer_maker : bool;
  trade_venue : VenueId;
  trade_asset : AssetId;
  trade_market_type : MarketType
}.

Definition taker_side (t : Trade) : TakerSide :=
  if is_buyer_maker t then SELL else BUY.

Record Bar := mkBar {
  bar_time : Z;
  bar_open : float;
  bar_high : float;
  bar_low : float;
  bar_close : float;
  bar_volume : float;
  bar_trade_count : Z;
  bar_buy_volume : float;
  bar_sell_volume : float;
  bar_buy_count : Z;
  bar_sell_count : Z;
  bar_venue : VenueId;
  bar_asset : AssetId;
  bar_market_type : MarketType;
  bar_is_partial : bool
}.

Record ExcludedVenue := mkExcludedVenue {
  ev_venue : string;
  ev_reason : ExcludeReason
}.

Record VenueContribution := mkContribution {
  vc_venue : VenueId;
  vc_price : option float;
  vc_included : bool;
  vc_exclude_reason : option ExcludeReason;
  vc_deviation_bps : option float
}.

Record CompositeBar := mkCompositeBar {
  cb_time : Z;
  cb_open : option float;
  cb_high : option float;
  cb_low : option float;
  cb_close : option float;
  cb_volume : float;
  cb_buy_volume : float;
  cb_sell_volume : float;
  cb_buy_count : Z;
  cb_sell_count : Z;
  cb_degraded : bool;
  cb_is_gap : bool;
  cb_is_backfilled : bool;
  cb_included_venues : list string;
  cb_excluded_venues : list ExcludedVenue;
  cb_asset : option AssetId;
  cb_market_type : option MarketType
}.

(* ------------------------------------------------------------------ *)
(** ** core/constants.py *)

Module Constants.

Definition OUTLIER_THRESHOLD_BPS : float := 100%float.

Record QuorumPolicy := mkQuorum {
  min_quorum : nat;
  preferred_quorum : nat;
  allow_single_source : bool
}.

Definition poc_policy : QuorumPolicy := mkQuorum 1 2 true.
Definition production_policy : QuorumPolicy := mkQuorum 2 3 false.

(** [CURRENT_QUORUM_POLICY = "production"]. *)
Definition get_quorum_config : QuorumPolicy := production_policy.

Definition DEFAULT_STALE_THRESHOLD_MS : Z := 30000.

(** [STALE_THRESHOLDS_MS]: both market types carry the same value for each
    venue, and every venue has an entry, so the default is never used. *)
Definition get_stale_threshold (venue : VenueId) (market_type : MarketType) : Z :=
  match venue, market_type with
  | BINANCE, _ => 10000
  | COINBASE, _ => 30000
  | KRAKEN, _ => 30000
  | OKX, _ => 15000
  | BYBIT, _ => 15000
  end.

Definition BAR_INTERVAL_SECONDS : Z := 60.
Definition MAX_TRADE_BUFFER_SIZE : Z := 5000.
Definition MAX_BARS_PER_VENUE : nat := 1000.

Definition ENABLED_SPOT_VENUES : list VenueId := [BINANCE; COINBASE; OKX; KRAKEN].
Definition ENABLED_PERP_VENUES : list VenueId := [BINANCE; OKX; BYBIT].

Definition get_enabled_venues (market_type : MarketType) : list VenueId :=
  match market_type with
  | SPOT => ENABLED_SPOT_VENUES
  | PERP => ENABLED_PERP_VENUES
  end.

Definition REALTIME_VENUES : list VenueId := [BINANCE; COINBASE; KRAKEN; OKX; BYBIT].
Definition BACKFILL_VENUES : list VenueId := [BINANCE; KRAKEN; OKX; BYBIT].
Definition BACKFILL_FETCHERS_IMPLEMENTED : list VenueId := [BINANCE; KRAKEN; OKX; BYBIT].

Definition venue_in (v : VenueId) (s : list VenueId) : bool :=
  existsb (VenueId_eqb v) s.

(** [REALTIME_VENUES - BACKFILL_VENUES]. *)
Definition BACKFILL_EXCLUDED_VENUES : list VenueId :=
  List.filter (fun v => negb (venue_in v BACKFILL_VENUES)) REALTIME_VENUES.

Definition get_backfill_venues (market_type : MarketType) : list VenueId :=
  List.filter
    (fun v => venue_in v BACKFILL_VENUES && venue_in v BACKFILL_FETCHERS_IMPLEMENTED)
    (get_enabled_venues market_type).

End Constants.

(* ------------------------------------------------------------------ *)
(** ** core/bar_builder.py *)

Module BarBuilder.
Import Constants.

(** [(timestamp_ms // 1000 // BAR_INTERVAL_SECONDS) * BAR_INTERVAL_SECONDS];
    Python's [//] on integers is the floor division [Z.div]. *)
Definition floor_to_minute (timestamp_ms : Z) : Z :=
  (timestamp_ms / 1000 / BAR_INTERVAL_SECONDS) * BAR_INTERVAL_SECONDS.

(** The four price fields of the accumulator are assigned together (first
    trade) and cleared together ([reset]); they are kept as one optional
    group, [None] standing for [open is None]. *)
Record OHLC := mkOHLC {
  o_open : float;
  o_high : float;
  o_low : float;
  o_close : float
}.

Record BarAccumulator := mkAcc {
  acc_bar_time : Z;
  acc_ohlc : option OHLC;
  acc_volume : float;
  acc_trade_count : Z;
  acc_buy_volume : float;
  acc_sell_volume : float;
  acc_buy_count : Z;
  acc_sell_count : Z;
  acc_venue : option VenueId;
  acc_asset : option AssetId;
  acc_market_type : option MarketType
}.

(** [BarAccumulator(bar_time=t)]. *)
Definition new_accumulator (t : Z) : BarAccumulator :=
  mkAcc t None 0%float 0 0%float 0%float 0 0 None None None.

(** [BarAccumulator.add_trade]. *)
Definition acc_add_trade (a : BarAccumulator) (t : Trade) : BarAccumulator :=
  let p := price t in
  let q := quantity t in
  let ohlc' :=
    match acc_ohlc a with
    | None => mkOHLC p p p p
    | Some c =>
        mkOHLC (o_open c)
               (if PrimFloat.ltb (o_high c) p then p else o_high c)
               (if PrimFloat.ltb p (o_low c) then p else o_low c)
               p
    end in
  let first := match acc_ohlc a with None => true | Some _ => false end in
  let buy := match taker_side t with BUY => true | SELL => false end in
  mkAcc (acc_bar_time a)
        (Some ohlc')
        (PrimFloat.add (acc_volume a) q)
        (acc_trade_count a + 1)
        (if buy then PrimFloat.add (acc_buy_volume a) q else acc_buy_volume a)
        (if buy then acc_sell_volume a else PrimFloat.add (acc_sell_volume a) q)
        (if buy then acc_buy_count a + 1 else acc_buy_count a)
        (if buy then acc_sell_count a else acc_sell_count a + 1)
        (if first then Some (trade_venue t) else acc_venue a)
        (if first then Some (trade_asset t) else acc_asset a)
        (if first then Some (trade_market_type t) else acc_market_type a).

(** [BarAccumulator.to_bar]. *)
Definition to_bar (a : BarAccumulator) (is_partial : bool) : option Bar :=
  match acc_ohlc a, acc_venue a, acc_asset a, acc_market_type a with
  | Some c, Some v, Some s, Some m =>
      Some (mkBar (acc_bar_time a) (o_open c) (o_high c) (o_low c) (o_close c)
                  (acc_volume a) (acc_trade_count a)
                  (acc_buy_volume a) (acc_sell_volume a)
                  (acc_buy_count a) (acc_sell_count a)
                  v s m is_partial)
  | _, _, _, _ => None
  end.

(** [BarAccumulator.reset]: venue, asset and market type are kept. *)
Definition reset (a : BarAccumulator) (new_bar_time : Z) : BarAccumulator :=
  mkAcc new_bar_time None 0%float 0 0%float 0%float 0 0
        (acc_venue a) (acc_asset a) (acc_market_type a).

(** The mutable part of a [BarBuilder].  [emitted] records, oldest first,
    the bars handed to [on_bar_complete]. *)
Record Builder := mkBuilder {
  has_callback : bool;
  accumulator : option BarAccumulator;
  completed_bars : list Bar;
  trade_count : Z;
  last_trade_time : option Z;
  emitted : list Bar
}.

Definition new_builder (cb : bool) : Builder :=
  mkBuilder cb None [] 0 None [].

(** [deque(maxlen=n).append]: the oldest entry is discarded when full. *)
Definition deque_append (n : nat) (d : list Bar) (b : Bar) : list Bar :=
  let d' := d ++ [b] in
  skipn (List.length d' - n)%nat d'.

(** [BarBuilder.add_trade]: the new state and the returned bar. *)
Definition add_trade (b : Builder) (t : Trade) : Builder * option Bar :=
  let trade_bar_time := floor_to_minute (timestamp t) in
  let acc0 :=
    match accumulator b with
    | None => new_accumulator trade_bar_time
    | Some a => a
    end in
  (* rollover when the trade belongs to a later minute *)
  let '(acc1, completed, hist, emit, cnt) :=
    if acc_bar_time acc0 <? trade_bar_time then
      let completed := to_bar acc0 false in
      let hist :=
        match completed with
        | Some cbar => deque_append MAX_BARS_PER_VENUE (completed_bars b) cbar
        | None => completed_bars b
        end in
      let emit :=
        match completed with
        | Some cbar => if has_callback b then emitted b ++ [cbar] else emitted b
        | None => emitted b
        end in
      (reset acc0 trade_bar_time, completed, hist, emit, 0)
    else (acc0, None, completed_bars b, emitted b, trade_count b) in
  if MAX_TRADE_BUFFER_SIZE <=? cnt then
    (mkBuilder (has_callback b) (Some acc1) hist cnt (last_trade_time b) emit,
     completed)
  else
    (mkBuilder (has_callback b) (Some (acc_add_trade acc1 t)) hist (cnt + 1)
               (Some (timestamp t)) emit,
     completed).

Definition get_partial_bar (b : Builder) : option Bar :=
  match accumulator b with
  | None => None
  | Some a => to_bar a true
  end.

End BarBuilder.

(* ------------------------------------------------------------------ *)
(** ** core/outlier_filter.py *)

Module OutlierFilter.
Import Constants.

Record VenuePriceInput := mkInput {
  vpi_venue : VenueId;
  vpi_price : option float;
  vpi_last_update_ms : option Z;
  vpi_is_connected : bool
}.

Record CompositeResult := mkResult {
  cr_price : option float;
  cr_venues : list VenueContribution;
  cr_included_count : nat;
  cr_total_count : nat;
  cr_degraded : bool;
  cr_degraded_reason : DegradedReason;
  cr_is_gap : bool
}.

(** [sorted(data)]: Python's sort is stable and compares with [<] only.
    [x], which precedes every element of [l] in the input, is placed in
    front of the first element that is not smaller than it. *)
Fixpoint insert_sorted (x : float) (l : list float) : list float :=
  match l with
  | [] => [x]
  | y :: l' =>
      if PrimFloat.ltb y x then y :: insert_sorted x l' else x :: y :: l'
  end.

Definition sorted (data : list float) : list float :=
  fold_right insert_sorted [] data.

(** The middle of a list already sorted: [data[n // 2]] for an odd
    length, [(data[i - 1] + data[i]) / 2] with [i = n // 2] otherwise.
    Indexing is within bounds for a non-empty list (the default of [nth]
    is not reached). *)
Definition middle (s : list float) : float :=
  let n := List.length s in
  let i := (n / 2)%nat in
  if Nat.odd n then nth i s 0%float
  else PrimFloat.div (PrimFloat.add (nth (i - 1)%nat s 0%float) (nth i s 0%float)) 2%float.

(** [statistics.median] on a non-empty list (it raises on an empty one;
    its only caller below guards that case). *)
Definition statistics_median (data : list float) : float :=
  middle (sorted data).

Definition calculate_median (prices : list float) : option float :=
  match prices with
  | [] => None
  | _ => Some (statistics_median prices)
  end.

(** Python's float division: [ZeroDivisionError] (here [None]) exactly
    when the divisor compares equal to zero. *)
Definition py_truediv (x y : float) : option float :=
  if PrimFloat.eqb y 0%float then None else Some (PrimFloat.div x y).

(** [calculate_deviation_bps] with the division that can raise. *)
Definition calculate_deviation_bps_py (price median : float) : option float :=
  if PrimFloat.eqb median 0%float then Some 0%float
  else
    match py_truediv (PrimFloat.sub price median) median with
    | Some q => Some (PrimFloat.mul (PrimFloat.abs q) 10000%float)
    | None => None
    end.

(** [calculate_deviation_bps] as a total function (see
    [calculate_deviation_bps_total] for the agreement of the two). *)
Definition calculate_deviation_bps (price median : float) : float :=
  if PrimFloat.eqb median 0%float then 0%float
  else PrimFloat.mul (PrimFloat.abs (PrimFloat.div (PrimFloat.sub price median) median))
                     10000%float.

(** Phase 1, one input: its contribution record and, when it passes the
    DISCONNECTED, NO_DATA and STALE checks, its candidate entry. *)
Definition classify (current_time_ms : Z) (market_type : MarketType)
    (inp : VenuePriceInput) : VenueContribution * option (VenueId * float) :=
  let contribution reason :=
    mkContribution (vpi_venue inp) (vpi_price inp) false reason None in
  if negb (vpi_is_connected inp) then (contribution (Some DISCONNECTED), None)
  else
    match vpi_price inp, vpi_last_update_ms inp with
    | Some p, Some last =>
        let stale_threshold := get_stale_threshold (vpi_venue inp) market_type in
        let age_ms := current_time_ms - last in
        if stale_threshold <? age_ms then (contribution (Some STALE), None)
        else (contribution None, Some (vpi_venue inp, p))
    | _, _ => (contribution (Some NO_DATA), None)
    end.

Definition phase1 (current_time_ms : Z) (market_type : MarketType)
    (inputs : list VenuePriceInput)
    : list VenueContribution * list (VenueId * float) :=
  let cls := map (classify current_time_ms market_type) inputs in
  (map fst cls,
   flat_map (fun x => match snd x with Some c => [c] | None => [] end) cls).

(** [next(c for c in contributions if c.venue == venue)] followed by
    attribute assignments on the record found: the first record of that
    venue is updated in place. *)
Fixpoint update_first (venue : VenueId) (f : VenueContribution -> VenueContribution)
    (cs : list VenueContribution) : list VenueContribution :=
  match cs with
  | [] => []
  | c :: cs' =>
      if VenueId_eqb (vc_venue c) venue then f c :: cs'
      else c :: update_first venue f cs'
  end.

Definition mark_included (dev : float) (c : VenueContribution) : VenueContribution :=
  mkContribution (vc_venue c) (vc_price c) true (vc_exclude_reason c) (Some dev).

Definition mark_outlier (dev : float) (c : VenueContribution) : VenueContribution :=
  mkContribution (vc_venue c) (vc_price c) false (Some OUTLIER) (Some dev).

(** Whether phase 3 takes the OUTLIER branch for a candidate price. *)
Definition is_outlier (median : option float) (p : float) : bool :=
  match median with
  | None => false
  | Some m => PrimFloat.ltb OUTLIER_THRESHOLD_BPS (calculate_deviation_bps p m)
  end.

Record Phase3 := mkPhase3 {
  p3_contributions : list VenueContribution;
  p3_included_prices : list float;
  p3_included_venues : list VenueId
}.

(** Phase 3, one candidate. *)
Definition phase3_step (median : option float) (st : Phase3)
    (cand : VenueId * float) : Phase3 :=
  let '(venue, p) := cand in
  match median with
  | None =>
      mkPhase3 (update_first venue (mark_included 0%float) (p3_contributions st))
               (p3_included_prices st ++ [p])
               (p3_included_venues st ++ [venue])
  | Some m =>
      let deviation := calculate_deviation_bps p m in
      if PrimFloat.ltb OUTLIER_THRESHOLD_BPS deviation then
        mkPhase3 (update_first venue (mark_outlier deviation) (p3_contributions st))
                 (p3_included_prices st)
                 (p3_included_venues st)
      else
        mkPhase3 (update_first venue (mark_included deviation) (p3_contributions st))
                 (p3_included_prices st ++ [p])
                 (p3_included_venues st ++ [venue])
  end.

Definition has_reason (r : ExcludeReason) (cs : list VenueContribution) : bool :=
  existsb (fun c => reason_is r (vc_exclude_reason c)) cs.

(** [_derive_degraded_reason]. *)
Definition derive_degraded_reason (degraded is_gap : bool) (included_count : nat)
    (contributions : list VenueContribution) : DegradedReason :=
  if negb degraded then DR_NONE
  else
    let has_disconnected := has_reason DISCONNECTED contributions in
    let has_no_data := has_reason NO_DATA contributions in
    let has_stale := has_reason STALE contributions in
    let has_outlier := has_reason OUTLIER contributions in
    if is_gap then
      if has_disconnected then VENUE_DISCONNECTED
      else if has_no_data || has_stale then VENUE_STALE
      else if has_outlier then VENUE_OUTLIER
      else if Nat.eqb included_count 1 then SINGLE_SOURCE
      else BELOW_PREFERRED_QUORUM
    else
      if has_disconnected then VENUE_DISCONNECTED
      else if has_stale then VENUE_STALE
      else if has_outlier then VENUE_OUTLIER
      else BELOW_PREFERRED_QUORUM.

(** The candidates of phase 1 and the reference median of phase 2. *)
Definition candidates (inputs : list VenuePriceInput) (current_time_ms : Z)
    (market_type : MarketType) : list (VenueId * float) :=
  snd (phase1 current_time_ms market_type inputs).

Definition reference_median (inputs : list VenuePriceInput) (current_time_ms : Z)
    (market_type : MarketType) : option float :=
  calculate_median (map snd (candidates inputs current_time_ms market_type)).

(** The state after the loop of phase 3. *)
Definition phase3 (inputs : list VenuePriceInput) (current_time_ms : Z)
    (market_type : MarketType) : Phase3 :=
  let '(contributions, cands) := phase1 current_time_ms market_type inputs in
  let median := calculate_median (map snd cands) in
  fold_left (phase3_step median) cands (mkPhase3 contributions [] []).

Definition filter_outliers (inputs : list VenuePriceInput) (current_time_ms : Z)
    (market_type : MarketType) : CompositeResult :=
  let quorum := get_quorum_config in
  let total_count := List.length inputs in
  let st := phase3 inputs current_time_ms market_type in
  let included_count := List.length (p3_included_prices st) in
  let final_price := calculate_median (p3_included_prices st) in
  let is_gap := Nat.ltb included_count (min_quorum quorum) in
  let degraded := Nat.ltb included_count (preferred_quorum quorum) || is_gap in
  let degraded_reason :=
    derive_degraded_reason degraded is_gap included_count (p3_contributions st) in
  mkResult (if negb is_gap then final_price else None)
           (p3_contributions st)
           included_count
           total_count
           degraded
           degraded_reason
           is_gap.

Definition build_composite_bar (time : Z)
    (open_result high_result low_result close_result : CompositeResult)
    (total_volume : float) (asset : AssetId) (market_type : MarketType)
    (buy_volume sell_volume : float) (buy_count sell_count : Z) : CompositeBar :=
  let is_gap := cr_is_gap close_result in
  let excluded_venues :=
    flat_map
      (fun c =>
         match vc_exclude_reason c with
         | Some r => [mkExcludedVenue (venue_value (vc_venue c)) r]
         | None => []
         end)
      (cr_venues close_result) in
  let included_venues :=
    map (fun c => venue_value (vc_venue c))
        (List.filter vc_included (cr_venues close_result)) in
  let degraded :=
    cr_degraded open_result || cr_degraded high_result
    || cr_degraded low_result || cr_degraded close_result in
  mkCompositeBar time
    (if negb is_gap then cr_price open_result else None)
    (if negb is_gap then cr_price high_result else None)
    (if negb is_gap then cr_price low_result else None)
    (if negb is_gap then cr_price close_result else None)
    (if negb is_gap then total_volume else 0%float)
    (if negb is_gap then buy_volume else 0%float)
    (if negb is_gap then sell_volume else 0%float)
    (if negb is_gap then buy_count else 0)
    (if negb is_gap then sell_count else 0)
    degraded
    is_gap
    false
    included_venues
    excluded_venues
    (Some asset)
    (Some market_type).

End OutlierFilter.

(* ------------------------------------------------------------------ *)
(** ** aggregator/composite_aggregator.py: [_build_composite] *)

Module Aggregator.
Import Constants OutlierFilter.

(** [d.get(k)] on a dictionary kept as an association list. *)
Definition dict_get {V : Type} (d : list (VenueId * V)) (k : VenueId) : option V :=
  match find (fun kv => VenueId_eqb (fst kv) k) d with
  | Some kv => Some (snd kv)
  | None => None
  end.

Definition VenueBars := list (VenueId * option Bar).
Definition VenueState := list (VenueId * (bool * option Z)).

(** The inner [build_inputs(price_getter)]. *)
Definition build_inputs (venue_bars : VenueBars) (venue_state : VenueState)
    (price_getter : Bar -> float) : list VenuePriceInput :=
  map
    (fun vb : VenueId * option Bar =>
       let '(venue, bar) := vb in
       let '(is_connected, last_update_ms) :=
         match dict_get venue_state venue with
         | Some s => s
         | None => (false, None)
         end in
       match bar with
       | None => mkInput venue None last_update_ms is_connected
       | Some b => mkInput venue (Some (price_getter b)) last_update_ms is_connected
       end)
    venue_bars.

(** [venue in included_venue_set], the set being
    [{c.venue for c in close_result.venues if c.included}]. *)
Definition in_included_set (close_result : CompositeResult) (venue : VenueId) : bool :=
  existsb (fun c => vc_included c && VenueId_eqb (vc_venue c) venue)
          (cr_venues close_result).

Record Flow := mkFlow {
  total_volume : float;
  total_buy_volume : float;
  total_sell_volume : float;
  total_buy_count : Z;
  total_sell_count : Z
}.

Definition flow_zero : Flow := mkFlow 0%float 0%float 0%float 0 0.

Definition flow_add (f : Flow) (b : Bar) : Flow :=
  mkFlow (PrimFloat.add (total_volume f) (bar_volume b))
         (PrimFloat.add (total_buy_volume f) (bar_buy_volume b))
         (PrimFloat.add (total_sell_volume f) (bar_sell_volume b))
         (total_buy_count f + bar_buy_count b)
         (total_sell_count f + bar_sell_count b).

(** The summation loop over [venue_bars.items()]. *)
Definition sum_flow (close_result : CompositeResult) (venue_bars : VenueBars) : Flow :=
  fold_left
    (fun f (vb : VenueId * option Bar) =>
       match snd vb with
       | Some b => if in_included_set close_result (fst vb) then flow_add f b else f
       | None => f
       end)
    venue_bars flow_zero.

Definition build_composite (asset : AssetId) (market_type : MarketType) (bar_time : Z)
    (venue_bars : VenueBars) (venue_state : VenueState)
    : CompositeBar * CompositeResult :=
  let current_time_ms := bar_time * 1000 + BAR_INTERVAL_SECONDS * 1000 in
  let run getter :=
    filter_outliers (build_inputs venue_bars venue_state getter)
                    current_time_ms market_type in
  let open_result := run bar_open in
  let high_result := run bar_high in
  let low_result := run bar_low in
  let close_result := run bar_close in
  let f := sum_flow close_result venue_bars in
  (build_composite_bar bar_time open_result high_result low_result close_result
     (total_volume f) asset market_type
     (total_buy_volume f) (total_sell_volume f)
     (total_buy_count f) (total_sell_count f),
   close_result).

End Aggregator.

(* ------------------------------------------------------------------ *)
(** ** Exceptions and state *)

(** The result of a call that may raise: [Raise msg] stands for an
    exception [e] with [str(e) = msg] (subclasses of [Exception] only). *)
Inductive outcome (A : Type) : Type :=
  | Ok (a : A)
  | Raise (msg : string).
Arguments Ok {A} a.
Arguments Raise {A} msg.

(** Computations over a state [S] that may raise; the state reached when
    an exception is raised is kept, as mutations made before it remain. *)
Definition M (S A : Type) : Type := S -> outcome A * S.

Definition ret {S A} (a : A) : M S A := fun s => (Ok a, s).

Definition raise {S A} (msg : string) : M S A := fun s => (Raise msg, s).

Definition bind {S A B} (m : M S A) (k : A -> M S B) : M S B :=
  fun s =>
    match m s with
    | (Ok a, s') => k a s'
    | (Raise msg, s') => (Raise msg, s')
    end.

(** [try: body except Exception as e: handler(str(e))]. *)
Definition try_except {S A} (body : M S A) (handler : string -> M S A) : M S A :=
  fun s =>
    match body s with
    | (Ok a, s') => (Ok a, s')
    | (Raise msg, s') => handler msg s'
    end.

Definition modify {S} (f : S -> S) : M S unit := fun s => (Ok tt, f s).

Declare Scope monad_scope.
Notation "x <- m ;; k" := (bind m (fun x => k))
  (at level 62, m at next level, right associativity) : monad_scope.
Notation "m ;;; k" := (bind m (fun _ => k))
  (at level 62, right associativity) : monad_scope.

(** [for x in l: body(x)], stopping at the first exception. *)
Fixpoint for_each {S X} (l : list X) (body : X -> M S unit) : M S unit :=
  match l with
  | [] => ret tt
  | x :: l' => bind (body x) (fun _ => for_each l' body)
  end.

(** A loop that carries local variables [acc]. *)
Fixpoint fold_m {S X A} (body : A -> X -> M S A) (l : list X) (acc : A) : M S A :=
  match l with
  | [] => ret acc
  | x :: l' => bind (body acc x) (fun acc' => fold_m body l' acc')
  end.

(* ------------------------------------------------------------------ *)
(** ** backfill/service.py *)

Module Backfill.
Import Constants BarBuilder OutlierFilter.
Local Open Scope monad_scope.

(** [str.lower()] and [str.upper()] on ASCII text. *)
Definition lower_ascii (c : ascii) : ascii :=
  let n := nat_of_ascii c in
  if (Nat.leb 65 n && Nat.leb n 90)%bool then ascii_of_nat (n + 32) else c.

Definition upper_ascii (c : ascii) : ascii :=
  let n := nat_of_ascii c in
  if (Nat.leb 97 n && Nat.leb n 122)%bool then ascii_of_nat (n - 32) else c.

Fixpoint map_string (f : ascii -> ascii) (s : string) : string :=
  match s with
  | EmptyString => EmptyString
  | String c s' => String (f c) (map_string f s')
  end.

Definition lower := map_string lower_ascii.
Definition upper := map_string upper_ascii.

(** Enum lookup by value, [VenueId(s)]: [ValueError] on an unknown value. *)
Definition parse_venue (s : string) : option VenueId :=
  find (fun v => String.eqb (venue_value v) s) REALTIME_VENUES.

Definition parse_asset (s : string) : option AssetId :=
  find (fun a => String.eqb (asset_value a) s) [BTC; ETH].

Definition parse_market (s : string) : option MarketType :=
  find (fun m => String.eqb (market_value m) s) [SPOT; PERP].

Definition enum_of {S A} (parse : string -> option A) (s what : string) : M S A :=
  match parse s with
  | Some a => ret a
  | None => raise ("'" ++ s ++ "' is not a valid " ++ what)%string
  end.

Definition str_of_int (z : Z) : string := NilZero.string_of_int (Z.to_int z).

(** [BackfillResult]; [duration_seconds] (wall-clock time) is left out. *)
Record BackfillResult := mkBackfillResult {
  br_asset : string;
  br_market_type : string;
  br_start_time : Z;
  br_end_time : Z;
  gaps_found : Z;
  bars_repaired : Z;
  bars_failed : Z;
  venue_bars_inserted : Z;
  errors : list string
}.

(** [_build_bar_from_trades]; [minute] is the source's [bar_time]. *)
Definition build_bar_from_trades (trades : list Trade) (minute : Z)
    (venue : VenueId) (asset : AssetId) (market_type : MarketType) : option Bar :=
  match trades with
  | [] => None
  | _ =>
      let accumulator :=
        fold_left
          (fun a t =>
             if floor_to_minute (timestamp t) =? minute then acc_add_trade a t
             else a)
          trades (new_accumulator minute) in
      match to_bar accumulator false with
      | Some bar =>
          Some (mkBar (bar_time bar) (bar_open bar) (bar_high bar)
                      (bar_low bar) (bar_close bar) (bar_volume bar)
                      (bar_trade_count bar) (bar_buy_volume bar)
                      (bar_sell_volume bar) (bar_buy_count bar)
                      (bar_sell_count bar) venue asset market_type false)
      | None => None
      end
  end.


(** The local [median(values)] of [_build_composite_from_venue_bars],
    applied there to lists already sorted. *)
Definition bf_median (values : list float) : float :=
  let n := List.length values in
  if Nat.eqb n 0 then 0%float
  else
    let mid := (n / 2)%nat in
    if Nat.eqb (n mod 2) 0 then
      PrimFloat.div
        (PrimFloat.add (nth (mid - 1)%nat values 0%float) (nth mid values 0%float))
        2%float
    else nth mid values 0%float.

(** [dict[k] = v]: an existing key keeps its position. *)
Fixpoint dict_set {V : Type} (d : list (VenueId * V)) (k : VenueId) (v : V)
    : list (VenueId * V) :=
  match d with
  | [] => [(k, v)]
  | (k', v') :: d' =>
      if VenueId_eqb k' k then (k, v) :: d' else (k', v') :: dict_set d' k v
  end.

(** [sum(...)]: plain addition from zero, left to right (Python 3.12 and
    later compensate the rounding of float sums; no statement below depends
    on the float sums of this function). *)
Definition fsum (l : list float) : float := fold_left PrimFloat.add l 0%float.
Definition zsum (l : list Z) : Z := fold_left Z.add l 0.

(** [_build_composite_from_venue_bars].  The enabled venues are visited in
    the order of the configured list (the source iterates a [set]). *)
Definition build_composite_from_venue_bars (venue_bars : list (VenueId * Bar))
    (minute : Z) (asset : AssetId) (market_type : MarketType) : option CompositeBar :=
  match venue_bars with
  | [] => None
  | _ =>
      let bars := map snd venue_bars in
      let opens := sorted (map bar_open bars) in
      let highs := sorted (map bar_high bars) in
      let lows := sorted (map bar_low bars) in
      let closes := sorted (map bar_close bars) in
      let degraded := Nat.ltb (List.length bars) 3 in
      let included_venue_ids := map fst venue_bars in
      let excluded_venues :=
        flat_map
          (fun venue_id =>
             if venue_in venue_id included_venue_ids then []
             else if venue_in venue_id BACKFILL_EXCLUDED_VENUES
                  then [mkExcludedVenue (venue_value venue_id) BACKFILL_UNAVAILABLE]
                  else [mkExcludedVenue (venue_value venue_id) NO_DATA])
          (get_enabled_venues market_type) in
      Some (mkCompositeBar minute
              (Some (bf_median opens))
              (Some (bf_median highs))
              (Some (bf_median lows))
              (Some (bf_median closes))
              (fsum (map bar_volume bars))
              (fsum (map bar_buy_volume bars))
              (fsum (map bar_sell_volume bars))
              (zsum (map bar_buy_count bars))
              (zsum (map bar_sell_count bars))
              degraded
              false
              true
              (map (fun v => venue_value v) included_venue_ids)
              excluded_venues
              (Some asset)
              (Some market_type))
  end.

(** The rebuilt [CompositeBar(...)] of [_backfill_single_gap]. *)
Definition mark_backfilled (c : CompositeBar) : CompositeBar :=
  mkCompositeBar (cb_time c) (cb_open c) (cb_high c) (cb_low c) (cb_close c)
    (cb_volume c) (cb_buy_volume c) (cb_sell_volume c)
    (cb_buy_count c) (cb_sell_count c) (cb_degraded c)
    false true
    (cb_included_venues c) (cb_excluded_venues c) (cb_asset c) (cb_market_type c).

Section Service.

(** The outside world of the service: the venue REST endpoints and the
    two repositories.  Each call may raise and may change the world. *)
Variable W : Type.

Record Env := mkEnv {
  (** [composite_repo.get_gaps(asset, market_type, start, end)] *)
  get_gaps : string -> string -> Z -> Z -> M W (list Z);
  (** [_fetch_trades_for_minute(asset, market_type, venue, bar_time)] *)
  fetch_trades_for_minute : string -> string -> string -> Z -> M W (list Trade);
  (** [venue_repo.insert_batch(venue_bars)] *)
  venue_insert_batch : list (Bar * bool * option string) -> M W unit;
  (** [composite_repo.insert(composite)] *)
  composite_insert : CompositeBar -> M W bool
}.

Variable env : Env.

(** The local variables of the venue loop of [_backfill_single_gap]. *)
Record VenueLoop := mkVenueLoop {
  venue_bars : list (Bar * bool * option string);
  valid_venue_bars : list (VenueId * Bar)
}.

(** The body of the [try] inside the venue loop: the bar obtained from
    one venue, if any. *)
Definition venue_attempt (asset market_type : string) (gap_time : Z)
    (venue_str : string) : M W (option (VenueId * Bar)) :=
  venue_id <- enum_of parse_venue (lower venue_str) "VenueId" ;;
  trades <- fetch_trades_for_minute env asset market_type venue_str gap_time ;;
  match trades with
  | [] => ret None
  | _ =>
      a <- enum_of parse_asset (upper asset) "AssetId" ;;
      m <- enum_of parse_market (lower market_type) "MarketType" ;;
      match build_bar_from_trades trades gap_time venue_id a m with
      | Some bar => ret (Some (venue_id, bar))
      | None => ret None
      end
  end.

(** One iteration of the venue loop; [except Exception] logs a warning
    and continues with the next venue. *)
Definition venue_step (asset market_type : string) (gap_time : Z)
    (acc : VenueLoop) (venue_str : string) : M W VenueLoop :=
  try_except
    (r <- venue_attempt asset market_type gap_time venue_str ;;
     match r with
     | Some (venue_id, bar) =>
         ret (mkVenueLoop (venue_bars acc ++ [(bar, true, None)])
                          (dict_set (valid_venue_bars acc) venue_id bar))
     | None => ret acc
     end)
    (fun _ => ret acc).

(** [_backfill_single_gap]. *)
Definition backfill_single_gap (asset market_type : string) (gap_time : Z)
    (venues : list string) : M W Z :=
  acc <- fold_m (venue_step asset market_type gap_time) venues
                (mkVenueLoop [] []) ;;
  if Nat.ltb (List.length (valid_venue_bars acc)) 2 then ret 0
  else
    a <- enum_of parse_asset (upper asset) "AssetId" ;;
    m <- enum_of parse_market (lower market_type) "MarketType" ;;
    match build_composite_from_venue_bars (valid_venue_bars acc) gap_time a m with
    | None => ret 0
    | Some composite =>
        let composite := mark_backfilled composite in
        let inserted_count := Z.of_nat (List.length (venue_bars acc)) in
        (match venue_bars acc with
         | [] => ret tt
         | _ => venue_insert_batch env (venue_bars acc)
         end) ;;;
        composite_insert env composite ;;;
        ret inserted_count
    end.

(** The state of [backfill_gaps]: the world and the [result] object. *)
Record St := mkSt {
  world : W;
  result : BackfillResult
}.

Definition lift {A} (m : M W A) : M St A :=
  fun s =>
    let '(r, w) := m (world s) in
    (r, mkSt w (result s)).

Definition update_result (f : BackfillResult -> BackfillResult) : M St unit :=
  modify (fun s => mkSt (world s) (f (result s))).

Definition set_gaps_found (n : Z) (r : BackfillResult) : BackfillResult :=
  mkBackfillResult (br_asset r) (br_market_type r) (br_start_time r) (br_end_time r)
    n (bars_repaired r) (bars_failed r) (venue_bars_inserted r) (errors r).

Definition count_repaired (venue_count : Z) (r : BackfillResult) : BackfillResult :=
  mkBackfillResult (br_asset r) (br_market_type r) (br_start_time r) (br_end_time r)
    (gaps_found r) (bars_repaired r + 1) (bars_failed r)
    (venue_bars_inserted r + venue_count) (errors r).

Definition count_failed (r : BackfillResult) : BackfillResult :=
  mkBackfillResult (br_asset r) (br_market_type r) (br_start_time r) (br_end_time r)
    (gaps_found r) (bars_repaired r) (bars_failed r + 1)
    (venue_bars_inserted r) (errors r).

Definition append_error (msg : string) (r : BackfillResult) : BackfillResult :=
  mkBackfillResult (br_asset r) (br_market_type r) (br_start_time r) (br_end_time r)
    (gaps_found r) (bars_repaired r) (bars_failed r)
    (venue_bars_inserted r) (errors r ++ [msg]).

(** The body of the loop over the gaps, with its own [try]. *)
Definition process_gap (asset market_type : string) (venues : list string)
    (gap_time : Z) : M St unit :=
  try_except
    (venue_count <- lift (backfill_single_gap asset market_type gap_time venues) ;;
     if 0 <? venue_count then update_result (count_repaired venue_count)
     else update_result count_failed)
    (fun e =>
       update_result count_failed ;;;
       update_result
         (append_error ("Gap " ++ str_of_int gap_time ++ ": " ++ e)%string)).

(** The body of the outer [try] of [backfill_gaps]. *)
Definition backfill_gaps_body (asset market_type : string) (start_time end_time : Z)
    (venues : option (list string)) : M St unit :=
  gaps <- lift (get_gaps env asset market_type start_time end_time) ;;
  update_result (set_gaps_found (Z.of_nat (List.length gaps))) ;;;
  match gaps with
  | [] => ret tt
  | _ =>
      vs <- match venues with
            | Some vs => ret vs
            | None =>
                mt <- enum_of parse_market (lower market_type) "MarketType" ;;
                ret (map venue_value (get_backfill_venues mt))
            end ;;
      for_each gaps (process_gap asset market_type vs)
  end.

(** [backfill_gaps]: the outcome and the world it leaves. *)
Definition backfill_gaps (asset market_type : string) (start_time end_time : Z)
    (venues : option (list string)) : M W BackfillResult :=
  fun w =>
    let r0 := mkBackfillResult asset market_type start_time end_time 0 0 0 0 [] in
    let '(o, s) :=
      (try_except
         (backfill_gaps_body asset market_type start_time end_time venues)
         (fun e => update_result (append_error e)) ;;;
       (fun s => (Ok (result s), s)))
        (mkSt w r0) in
    (o, world s).

End Service.

End Backfill.

(* ------------------------------------------------------------------ *)
(** ** persistence/repository.py: [CompositeBarRepository.insert] *)

Module Repository.
Import stdpp.base stdpp.gmap stdpp.strings.

(** The primary key [(time, asset, market_type)] of [composite_bars]. *)
Abbreviation Key := (Z * string * string)%type.

(** The parameters [$1, $2, $3] of the statement. *)
Definition key_of (bar : CompositeBar) : Key :=
  (cb_time bar,
   match cb_asset bar with Some a => asset_value a | None => "BTC"%string end,
   match cb_market_type bar with Some m => market_value m | None => "spot"%string end).

(** The table: one row per key, the row holding the bar's columns. *)
Abbreviation Table := (gmap Key CompositeBar).

(** The [CASE] expression of the [DO UPDATE SET is_backfilled = ...]. *)
Definition merged_is_backfilled (stored excluded : CompositeBar) : bool :=
  if cb_is_backfilled stored then true
  else if cb_is_gap stored && negb (cb_is_gap excluded) then true
  else cb_is_backfilled excluded.

Definition with_is_backfilled (flag : bool) (c : CompositeBar) : CompositeBar :=
  mkCompositeBar (cb_time c) (cb_open c) (cb_high c) (cb_low c) (cb_close c)
    (cb_volume c) (cb_buy_volume c) (cb_sell_volume c)
    (cb_buy_count c) (cb_sell_count c) (cb_degraded c)
    (cb_is_gap c) flag
    (cb_included_venues c) (cb_excluded_venues c) (cb_asset c) (cb_market_type c).

(** [INSERT ... ON CONFLICT (time, asset, market_type) DO UPDATE SET ...]:
    the table after the statement and [RETURNING (xmax = 0)]. *)
Definition insert (table : Table) (bar : CompositeBar) : Table * bool :=
  let k := key_of bar in
  match table !! k with
  | None => (<[k := bar]> table, true)
  | Some stored =>
      (<[k := with_is_backfilled (merged_is_backfilled stored bar) bar]> table, false)
  end.

(** A sequence of upserts, in order. *)
Definition insert_all (table : Table) (bars : list CompositeBar) : Table :=
  fold_left (fun t b => fst (insert t b)) bars table.

End Repository.

(* ------------------------------------------------------------------ *)
(** ** Vocabulary of the statements *)

Module Spec.
Import Constants OutlierFilter.

(** A price above zero (in particular not a NaN). *)
Definition positive (x : float) : Prop := PrimFloat.ltb 0%float x = true.

(** An input passes the DISCONNECTED, NO_DATA and STALE checks: it is
    connected, has a price and an update time, and its age does not exceed
    the stale threshold of its venue. *)
Definition survives (now : Z) (market_type : MarketType)
    (inp : VenuePriceInput) : bool :=
  vpi_is_connected inp &&
  match vpi_price inp, vpi_last_update_ms inp with
  | Some _, Some last =>
      negb (get_stale_threshold (vpi_venue inp) market_type <? now - last)
  | _, _ => false
  end.

Definition entry (inp : VenuePriceInput) : list (VenueId * float) :=
  match vpi_price inp with
  | Some p => [(vpi_venue inp, p)]
  | None => []
  end.

(** The survivors of the first three exclusions, in input order. *)
Definition survivors (now : Z) (market_type : MarketType)
    (inputs : list VenuePriceInput) : list (VenueId * float) :=
  flat_map entry (List.filter (survives now market_type) inputs).

(** The survivors' prices that are within the threshold of [median]. *)
Definition within_threshold (median : option float) (prices : list float)
    : list float :=
  List.filter (fun p => negb (is_outlier median p)) prices.

(** What phase 3 writes on the record of a survivor with price [p]. *)
Definition verdict (median : option float) (p : float)
    (c : VenueContribution) : VenueContribution :=
  match median with
  | None => mark_included 0%float c
  | Some m =>
      let d := calculate_deviation_bps p m in
      if PrimFloat.ltb OUTLIER_THRESHOLD_BPS d then mark_outlier d c
      else mark_included d c
  end.

(** The contribution record an input ends with when no other input
    carries its venue. *)
Definition expected_contribution (now : Z) (market_type : MarketType)
    (median : option float) (inp : VenuePriceInput) : VenueContribution :=
  match classify now market_type inp with
  | (c, Some (_, p)) => verdict median p c
  | (c, None) => c
  end.

(** One candidate seen from one record: the record is rewritten when it
    carries the candidate's venue. *)
Definition touch (median : option float) (c : VenueContribution)
    (cand : VenueId * float) : VenueContribution :=
  if VenueId_eqb (vc_venue c) (fst cand) then verdict median (snd cand) c else c.


(** The exclusion an input meets, in the order of the checks; [None] when
    it is included. *)
Definition exclusion (now : Z) (market_type : MarketType)
    (median : option float) (inp : VenuePriceInput) : option ExcludeReason :=
  if negb (vpi_is_connected inp) then Some DISCONNECTED
  else
    match vpi_price inp, vpi_last_update_ms inp with
    | Some p, Some last =>
        if get_stale_threshold (vpi_venue inp) market_type <? now - last
        then Some STALE
        else if is_outlier median p then Some OUTLIER
        else None
    | _, _ => Some NO_DATA
    end.

Definition is_none {A : Type} (o : option A) : bool :=
  match o with None => true | Some _ => false end.

(** The sums of the flow fields over the bars of exactly those venues
    that satisfy [P], in the order of the dictionary. *)
Definition flow_over (P : VenueId -> bool) (venue_bars : Aggregator.VenueBars)
    : Aggregator.Flow :=
  fold_left Aggregator.flow_add
    (flat_map
       (fun vb : VenueId * option Bar =>
          match snd vb with
          | Some b => if P (fst vb) then [b] else []
          | None => []
          end)
       venue_bars)
    Aggregator.flow_zero.

(** A bar with its open, high and low erased. *)
Definition forget_ohl (b : Bar) : Bar :=
  mkBar (bar_time b) 0%float 0%float 0%float (bar_close b)
        (bar_volume b) (bar_trade_count b) (bar_buy_volume b) (bar_sell_volume b)
        (bar_buy_count b) (bar_sell_count b)
        (bar_venue b) (bar_asset b) (bar_market_type b) (bar_is_partial b).

Definition forget_ohl_all (venue_bars : Aggregator.VenueBars) : Aggregator.VenueBars :=
  map (fun vb : VenueId * option Bar => (fst vb, option_map forget_ohl (snd vb)))
      venue_bars.

(** After the words of the specification (section 4.6, "the same outlier
    rules (section 4.4)"): the outlier filter applied to one component of the
    venue bars of a gap minute, where every venue that has a bar is connected
    (DISCONNECTED is absence) and its data is as recent as the time of the
    computation (STALE does not apply). *)
Definition fresh_inputs (venue_bars : list (VenueId * Bar)) (getter : Bar -> float)
    (now : Z) : list VenuePriceInput :=
  map (fun vb : VenueId * Bar => mkInput (fst vb) (Some (getter (snd vb))) (Some now) true)
      venue_bars.

Definition filtered_component (venue_bars : list (VenueId * Bar))
    (getter : Bar -> float) (now : Z) (market_type : MarketType) : option float :=
  cr_price (filter_outliers (fresh_inputs venue_bars getter now) now market_type).

(** The values of one component over the venue bars. *)
Definition component (venue_bars : list (VenueId * Bar)) (getter : Bar -> float)
    : list float :=
  map (fun vb : VenueId * Bar => getter (snd vb)) venue_bars.

(** Classes of binary64 values, read on their specification: a value that
    is not a NaN and carries the sign [s]; a value that is not a NaN; a value
    that is neither a NaN nor an infinity. *)
Inductive signed (s : bool) : spec_float -> Prop :=
  | signed_zero : signed s (S754_zero s)
  | signed_infinity : signed s (S754_infinity s)
  | signed_finite m e : signed s (S754_finite s m e).

Definition is_number (x : spec_float) : Prop := x <> S754_nan.

Definition finite_class (x : spec_float) : Prop :=
  match x with
  | S754_zero _ | S754_finite _ _ _ => True
  | _ => False
  end.

End Spec.

(* ------------------------------------------------------------------ *)
(** ** Concrete inputs used below *)

Module Scenario.
Import OutlierFilter.

(** A stale venue whose price is far from the live ones (Binance spot,
    threshold 10 000 ms, last update 15 000 ms ago). *)
Definition stale_far : list VenuePriceInput :=
  [ mkInput BINANCE (Some 95100%float) (Some 0) true;
    mkInput COINBASE (Some 94100%float) (Some 14000) true;
    mkInput OKX (Some 94100%float) (Some 14000) true ].

(** Two trades of one venue: the first in the minute starting at
    1 704 067 260 s, the second stamped one second before that minute. *)
Definition trade_now : Trade :=
  mkTrade 1704067260000 1704067260050 110%float 1%float false BINANCE BTC SPOT.

Definition trade_late : Trade :=
  mkTrade 1704067259000 1704067260900 100%float 2%float false BINANCE BTC SPOT.

Definition builder_now : BarBuilder.Builder :=
  fst (BarBuilder.add_trade (BarBuilder.new_builder true) trade_now).

(** Two venues, connected and fresh, whose bars for the minute starting at
    1 704 067 200 s agree on the close but open 3 % apart. *)
Definition bar_a : Bar :=
  mkBar 1704067200 100%float 102%float 100%float 101%float
        5%float 3 3%float 2%float 2 1 BINANCE BTC SPOT false.

Definition bar_b : Bar :=
  mkBar 1704067200 103%float 103%float 101%float 101%float
        7%float 4 4%float 3%float 3 1 COINBASE BTC SPOT false.

Definition apart_bars : Aggregator.VenueBars :=
  [(BINANCE, Some bar_a); (COINBASE, Some bar_b)].

Definition both_fresh : Aggregator.VenueState :=
  [(BINANCE, (true, Some 1704067259000)); (COINBASE, (true, Some 1704067259000))].

(** One venue connected with a bar, two venues disconnected. *)
Definition bar_c : Bar :=
  mkBar 1704067200 100%float 102%float 100%float 101%float
        5%float 3 3%float 2%float 2 1 OKX BTC SPOT false.

Definition lone_bars : Aggregator.VenueBars :=
  [(BINANCE, None); (COINBASE, None); (OKX, Some bar_c)].

Definition lone_state : Aggregator.VenueState :=
  [(BINANCE, (false, None)); (COINBASE, (false, None));
   (OKX, (true, Some 1704067259000))].

(** A gap row written by the realtime path, and the realtime bar of the
    same minute computed again without a gap. *)
Definition gap_row : CompositeBar :=
  mkCompositeBar 1704067200 None None None None 0%float 0%float 0%float 0 0
    true true false [] [mkExcludedVenue "binance" DISCONNECTED] (Some BTC) (Some SPOT).

Definition live_row : CompositeBar :=
  mkCompositeBar 1704067200 (Some 100%float) (Some 102%float) (Some 99%float)
    (Some 101%float) 12%float 7%float 5%float 5 2
    true false false ["binance"; "coinbase"]%string [] (Some BTC) (Some SPOT).

(** Three venue bars of a gap minute; the open of the third is 106 bps
    above the median open. *)
Definition bf_bar (venue : VenueId) (open : float) : Bar :=
  mkBar 1704067200 open 95200%float 93900%float 94100%float
        1%float 1 1%float 0%float 1 0 venue BTC SPOT false.

Definition backfill_bars : list (VenueId * Bar) :=
  [(BINANCE, bf_bar BINANCE 94000%float);
   (KRAKEN, bf_bar KRAKEN 94100%float);
   (OKX, bf_bar OKX 95100%float)].

Definition close_bars : list (VenueId * Bar) :=
  [(BINANCE, bf_bar BINANCE 94000%float);
   (KRAKEN, bf_bar KRAKEN 94100%float)].

(** The same venue twice, once stale and once fresh with a price 106 bps
    above the two other venues, in the two possible orders. *)
Definition twice_stale_first : list VenuePriceInput :=
  [ mkInput BINANCE (Some 95100%float) (Some 0) true;
    mkInput BINANCE (Some 95100%float) (Some 14000) true;
    mkInput COINBASE (Some 94100%float) (Some 14000) true;
    mkInput OKX (Some 94100%float) (Some 14000) true ].

Definition twice_fresh_first : list VenuePriceInput :=
  [ mkInput BINANCE (Some 95100%float) (Some 14000) true;
    mkInput BINANCE (Some 95100%float) (Some 0) true;
    mkInput COINBASE (Some 94100%float) (Some 14000) true;
    mkInput OKX (Some 94100%float) (Some 14000) true ].

(** Three distinct venues and the same inputs in another order. *)
Definition three_venues : list VenuePriceInput :=
  [ mkInput BINANCE (Some 94100%float) (Some 14000) true;
    mkInput COINBASE (Some 94150%float) (Some 14000) true;
    mkInput OKX (Some 95100%float) (Some 14000) true ].

Definition three_venues_reordered : list VenuePriceInput :=
  [ mkInput OKX (Some 95100%float) (Some 14000) true;
    mkInput BINANCE (Some 94100%float) (Some 14000) true;
    mkInput COINBASE (Some 94150%float) (Some 14000) true ].

(** Three venues quoting zero. *)
Definition all_zero : list VenuePriceInput :=
  [ mkInput BINANCE (Some 0%float) (Some 14000) true;
    mkInput COINBASE (Some 0%float) (Some 14000) true;
    mkInput OKX (Some 0%float) (Some 14000) true ].

(** Two worlds without state for [backfill_gaps], each with one gap
    minute.  In the first every REST fetch fails; in the second two venues
    return a trade each and the composite repository fails on insert. *)
Definition one_gap : string -> string -> Z -> Z -> M unit (list Z) :=
  fun _ _ _ _ => ret [1704067200].

Definition rest_down : Backfill.Env unit :=
  Backfill.mkEnv unit one_gap
    (fun _ _ _ _ => raise "HTTP 500")
    (fun _ => ret tt)
    (fun _ => ret true).

Definition gap_trade (venue : VenueId) : Trade :=
  mkTrade 1704067201000 1704070000000 94100%float 1%float false venue BTC SPOT.

Definition db_down : Backfill.Env unit :=
  Backfill.mkEnv unit one_gap
    (fun _ _ venue _ =>
       if String.eqb venue "binance" then ret [gap_trade BINANCE]
       else if String.eqb venue "kraken" then ret [gap_trade KRAKEN]
       else ret [])
    (fun _ => ret tt)
    (fun _ => raise "connection closed").

End Scenario.

(* ------------------------------------------------------------------ *)
(** ** core/bar_builder.py: the queries of [BarBuilder] and [merge_bars] *)

Module BarQueries.
Import Constants BarBuilder.

(** [d[-1]] on a non-empty sequence. *)
Fixpoint last_item {A : Type} (l : list A) : option A :=
  match l with
  | [] => None
  | [x] => Some x
  | _ :: l' => last_item l'
  end.

(** [BarBuilder.get_bars].  [if limit:] is false for [None] and for 0;
    [bars[-limit:]] keeps the last [limit] entries for a positive [limit]
    (all of them when there are fewer) and drops the first [-limit] entries
    for a negative one. *)
Definition get_bars (b : Builder) (limit : option Z) : list Bar :=
  let bars := completed_bars b in
  match limit with
  | None => bars
  | Some l =>
      if l =? 0 then bars
      else if 0 <? l then skipn (List.length bars - Z.to_nat l)%nat bars
      else skipn (Z.to_nat (- l)) bars
  end.

(** [BarBuilder.get_latest_bar]. *)
Definition get_latest_bar (b : Builder) : option Bar :=
  last_item (completed_bars b).

(** [BarBuilder.get_current_price]: the [close] of the accumulator. *)
Definition get_current_price (b : Builder) : option float :=
  match accumulator b with
  | None => None
  | Some a => option_map o_close (acc_ohlc a)
  end.

(** [BarBuilder.get_last_trade_time]. *)
Definition get_last_trade_time (b : Builder) : option Z := last_trade_time b.

(** [BarBuilder.bar_count]. *)
Definition bar_count (b : Builder) : nat := List.length (completed_bars b).

(** One iteration of the loop of [merge_bars].  The running values
    ([high_price], [total_volume], ...) are carried in a bar whose time,
    open, venue, asset and market type are those of the first bar. *)
Definition merge_step (m bar : Bar) : Bar :=
  mkBar (bar_time m) (bar_open m)
        (if PrimFloat.ltb (bar_high m) (bar_high bar) then bar_high bar else bar_high m)
        (if PrimFloat.ltb (bar_low bar) (bar_low m) then bar_low bar else bar_low m)
        (bar_close bar)
        (PrimFloat.add (bar_volume m) (bar_volume bar))
        (bar_trade_count m + bar_trade_count bar)
        (PrimFloat.add (bar_buy_volume m) (bar_buy_volume bar))
        (PrimFloat.add (bar_sell_volume m) (bar_sell_volume bar))
        (bar_buy_count m + bar_buy_count bar)
        (bar_sell_count m + bar_sell_count bar)
        (bar_venue m) (bar_asset m) (bar_market_type m) (bar_is_partial m).

(** [merge_bars]. *)
Definition merge_bars (bars : list Bar) : option Bar :=
  match bars with
  | [] => None
  | first :: rest =>
      let m := fold_left merge_step rest first in
      Some (mkBar (bar_time first) (bar_open m) (bar_high m) (bar_low m)
                  (bar_close m) (bar_volume m) (bar_trade_count m)
                  (bar_buy_volume m) (bar_sell_volume m)
                  (bar_buy_count m) (bar_sell_count m)
                  (bar_venue first) (bar_asset first) (bar_market_type first)
                  (existsb bar_is_partial bars))
  end.

End BarQueries.

(* ------------------------------------------------------------------ *)
(** ** Vocabulary of the statements on bars *)

Module BarSpec.
Import Constants BarBuilder.

(** A stream of trades handed to [BarBuilder.add_trade] one by one, as the
    loop of [BaseConnector._handle_message] does: the builder reached and
    the bars returned, oldest first. *)
Definition feed (b : Builder) (trades : list Trade) : Builder * list Bar :=
  fold_left
    (fun (st : Builder * list Bar) t =>
       let '(b', r) := add_trade (fst st) t in
       (b', snd st ++ match r with Some bar => [bar] | None => [] end))
    trades (b, []).

(** The trades of a list accumulated into a fresh accumulator. *)
Definition accumulate (minute : Z) (trades : list Trade) : BarAccumulator :=
  fold_left acc_add_trade trades (new_accumulator minute).

(** [x > y] is false, which for two numbers is [x <= y]. *)
Definition not_above (x y : float) : Prop := PrimFloat.ltb y x = false.

(** [x] is the price of one of the trades and no trade has a greater
    (smaller) price. *)
Definition highest_of (prices : list float) (x : float) : Prop :=
  In x prices /\ Forall (fun p => not_above p x) prices.

Definition lowest_of (prices : list float) (x : float) : Prop :=
  In x prices /\ Forall (fun p => not_above x p) prices.

Definition is_buy (t : Trade) : bool := negb (is_buyer_maker t).

(** Left-to-right float sum from zero, as repeated [+=]. *)
Definition running_sum (l : list float) : float := fold_left PrimFloat.add l 0%float.

(** The last [n] entries of a list. *)
Definition most_recent {A : Type} (n : nat) (l : list A) : list A :=
  skipn (List.length l - n)%nat l.

(** A bar shown as complete. *)
Definition completed (p : Bar) : Bar :=
  mkBar (bar_time p) (bar_open p) (bar_high p) (bar_low p) (bar_close p)
        (bar_volume p) (bar_trade_count p) (bar_buy_volume p) (bar_sell_volume p)
        (bar_buy_count p) (bar_sell_count p)
        (bar_venue p) (bar_asset p) (bar_market_type p) false.

(** The five comparisons that hold between the prices of a bar. *)
Definition ohlc_consistent (o h l c : float) : Prop :=
  not_above o h /\ not_above c h /\ not_above l o /\ not_above l c /\ not_above l h.

(** What holds of every completed bar of a builder. *)
Definition sound_bar (bar : Bar) : Prop :=
  bar_is_partial bar = false /\
  bar_time bar mod 60 = 0 /\
  1 <= bar_trade_count bar <= MAX_TRADE_BUFFER_SIZE /\
  bar_buy_count bar + bar_sell_count bar = bar_trade_count bar /\
  ohlc_consistent (bar_open bar) (bar_high bar) (bar_low bar) (bar_close bar).

Definition earlier (x y : Bar) : Prop := bar_time x < bar_time y.

(** The invariant of the state of a builder. *)
Definition sound_builder (b : Builder) : Prop :=
  StronglySorted earlier (completed_bars b) /\
  (List.length (completed_bars b) <= MAX_BARS_PER_VENUE)%nat /\
  Forall sound_bar (completed_bars b) /\
  match accumulator b with
  | None => completed_bars b = [] /\ trade_count b = 0
  | Some a =>
      Forall (fun bar => bar_time bar < acc_bar_time a) (completed_bars b) /\
      acc_bar_time a mod 60 = 0 /\
      acc_trade_count a = trade_count b /\
      1 <= trade_count b <= MAX_TRADE_BUFFER_SIZE /\
      acc_buy_count a + acc_sell_count a = acc_trade_count a /\
      (exists c, acc_ohlc a = Some c /\
                 ohlc_consistent (o_open c) (o_high c) (o_low c) (o_close c)) /\
      acc_venue a <> None /\ acc_asset a <> None /\ acc_market_type a <> None
  end.

(** Two bars that agree on every field but the three volumes. *)
Definition agree_but_volumes (m w : Bar) : Prop :=
  bar_time m = bar_time w /\
  bar_venue m = bar_venue w /\
  bar_asset m = bar_asset w /\
  bar_market_type m = bar_market_type w /\
  bar_open m = bar_open w /\
  bar_high m = bar_high w /\
  bar_low m = bar_low w /\
  bar_close m = bar_close w /\
  bar_trade_count m = bar_trade_count w /\
  bar_buy_count m = bar_buy_count w /\
  bar_sell_count m = bar_sell_count w /\
  bar_is_partial m = bar_is_partial w.

End BarSpec.

(* ------------------------------------------------------------------ *)
(** ** The writes of a backfill run *)

Module BackfillLog.
Import Backfill.

(** The arguments of the calls made to [venue_repo.insert_batch] and to
    [composite_repo.insert], in the order of the calls; a call is recorded
    whether or not it raises. *)
Record Log := mkLog {
  venue_writes : list (list (Bar * bool * option string));
  composite_writes : list CompositeBar
}.

Section Recording.

Variable U : Type.
Variable env : Env U.

Definition keep_log {A : Type} (m : M U A) : M (U * Log) A :=
  fun s => let '(r, u) := m (fst s) in (r, (u, snd s)).

(** The environment [env] with its two repositories observed. *)
Definition recording : Env (U * Log) :=
  mkEnv (U * Log)
    (fun a m s e => keep_log (get_gaps U env a m s e))
    (fun a m v t => keep_log (fetch_trades_for_minute U env a m v t))
    (fun batch s =>
       let '(r, u) := venue_insert_batch U env batch (fst s) in
       (r, (u, mkLog (venue_writes (snd s) ++ [batch]) (composite_writes (snd s)))))
    (fun c s =>
       let '(r, u) := composite_insert U env c (fst s) in
       (r, (u, mkLog (venue_writes (snd s)) (composite_writes (snd s) ++ [c])))).

End Recording.

(** A venue bar written by the repair of the minute [gap_time]. *)
Definition written_venue_bar (gap_time : Z) (x : Bar * bool * option string) : Prop :=
  let '(bar, included, exclude_reason) := x in
  included = true /\ exclude_reason = None /\
  bar_time bar = gap_time /\ bar_is_partial bar = false.

(** A composite written by the repair of the minute [gap_time]. *)
Definition written_composite (asset market_type : string) (gap_time : Z)
    (c : CompositeBar) : Prop :=
  Repository.key_of c = (gap_time, upper asset, lower market_type) /\
  cb_time c = gap_time /\
  cb_is_gap c = false /\ cb_is_backfilled c = true /\
  cb_open c <> None /\ cb_high c <> None /\ cb_low c <> None /\ cb_close c <> None /\
  (2 <= List.length (cb_included_venues c))%nat /\
  NoDup (cb_included_venues c).

(** The invariant of the local variables of the venue loop. *)
Definition sound_loop (gap_time : Z) (acc : VenueLoop) : Prop :=
  Forall (written_venue_bar gap_time) (venue_bars acc) /\
  NoDup (map fst (valid_venue_bars acc)) /\
  (List.length (valid_venue_bars acc) <= List.length (venue_bars acc))%nat.

(** What one repair appends to the log. *)
Definition appended (asset market_type : string) (gap_time : Z)
    (before after : Log)
    (batches : list (list (Bar * bool * option string)))
    (composites : list CompositeBar) : Prop :=
  venue_writes after = venue_writes before ++ batches /\
  composite_writes after = composite_writes before ++ composites /\
  Forall (fun batch => (2 <= List.length batch)%nat /\
                       Forall (written_venue_bar gap_time) batch) batches /\
  Forall (written_composite asset market_type gap_time) composites /\
  (List.length composites <= List.length batches)%nat.

End BackfillLog.

(* ------------------------------------------------------------------ *)
(** ** persistence/repository.py: the gap queries *)

Module Queries.
Import stdpp.base stdpp.gmap stdpp.strings.
Import Repository.

(** A row of [composite_bars]: its primary key and its other columns.  The
    columns [time], [asset] and [market_type] are those of the key. *)
Abbreviation Row := (Key * CompositeBar)%type.

Definition row_time (r : Row) : Z := fst (fst (fst r)).
Definition row_asset (r : Row) : string := snd (fst (fst r)).
Definition row_market (r : Row) : string := snd (fst r).

(** [WHERE asset = $1 AND market_type = $2 AND time >= $3 AND time < $4
    AND is_gap = TRUE], the parameters being [asset.upper()],
    [market_type.lower()] and the two times. *)
Definition gap_in_range (asset market_type : string) (start_time end_time : Z)
    (r : Row) : bool :=
  String.eqb (row_asset r) (Backfill.upper asset)
  && String.eqb (row_market r) (Backfill.lower market_type)
  && Z.leb start_time (row_time r) && Z.ltb (row_time r) end_time
  && cb_is_gap (snd r).

(** [ORDER BY time ASC]. *)
Fixpoint insert_by_time (t : Z) (l : list Z) : list Z :=
  match l with
  | [] => [t]
  | x :: l' => if Z.ltb t x then t :: l else x :: insert_by_time t l'
  end.

Definition order_by_time (l : list Z) : list Z := fold_right insert_by_time [] l.

(** The times of the gap rows of the range, in ascending order. *)
Definition gap_times (table : Table) (asset market_type : string)
    (start_time end_time : Z) : list Z :=
  order_by_time
    (map row_time
       (List.filter (gap_in_range asset market_type start_time end_time)
          (map_to_list table))).

(** [CompositeBarRepository.get_gaps]; PostgreSQL refuses a negative
    [LIMIT]. *)
Definition get_gaps (table : Table) (asset market_type : string)
    (start_time end_time : Z) (limit : Z) : outcome (list Z) :=
  if Z.ltb limit 0 then Raise "LIMIT must not be negative"%string
  else Ok (firstn (Z.to_nat limit)
             (gap_times table asset market_type start_time end_time)).

(** [CompositeBarRepository.count_gaps]. *)
Definition count_gaps (table : Table) (asset market_type : string)
    (start_time end_time : Z) : Z :=
  Z.of_nat
    (List.length
       (List.filter (gap_in_range asset market_type start_time end_time)
          (map_to_list table))).

End Queries.

(* ------------------------------------------------------------------ *)
(** ** The backfill service on the composite table *)

Module BackfillDatabase.
Import Backfill Repository.

Section Database.

(** Everything outside the composite table: the venue REST endpoints and
    the venue bar repository, with a state [X] of their own. *)
Variable X : Type.
Variable fetch : string -> string -> string -> Z -> M X (list Trade).
Variable venue_insert : list (Bar * bool * option string) -> M X unit.



End Database.

End BackfillDatabase.

(* ------------------------------------------------------------------ *)
(** ** Vocabulary of the statements on the repaired table *)

Module RepairSpec.
Import Backfill Repository BackfillLog.


End RepairSpec.

(* ------------------------------------------------------------------ *)
(** ** aggregator/composite_aggregator.py: the state of the aggregator *)

Module AggregatorState.
Import Constants OutlierFilter Aggregator.

Definition MAX_IN_MEMORY_BARS : nat := 120.

Definition AssetId_eqb (a b : AssetId) : bool :=
  match a, b with BTC, BTC | ETH, ETH => true | _, _ => false end.

Definition MarketType_eqb (a b : MarketType) : bool :=
  match a, b with SPOT, SPOT | PERP, PERP => true | _, _ => false end.

(** The keys [(venue, asset, market_type)] and [(asset, market_type)]. *)
Definition VenueKey : Type := VenueId * AssetId * MarketType.
Definition MarketKey : Type := AssetId * MarketType.

Definition VenueKey_eqb (a b : VenueKey) : bool :=
  VenueId_eqb (fst (fst a)) (fst (fst b))
  && AssetId_eqb (snd (fst a)) (snd (fst b))
  && MarketType_eqb (snd a) (snd b).

Definition MarketKey_eqb (a b : MarketKey) : bool :=
  AssetId_eqb (fst a) (fst b) && MarketType_eqb (snd a) (snd b).

(** The key [(bar.asset, bar.market_type)] of the composite buffer; both
    fields of a [CompositeBar] are optional. *)
Definition BufferKey : Type := option AssetId * option MarketType.

Definition BufferKey_eqb (a b : BufferKey) : bool :=
  match fst a, fst b with
  | Some x, Some y => AssetId_eqb x y
  | None, None => true
  | _, _ => false
  end
  && match snd a, snd b with
     | Some x, Some y => MarketType_eqb x y
     | None, None => true
     | _, _ => false
     end.

(** Dictionaries as association lists in insertion order: [d.get(k)] and
    [d[k] = v]. *)
Definition lookup {K V : Type} (eqb : K -> K -> bool) (d : list (K * V)) (k : K)
    : option V :=
  match find (fun kv => eqb (fst kv) k) d with
  | Some kv => Some (snd kv)
  | None => None
  end.

Fixpoint assign {K V : Type} (eqb : K -> K -> bool) (d : list (K * V)) (k : K) (v : V)
    : list (K * V) :=
  match d with
  | [] => [(k, v)]
  | (k', v') :: d' =>
      if eqb k' k then (k, v) :: d' else (k', v') :: assign eqb d' k v
  end.

(** [deque(maxlen=n).append]. *)
Definition ring_append {A : Type} (n : nat) (d : list A) (x : A) : list A :=
  skipn (List.length (d ++ [x]) - n)%nat (d ++ [x]).

Record AggregatorConfig := mkConfig {
  assets : list AssetId;
  spot_venues : list VenueId;
  perp_venues : list VenueId
}.

Definition default_config : AggregatorConfig :=
  mkConfig [BTC; ETH] [BINANCE; COINBASE] [BINANCE].

(** The constructor arguments: the configuration and whether each of the
    two callbacks is given. *)
Record Settings := mkSettings {
  config : AggregatorConfig;
  has_on_composite_bar : bool;
  has_on_venue_bars : bool
}.

(** What the aggregator reads from a connector: [is_connected()] and
    [get_last_update_time()]. *)
Record ConnectorStatus := mkStatus {
  connected : bool;
  last_update_time : option Z
}.

Record VenueBarBuffer := mkBuffer {
  latest_bar : option Bar;
  buffer_bar_time : option Z
}.

(** The three counters of [record_composite_bar] for one label pair. *)
Record Counters := mkCounters {
  composite_bars_total : Z;
  gap_bars_total : Z;
  degraded_bars_total : Z
}.

(** The state of a [CompositeAggregator].  [sent_composites] and
    [sent_venue_bars] record, oldest first, the arguments of the calls to
    [on_composite_bar] and [on_venue_bars]. *)
Record State := mkState {
  connectors : list (VenueKey * ConnectorStatus);
  bar_buffers : list (VenueKey * VenueBarBuffer);
  composite_bar_buffer : list (BufferKey * list CompositeBar);
  last_composite_times : list (MarketKey * Z);
  counters : list (MarketKey * Counters);
  sent_composites : list CompositeBar;
  sent_venue_bars : list (list (Bar * bool * option string))
}.

Definition initial : State := mkState [] [] [] [] [] [] [].

(** [_make_connector]: whether a connector exists for the venue and the
    market type; a new connector is disconnected and has seen no message. *)
Definition make_connector (venue : VenueId) (market_type : MarketType)
    : option ConnectorStatus :=
  match venue with
  | BINANCE => Some (mkStatus false None)
  | COINBASE =>
      match market_type with PERP => None | SPOT => Some (mkStatus false None) end
  | KRAKEN =>
      match market_type with PERP => None | SPOT => Some (mkStatus false None) end
  | OKX => Some (mkStatus false None)
  | BYBIT =>
      match market_type with SPOT => None | PERP => Some (mkStatus false None) end
  end.

(** [_create_connector]. *)
Definition create_connector (st : State) (venue : VenueId) (asset : AssetId)
    (market_type : MarketType) : State :=
  let key := (venue, asset, market_type) in
  match make_connector venue market_type with
  | None => st
  | Some connector =>
      mkState (assign VenueKey_eqb (connectors st) key connector)
              (assign VenueKey_eqb (bar_buffers st) key (mkBuffer None None))
              (composite_bar_buffer st) (last_composite_times st) (counters st)
              (sent_composites st) (sent_venue_bars st)
  end.

(** The two nested loops of [start]. *)
Definition start (s : Settings) (st : State) : State :=
  fold_left
    (fun st asset =>
       let st1 :=
         fold_left (fun st venue => create_connector st venue asset SPOT)
                   (spot_venues (config s)) st in
       fold_left (fun st venue => create_connector st venue asset PERP)
                 (perp_venues (config s)) st1)
    (assets (config s)) st.

(** [_handle_bar_complete]. *)
Definition handle_bar_complete (st : State) (key : VenueKey) (bar : Bar) : State :=
  match lookup VenueKey_eqb (bar_buffers st) key with
  | None => st
  | Some _ =>
      mkState (connectors st)
              (assign VenueKey_eqb (bar_buffers st) key
                 (mkBuffer (Some bar) (Some (bar_time bar))))
              (composite_bar_buffer st) (last_composite_times st) (counters st)
              (sent_composites st) (sent_venue_bars st)
  end.

(** [_store_composite_bar]. *)
Definition store_composite_bar (buffers : list (BufferKey * list CompositeBar))
    (bar : CompositeBar) : list (BufferKey * list CompositeBar) :=
  let key := (cb_asset bar, cb_market_type bar) in
  let d :=
    match lookup BufferKey_eqb buffers key with
    | Some d => d
    | None => []
    end in
  assign BufferKey_eqb buffers key (ring_append MAX_IN_MEMORY_BARS d bar).

(** [get_latest_bar]. *)
Definition get_latest_bar (st : State) (asset : AssetId) (market_type : MarketType)
    : option CompositeBar :=
  match lookup BufferKey_eqb (composite_bar_buffer st) (Some asset, Some market_type) with
  | Some buffer => BarQueries.last_item buffer
  | None => None
  end.

(** [get_bar_count]. *)
Definition get_bar_count (st : State) (asset : AssetId) (market_type : MarketType)
    : nat :=
  match lookup BufferKey_eqb (composite_bar_buffer st) (Some asset, Some market_type) with
  | Some buffer => List.length buffer
  | None => 0%nat
  end.

(** [bars.sort(key=lambda b: b.time)]: a stable sort on the times. *)
Fixpoint insert_bar (x : CompositeBar) (l : list CompositeBar) : list CompositeBar :=
  match l with
  | [] => [x]
  | y :: l' => if cb_time y <? cb_time x then y :: insert_bar x l' else x :: y :: l'
  end.

Definition sort_by_time (l : list CompositeBar) : list CompositeBar :=
  fold_right insert_bar [] l.

(** [bars[:limit]]: a negative [limit] counts from the end. *)
Definition slice_to {A : Type} (limit : Z) (l : list A) : list A :=
  if 0 <=? limit then firstn (Z.to_nat limit) l
  else firstn (List.length l - Z.to_nat (- limit))%nat l.

(** [get_bars]. *)
Definition get_bars (st : State) (asset : AssetId) (market_type : MarketType)
    (start_time end_time : option Z) (limit : Z) : list CompositeBar :=
  match lookup BufferKey_eqb (composite_bar_buffer st) (Some asset, Some market_type) with
  | None => []
  | Some buffer =>
      let keep bar :=
        negb (match start_time with Some s => cb_time bar <? s | None => false end)
        && negb (match end_time with Some e => e <? cb_time bar | None => false end) in
      slice_to limit (sort_by_time (List.filter keep buffer))
  end.

(** The [.value] of an exclusion reason. *)
Definition reason_value (r : ExcludeReason) : string :=
  match r with
  | DISCONNECTED => "disconnected"
  | STALE => "stale"
  | OUTLIER => "outlier"
  | NO_DATA => "no_data"
  | BACKFILL_UNAVAILABLE => "backfill_unavailable"
  end%string.

(** [_prepare_venue_bars_for_persistence]. *)
Definition prepare_venue_bars_for_persistence (venue_bars : VenueBars)
    (close_result : CompositeResult) : list (Bar * bool * option string) :=
  let venue_status :=
    fold_left
      (fun d contribution =>
         Backfill.dict_set d (vc_venue contribution)
           (vc_included contribution,
            option_map reason_value (vc_exclude_reason contribution)))
      (cr_venues close_result) [] in
  flat_map
    (fun vb : VenueId * option Bar =>
       match snd vb with
       | None => []
       | Some bar =>
           let '(included, exclude_reason) :=
             match dict_get venue_status (fst vb) with
             | Some s => s
             | None => (false, Some "no_data"%string)
             end in
           [(bar, included, exclude_reason)]
       end)
    venue_bars.

(** The loop of [_compute_single_composite] that fills the two
    dictionaries [venue_bars] and [venue_state]. *)
Definition collect (st : State) (venues : list VenueId) (asset : AssetId)
    (market_type : MarketType) (bar_time : Z) : VenueBars * VenueState :=
  fold_left
    (fun (acc : VenueBars * VenueState) venue =>
       let key := (venue, asset, market_type) in
       let state :=
         match lookup VenueKey_eqb (connectors st) key with
         | Some connector => (connected connector, last_update_time connector)
         | None => (false, None)
         end in
       let bar :=
         match lookup VenueKey_eqb (bar_buffers st) key with
         | Some buffer =>
             match buffer_bar_time buffer with
             | Some t => if t =? bar_time then latest_bar buffer else None
             | None => None
             end
         | None => None
         end in
       (Backfill.dict_set (fst acc) venue bar, Backfill.dict_set (snd acc) venue state))
    venues ([], []).

(** [record_composite_bar]. *)
Definition record_composite_bar (c : Counters) (is_gap is_degraded : bool) : Counters :=
  mkCounters (composite_bars_total c + 1)
             (if is_gap then gap_bars_total c + 1 else gap_bars_total c)
             (if is_gap then degraded_bars_total c
              else if is_degraded then degraded_bars_total c + 1
              else degraded_bars_total c).

Definition counters_of (st : State) (key : MarketKey) : Counters :=
  match lookup MarketKey_eqb (counters st) key with
  | Some c => c
  | None => mkCounters 0 0 0
  end.

(** [_compute_single_composite]. *)
Definition compute_single_composite (s : Settings) (st : State) (asset : AssetId)
    (market_type : MarketType) (bar_time : Z) : State :=
  let composite_key := (asset, market_type) in
  let duplicate :=
    match lookup MarketKey_eqb (last_composite_times st) composite_key with
    | Some t => t =? bar_time
    | None => false
    end in
  if duplicate then st
  else
    let venues :=
      match market_type with
      | SPOT => spot_venues (config s)
      | PERP => perp_venues (config s)
      end in
    let '(venue_bars, venue_state) := collect st venues asset market_type bar_time in
    let '(composite, close_result) :=
      build_composite asset market_type bar_time venue_bars venue_state in
    let tuples := prepare_venue_bars_for_persistence venue_bars close_result in
    mkState (connectors st) (bar_buffers st)
            (store_composite_bar (composite_bar_buffer st) composite)
            (assign MarketKey_eqb (last_composite_times st) composite_key bar_time)
            (assign MarketKey_eqb (counters st) composite_key
               (record_composite_bar (counters_of st composite_key)
                  (cb_is_gap composite) (cb_degraded composite)))
            (if has_on_composite_bar s then sent_composites st ++ [composite]
             else sent_composites st)
            (if has_on_venue_bars s then
               match tuples with
               | [] => sent_venue_bars st
               | _ => sent_venue_bars st ++ [tuples]
               end
             else sent_venue_bars st).

(** [_compute_composites]. *)
Definition compute_composites (s : Settings) (st : State) (bar_time : Z) : State :=
  fold_left
    (fun st asset =>
       fold_left
         (fun st market_type => compute_single_composite s st asset market_type bar_time)
         [SPOT; PERP] st)
    (assets (config s)) st.

(** One turn of [_composite_loop], woken at the wall-clock second [now]. *)
Definition composite_loop_step (s : Settings) (st : State) (now : Z) : State :=
  if now mod BAR_INTERVAL_SECONDS =? 0
  then compute_composites s st (now - BAR_INTERVAL_SECONDS)
  else st.

(** What happens to a running aggregator: a bar builder completes a bar,
    a connector changes its connection state or receives a message, the
    composite loop wakes up. *)
Inductive Event :=
  | BarComplete (key : VenueKey) (bar : Bar)
  | StatusChange (key : VenueKey) (status : ConnectorStatus)
  | Second (now : Z).

Definition step (s : Settings) (st : State) (e : Event) : State :=
  match e with
  | BarComplete key bar => handle_bar_complete st key bar
  | StatusChange key status =>
      match lookup VenueKey_eqb (connectors st) key with
      | None => st
      | Some _ =>
          mkState (assign VenueKey_eqb (connectors st) key status)
                  (bar_buffers st) (composite_bar_buffer st)
                  (last_composite_times st) (counters st)
                  (sent_composites st) (sent_venue_bars st)
      end
  | Second now => composite_loop_step s st now
  end.

(** The aggregator after [start] and a sequence of events. *)
Definition run (s : Settings) (events : list Event) : State :=
  fold_left (step s) events (start s initial).

(** What holds of the tuples handed to [on_venue_bars] in one call. *)
Definition sound_tuples (tuples : list (Bar * bool * option string)) : Prop :=
  tuples <> [] /\
  exists minute,
    minute mod 60 = 0 /\
    Forall (fun x : Bar * bool * option string =>
              bar_time (fst (fst x)) = minute /\
              snd (fst x) = match snd x with None => true | Some _ => false end)
           tuples.

(** What holds of every composite handed to [on_composite_bar]. *)
Definition sound_composite (c : CompositeBar) : Prop :=
  cb_time c mod 60 = 0 /\
  cb_asset c <> None /\ cb_market_type c <> None /\
  cb_is_backfilled c = false /\
  (cb_close c = None <-> cb_is_gap c = true) /\
  orb (negb (cb_is_gap c)) (cb_degraded c) = true.

(** The invariant of the state. *)
Definition sound_state (st : State) : Prop :=
  Forall (fun kb : VenueKey * VenueBarBuffer =>
            match latest_bar (snd kb) with
            | Some bar => buffer_bar_time (snd kb) = Some (bar_time bar)
            | None => True
            end) (bar_buffers st) /\
  Forall (fun kd : BufferKey * list CompositeBar =>
            (List.length (snd kd) <= MAX_IN_MEMORY_BARS)%nat /\
            Forall (fun c => sound_composite c /\
                             (cb_asset c, cb_market_type c) = fst kd) (snd kd))
         (composite_bar_buffer st) /\
  Forall (fun kc : MarketKey * Counters =>
            0 <= gap_bars_total (snd kc) /\ 0 <= degraded_bars_total (snd kc) /\
            gap_bars_total (snd kc) + degraded_bars_total (snd kc)
            <= composite_bars_total (snd kc)) (counters st) /\
  Forall sound_composite (sent_composites st) /\
  Forall sound_tuples (sent_venue_bars st).

End AggregatorState.

(* ------------------------------------------------------------------ *)
(** ** Vocabulary of the statements on the aggregator *)

Module AggregatorSpec.
Import AggregatorState.



End AggregatorSpec.

Module StartSpec.
Import Constants AggregatorState.

(** Whether [start] creates a connector for a key: the asset and the venue
    are configured for the market type, and a connector exists for the
    venue on that market type. *)
Definition started (s : Settings) (key : VenueKey) : bool :=
  let venue := fst (fst key) in
  let asset := snd (fst key) in
  let market_type := snd key in
  existsb (AssetId_eqb asset) (assets (config s))
  && venue_in venue
       (match market_type with
        | SPOT => spot_venues (config s)
        | PERP => perp_venues (config s)
        end)
  && match make_connector venue market_type with
     | Some _ => true
     | None => false
     end.

(** The members of [VenueId]. *)
Definition ALL_VENUES : list VenueId := [BINANCE; COINBASE; KRAKEN; OKX; BYBIT].

(** The venues configured for a market type that have a connector for it,
    each one once. *)
Definition connectable (s : Settings) (market_type : MarketType) : list VenueId :=
  List.filter
    (fun venue =>
       venue_in venue
         (match market_type with
          | SPOT => spot_venues (config s)
          | PERP => perp_venues (config s)
          end)
       && match make_connector venue market_type with
          | Some _ => true
          | None => false
          end)
    ALL_VENUES.

(** A composite does not include more venues than can be connected for
    its market type; it is a gap when these are fewer than the minimum
    quorum, and degraded when they are fewer than the preferred quorum. *)
Definition quorum_bound (s : Settings) (c : CompositeBar) : Prop :=
  match cb_market_type c with
  | None => True
  | Some market_type =>
      let n := List.length (connectable s market_type) in
      (List.length (cb_included_venues c) <= n)%nat /\
      ((n < min_quorum get_quorum_config)%nat -> cb_is_gap c = true) /\
      ((n < preferred_quorum get_quorum_config)%nat -> cb_degraded c = true)
  end.

(** The invariant of a running aggregator behind [quorum_bound]: no
    connector but those [start] creates, and the bound on every composite
    handed to [on_composite_bar] or kept in memory. *)
Definition quorum_state (s : Settings) (st : State) : Prop :=
  (forall key, lookup VenueKey_eqb (connectors st) key <> None -> started s key = true) /\
  Forall (quorum_bound s) (sent_composites st) /\
  Forall (fun kd : BufferKey * list CompositeBar => Forall (quorum_bound s) (snd kd))
         (composite_bar_buffer st).

End StartSpec.

(* ------------------------------------------------------------------ *)
(** ** persistence/repository.py: reading composite bars *)

Module Reads.
Import stdpp.base stdpp.gmap stdpp.strings.
Import Repository Queries.

(** Enum lookup by value, [ExcludeReason(s)]. *)
Definition parse_reason (s : string) : option ExcludeReason :=
  find (fun r => String.eqb (AggregatorState.reason_value r) s)
       [DISCONNECTED; STALE; OUTLIER; NO_DATA; BACKFILL_UNAVAILABLE].

(** The objects of the JSON array written to the column
    [excluded_venues]: the values under ["venue"] and ["reason"]. *)
Definition excluded_json (bar : CompositeBar) : list (string * string) :=
  map (fun ev => (ev_venue ev, AggregatorState.reason_value (ev_reason ev)))
      (cb_excluded_venues bar).

(** [_row_to_composite_bar]: an entry of [excluded_venues] whose reason is
    no value of [ExcludeReason] is dropped; [asset] and [market_type] are
    [None] for a string that is no value of their enum. *)
Definition row_to_composite_bar (r : Row) : CompositeBar :=
  let excluded_venues :=
    flat_map
      (fun ev : string * string =>
         match parse_reason (snd ev) with
         | Some reason => [mkExcludedVenue (fst ev) reason]
         | None => []
         end)
      (excluded_json (snd r)) in
  mkCompositeBar (row_time r)
    (cb_open (snd r)) (cb_high (snd r)) (cb_low (snd r)) (cb_close (snd r))
    (cb_volume (snd r)) (cb_buy_volume (snd r)) (cb_sell_volume (snd r))
    (cb_buy_count (snd r)) (cb_sell_count (snd r))
    (cb_degraded (snd r)) (cb_is_gap (snd r)) (cb_is_backfilled (snd r))
    (cb_included_venues (snd r)) excluded_venues
    (Backfill.parse_asset (row_asset r)) (Backfill.parse_market (row_market r)).

(** [WHERE asset = $1 AND market_type = $2], the parameters being
    [asset.upper()] and [market_type.lower()]. *)
Definition of_market (asset market_type : string) (r : Row) : bool :=
  String.eqb (row_asset r) (Backfill.upper asset)
  && String.eqb (row_market r) (Backfill.lower market_type).

(** [... AND time >= $3 AND time < $4]. *)
Definition in_range (asset market_type : string) (start_time end_time : Z)
    (r : Row) : bool :=
  of_market asset market_type r
  && Z.leb start_time (row_time r) && Z.ltb (row_time r) end_time.

(** [ORDER BY time]: [before] is [<] for [ASC] and [>] for [DESC]. *)
Fixpoint insert_row (before : Z -> Z -> bool) (r : Row) (l : list Row) : list Row :=
  match l with
  | [] => [r]
  | x :: l' =>
      if before (row_time r) (row_time x) then r :: l
      else x :: insert_row before r l'
  end.

Definition order_rows (before : Z -> Z -> bool) (l : list Row) : list Row :=
  fold_right (insert_row before) [] l.

(** The rows of a range in ascending order of time. *)
Definition range_rows (table : Table) (asset market_type : string)
    (start_time end_time : Z) : list Row :=
  order_rows Z.ltb
    (List.filter (in_range asset market_type start_time end_time)
       (map_to_list table)).


(** [CompositeBarRepository.get_latest]: [ORDER BY time DESC LIMIT 1]. *)
Definition get_latest (table : Table) (asset market_type : string)
    : option CompositeBar :=
  match firstn 1 (order_rows Z.gtb
                    (List.filter (of_market asset market_type) (map_to_list table))) with
  | r :: _ => Some (row_to_composite_bar r)
  | [] => None
  end.

(** [CompositeBarRepository.insert_batch]: the upserts of one transaction
    and the number of statements executed. *)
Definition insert_batch (table : Table) (bars : list CompositeBar) : Table * Z :=
  match bars with
  | [] => (table, 0%Z)
  | _ =>
      fold_left
        (fun (acc : Table * Z) bar => (fst (insert (fst acc) bar), (snd acc + 1)%Z))
        bars (table, 0%Z)
  end.


End Reads.

(* ------------------------------------------------------------------ *)
(** ** persistence/repository.py: [get_integrity_stats] *)

Module Integrity.
Import stdpp.base stdpp.gmap stdpp.strings.
Import Repository Queries Reads.

(** The dictionary returned; the three rates (quotients rounded to six
    places) are left out. *)
Record IntegrityStats := mkIntegrityStats {
  expected_bars : Z;
  actual_bars : Z;
  missing_bars : Z;
  gaps : Z;
  total_gaps : Z;
  degraded : Z;
  quality_degraded : Z;
  backfilled : Z;
  tier : Z;
  tier1_eligible : bool;
  tier2_eligible : bool
}.

(** [COUNT( * ) FILTER (WHERE ...)]. *)
Definition count_filter (p : CompositeBar -> bool) (rows : list Row) : Z :=
  Z.of_nat (List.length (List.filter (fun r : Row => p (snd r)) rows)).

(** [excluded_venues != '[]'::jsonb]. *)
Definition has_exclusions (bar : CompositeBar) : bool :=
  match excluded_json bar with
  | [] => false
  | _ :: _ => true
  end.

Definition get_integrity_stats (table : Table) (asset market_type : string)
    (start_time end_time : Z) : IntegrityStats :=
  let expected_bars := ((end_time - start_time) / 60)%Z in
  let rows :=
    List.filter (in_range asset market_type start_time end_time) (map_to_list table) in
  let actual_bars := Z.of_nat (List.length rows) in
  let gaps := count_filter cb_is_gap rows in
  let degraded := count_filter cb_degraded rows in
  let backfilled := count_filter cb_is_backfilled rows in
  let quality_degraded := count_filter has_exclusions rows in
  let missing_bars := Z.max 0 (expected_bars - actual_bars) in
  let total_gaps := (gaps + missing_bars)%Z in
  let tier :=
    if Z.leb total_gaps 5 && Z.leb quality_degraded 60 then 1%Z
    else if Z.leb total_gaps 30 && Z.leb quality_degraded 180 then 2%Z
    else 3%Z in
  mkIntegrityStats expected_bars actual_bars missing_bars gaps total_gaps
    degraded quality_degraded backfilled tier (Z.leb tier 1) (Z.leb tier 2).

End Integrity.

(* ================================================================== *)
(** * Properties *)

(* ------------------------------------------------------------------ *)
(** ** The order of binary64 values *)

Section FloatOrder.

Local Ltac cmp_cases :=
  repeat match goal with
    | H : context [Z.compare ?a ?b] |- _ => destruct (Z.compare_spec a b)
    | |- context [Z.compare ?a ?b] => destruct (Z.compare_spec a b)
    | H : context [Pos.compare_cont Eq ?a ?b] |- _ =>
        change (Pos.compare_cont Eq a b) with (Pos.compare a b) in *;
        destruct (Pos.compare_spec a b)
    | |- context [Pos.compare_cont Eq ?a ?b] =>
        change (Pos.compare_cont Eq a b) with (Pos.compare a b) in *;
        destruct (Pos.compare_spec a b)
    end.

Lemma SFltb_asym (x y : spec_float) :
  SFltb x y = true -> SFltb y x = false.
Proof.
  unfold SFltb, SFcompare.
  destruct x as [sx|sx| |sx mx ex], y as [sy|sy| |sy my ey];
    try destruct sx; try destruct sy; simpl; try congruence;
    cmp_cases; simpl; try congruence; lia.
Qed.

Lemma SFltb_trans (x y z : spec_float) :
  SFltb x y = true -> SFltb y z = true -> SFltb x z = true.
Proof.
  unfold SFltb, SFcompare.
  destruct x as [sx|sx| |sx mx ex], y as [sy|sy| |sy my ey],
           z as [sz|sz| |sz mz ez];
    try destruct sx; try destruct sy; try destruct sz;
    simpl; try congruence;
    cmp_cases; simpl; try congruence; lia.
Qed.

(** Two values above zero that are not ordered either way are the same
    value. *)
Lemma SFltb_positive_eq (x y : spec_float) :
  SFltb (S754_zero false) x = true ->
  SFltb (S754_zero false) y = true ->
  SFltb x y = false -> SFltb y x = false -> x = y.
Proof.
  unfold SFltb, SFcompare.
  destruct x as [sx|sx| |sx mx ex], y as [sy|sy| |sy my ey];
    try destruct sx; try destruct sy; simpl; try congruence;
    cmp_cases; simpl; try congruence; try lia.
Qed.

Lemma ltb_asym (x y : float) :
  PrimFloat.ltb x y = true -> PrimFloat.ltb y x = false.
Proof. rewrite !FloatAxioms.ltb_spec. apply SFltb_asym. Qed.

Lemma ltb_trans (x y z : float) :
  PrimFloat.ltb x y = true -> PrimFloat.ltb y z = true -> PrimFloat.ltb x z = true.
Proof. rewrite !FloatAxioms.ltb_spec. apply SFltb_trans. Qed.

Lemma ltb_positive_eq (x y : float) :
  PrimFloat.ltb 0%float x = true -> PrimFloat.ltb 0%float y = true ->
  PrimFloat.ltb x y = false -> PrimFloat.ltb y x = false -> x = y.
Proof.
  rewrite !FloatAxioms.ltb_spec. intros Hx Hy Hxy Hyx.
  apply Prim2SF_inj.
  apply SFltb_positive_eq; assumption.
Qed.

End FloatOrder.

(* ------------------------------------------------------------------ *)
(** ** Sorting and the median *)

Section Sorting.
Import OutlierFilter Spec.

Lemma positive_not_lt (x z : float) :
  positive x -> positive z ->
  PrimFloat.ltb z x = false -> PrimFloat.ltb x z = true \/ x = z.
Proof.
  intros Hx Hz Hzx.
  destruct (PrimFloat.ltb x z) eqn:Hxz; [now left | right].
  now apply ltb_positive_eq.
Qed.

Lemma insert_sorted_swap (x y : float) (l : list float) :
  positive x -> positive y -> Forall positive l ->
  insert_sorted x (insert_sorted y l) = insert_sorted y (insert_sorted x l).
Proof.
  intros Hx Hy Hl.
  induction Hl as [|z l Hz Hl IH]; simpl.
  - destruct (PrimFloat.ltb y x) eqn:Hyx, (PrimFloat.ltb x y) eqn:Hxy;
      try reflexivity.
    + rewrite (ltb_asym _ _ Hyx) in Hxy. discriminate.
    + now rewrite (ltb_positive_eq x y Hx Hy Hxy Hyx).
  - destruct (PrimFloat.ltb z y) eqn:Hzy, (PrimFloat.ltb z x) eqn:Hzx; simpl;
      rewrite ?Hzy, ?Hzx.
    + now rewrite IH.
    + assert (Hxy : PrimFloat.ltb x y = true).
      { destruct (positive_not_lt x z Hx Hz Hzx) as [H | ->]; [|assumption].
        now apply ltb_trans with z. }
      rewrite Hxy. simpl. now rewrite ?Hzy.
    + assert (Hyx : PrimFloat.ltb y x = true).
      { destruct (positive_not_lt y z Hy Hz Hzy) as [H | ->]; [|assumption].
        now apply ltb_trans with z. }
      rewrite Hyx. simpl. now rewrite ?Hzx.
    + destruct (PrimFloat.ltb y x) eqn:Hyx.
      * rewrite (ltb_asym _ _ Hyx). simpl. now rewrite ?Hzx.
      * destruct (PrimFloat.ltb x y) eqn:Hxy; simpl; rewrite ?Hzy; [reflexivity|].
        now rewrite (ltb_positive_eq x y Hx Hy Hxy Hyx).
Qed.

Lemma insert_sorted_Permutation (x : float) (l : list float) :
  Permutation (insert_sorted x l) (x :: l).
Proof.
  induction l as [|y l IH]; simpl; [reflexivity|].
  destruct (PrimFloat.ltb y x); [|reflexivity].
  rewrite IH. apply perm_swap.
Qed.

Lemma sorted_Permutation_self (l : list float) : Permutation (sorted l) l.
Proof.
  induction l as [|x l IH]; simpl; [reflexivity|].
  rewrite insert_sorted_Permutation. now constructor.
Qed.

Lemma sorted_length (l : list float) : List.length (sorted l) = List.length l.
Proof. apply Permutation_length, sorted_Permutation_self. Qed.

Lemma Forall_sorted (P : float -> Prop) (l : list float) :
  Forall P l -> Forall P (sorted l).
Proof.
  intros H. eapply Permutation_Forall; [|exact H].
  symmetry. apply sorted_Permutation_self.
Qed.

(** Sorting positive prices does not depend on the order they come in. *)
Lemma sorted_Permutation (l l' : list float) :
  Permutation l l' -> Forall positive l -> sorted l = sorted l'.
Proof.
  induction 1 as [|x l l' Hp IH|x y l|l l' l'' Hp1 IH1 Hp2 IH2]; intros Hl.
  - reflexivity.
  - simpl. inversion Hl; subst. now rewrite IH.
  - simpl. inversion Hl as [|? ? Hy Hl']; subst.
    inversion Hl' as [|? ? Hx Hl'']; subst.
    apply insert_sorted_swap; auto using Forall_sorted.
  - rewrite IH1 by assumption. apply IH2.
    eapply Permutation_Forall; eassumption.
Qed.

Lemma statistics_median_Permutation (l l' : list float) :
  Permutation l l' -> Forall positive l ->
  statistics_median l = statistics_median l'.
Proof.
  intros Hp Hl. unfold statistics_median. now rewrite (sorted_Permutation l l').
Qed.

Lemma calculate_median_Permutation (l l' : list float) :
  Permutation l l' -> Forall positive l ->
  calculate_median l = calculate_median l'.
Proof.
  intros Hp Hl. unfold calculate_median.
  destruct l as [|x l], l' as [|x' l'].
  - reflexivity.
  - apply Permutation_nil in Hp. discriminate.
  - symmetry in Hp. apply Permutation_nil in Hp. discriminate.
  - f_equal. now apply statistics_median_Permutation.
Qed.

Lemma calculate_median_is_Some (l : list float) :
  l <> [] -> calculate_median l = Some (statistics_median l).
Proof. destruct l; [congruence | reflexivity]. Qed.

Lemma calculate_median_None (l : list float) :
  calculate_median l = None <-> l = [].
Proof. destruct l; simpl; split; congruence. Qed.

End Sorting.

(* ------------------------------------------------------------------ *)
(** ** The phases of [filter_outliers] *)

Section Phases.
Import Constants OutlierFilter Spec.

Variables (now : Z) (market_type : MarketType).

Lemma classify_survives (inp : VenuePriceInput) :
  snd (classify now market_type inp)
  = if survives now market_type inp
    then match vpi_price inp with
         | Some p => Some (vpi_venue inp, p)
         | None => None
         end
    else None.
Proof.
  unfold classify, survives.
  destruct (vpi_is_connected inp); simpl; [|reflexivity].
  destruct (vpi_price inp) as [p|]; [|reflexivity].
  destruct (vpi_last_update_ms inp) as [last|]; [|reflexivity].
  destruct (get_stale_threshold (vpi_venue inp) market_type <? now - last);
    reflexivity.
Qed.

Lemma classify_venue (inp : VenuePriceInput) :
  vc_venue (fst (classify now market_type inp)) = vpi_venue inp.
Proof.
  unfold classify.
  destruct (vpi_is_connected inp); simpl; [|reflexivity].
  destruct (vpi_price inp) as [p|]; [|reflexivity].
  destruct (vpi_last_update_ms inp) as [last|]; [|reflexivity].
  destruct (get_stale_threshold (vpi_venue inp) market_type <? now - last);
    reflexivity.
Qed.

(** Phase 1 keeps exactly the survivors. *)
Lemma candidates_survivors (inputs : list VenuePriceInput) :
  candidates inputs now market_type = survivors now market_type inputs.
Proof.
  unfold candidates, survivors, phase1. simpl.
  induction inputs as [|inp inputs IH]; simpl; [reflexivity|].
  rewrite IH, classify_survives. unfold entry.
  destruct (survives now market_type inp); simpl; [|reflexivity].
  destruct (vpi_price inp); reflexivity.
Qed.

Lemma phase1_contributions (inputs : list VenuePriceInput) :
  fst (phase1 now market_type inputs)
  = map (fun inp => fst (classify now market_type inp)) inputs.
Proof. unfold phase1. simpl. now rewrite map_map. Qed.

Variable median : option float.

Lemma phase3_step_contributions (st : Phase3) (venue : VenueId) (p : float) :
  p3_contributions (phase3_step median st (venue, p))
  = update_first venue (verdict median p) (p3_contributions st).
Proof.
  unfold phase3_step, verdict. destruct median as [m|]; [|reflexivity].
  destruct (PrimFloat.ltb OUTLIER_THRESHOLD_BPS (calculate_deviation_bps p m));
    reflexivity.
Qed.

Lemma phase3_step_prices (st : Phase3) (cand : VenueId * float) :
  p3_included_prices (phase3_step median st cand)
  = p3_included_prices st ++ within_threshold median [snd cand].
Proof.
  destruct cand as [venue p]. unfold phase3_step, within_threshold, is_outlier.
  simpl. destruct median as [m|]; simpl; [|reflexivity].
  destruct (PrimFloat.ltb OUTLIER_THRESHOLD_BPS (calculate_deviation_bps p m));
    simpl; [now rewrite app_nil_r | reflexivity].
Qed.

(** The prices phase 3 keeps are the candidates within the threshold, in
    order. *)
Lemma phase3_loop_prices (cands : list (VenueId * float)) (st : Phase3) :
  p3_included_prices (fold_left (phase3_step median) cands st)
  = p3_included_prices st ++ within_threshold median (map snd cands).
Proof.
  revert st. induction cands as [|cand cands IH]; intros st; simpl.
  - now rewrite app_nil_r.
  - rewrite IH, phase3_step_prices, <- app_assoc. f_equal.
    unfold within_threshold. simpl.
    destruct (negb (is_outlier median (snd cand))); reflexivity.
Qed.

Lemma phase3_loop_contributions (cands : list (VenueId * float)) (st : Phase3) :
  p3_contributions (fold_left (phase3_step median) cands st)
  = fold_left (fun cs cand => update_first (fst cand) (verdict median (snd cand)) cs)
              cands (p3_contributions st).
Proof.
  revert st. induction cands as [|[venue p] cands IH]; intros st;
    cbn [fold_left]; [reflexivity|].
  now rewrite IH, phase3_step_contributions.
Qed.

End Phases.

(* ------------------------------------------------------------------ *)
(** ** Contribution records when venues are pairwise distinct *)

Lemma VenueId_eqb_eq (a b : VenueId) : VenueId_eqb a b = true <-> a = b.
Proof. destruct a, b; simpl; split; congruence. Qed.

Lemma VenueId_eqb_refl (a : VenueId) : VenueId_eqb a a = true.
Proof. now apply VenueId_eqb_eq. Qed.

Lemma VenueId_eqb_neq (a b : VenueId) : VenueId_eqb a b = false <-> a <> b.
Proof.
  split.
  - intros H Heq. apply VenueId_eqb_eq in Heq. congruence.
  - intros H. destruct (VenueId_eqb a b) eqn:E; [|reflexivity].
    apply VenueId_eqb_eq in E. contradiction.
Qed.

Section Records.
Import Constants OutlierFilter Spec.

Variables (now : Z) (market_type : MarketType) (median : option float).

Lemma verdict_venue (p : float) (c : VenueContribution) :
  vc_venue (verdict median p c) = vc_venue c.
Proof.
  unfold verdict. destruct median as [m|]; [|reflexivity].
  destruct (PrimFloat.ltb OUTLIER_THRESHOLD_BPS (calculate_deviation_bps p m));
    reflexivity.
Qed.

Lemma touch_venue c cand : vc_venue (touch median c cand) = vc_venue c.
Proof.
  unfold touch. destruct (VenueId_eqb (vc_venue c) (fst cand)); [|reflexivity].
  apply verdict_venue.
Qed.

Lemma update_first_map (venue : VenueId) (p : float) (cs : list VenueContribution) :
  NoDup (map vc_venue cs) ->
  update_first venue (verdict median p) cs = map (fun c => touch median c (venue, p)) cs.
Proof.
  induction cs as [|c cs IH]; intros Hnd; simpl; [reflexivity|].
  inversion Hnd as [|? ? Hnotin Hnd']; subst.
  unfold touch at 1. simpl.
  destruct (VenueId_eqb (vc_venue c) venue) eqn:E.
  - f_equal. apply VenueId_eqb_eq in E. subst venue.
    symmetry. rewrite <- (map_id cs) at 2. apply map_ext_in.
    intros c' Hin. unfold touch. simpl.
    destruct (VenueId_eqb (vc_venue c') (vc_venue c)) eqn:E'; [|reflexivity].
    apply VenueId_eqb_eq in E'. exfalso. apply Hnotin.
    rewrite <- E'. now apply in_map.
  - f_equal. now apply IH.
Qed.

Lemma loop_map (cands : list (VenueId * float)) (cs : list VenueContribution) :
  NoDup (map vc_venue cs) ->
  fold_left (fun cs cand => update_first (fst cand) (verdict median (snd cand)) cs)
            cands cs
  = map (fun c => fold_left (touch median) cands c) cs.
Proof.
  revert cs. induction cands as [|[venue p] cands IH]; intros cs Hnd; simpl.
  - now rewrite map_id.
  - rewrite update_first_map by assumption.
    rewrite IH.
    + now rewrite map_map.
    + rewrite map_map.
      erewrite map_ext; [exact Hnd|].
      intros c. apply touch_venue.
Qed.

Lemma fold_touch_venue cands c :
  vc_venue (fold_left (touch median) cands c) = vc_venue c.
Proof.
  revert c. induction cands as [|cand cands IH]; intros c; simpl; [reflexivity|].
  now rewrite IH, touch_venue.
Qed.

Lemma fold_touch_other (cands : list (VenueId * float)) (c : VenueContribution) :
  ~ In (vc_venue c) (map fst cands) -> fold_left (touch median) cands c = c.
Proof.
  revert c. induction cands as [|cand cands IH]; intros c Hnotin; simpl;
    [reflexivity|].
  assert (E : VenueId_eqb (vc_venue c) (fst cand) = false).
  { apply VenueId_eqb_neq. intros Heq. apply Hnotin. simpl. now left. }
  unfold touch at 2. rewrite E. apply IH.
  intros Hin. apply Hnotin. simpl. now right.
Qed.

Lemma survivors_cons inp inputs :
  survivors now market_type (inp :: inputs)
  = (if survives now market_type inp then entry inp else [])
    ++ survivors now market_type inputs.
Proof.
  unfold survivors. simpl.
  destruct (survives now market_type inp); reflexivity.
Qed.

Lemma survivors_app l1 l2 :
  survivors now market_type (l1 ++ l2)
  = survivors now market_type l1 ++ survivors now market_type l2.
Proof.
  unfold survivors. now rewrite filter_app, flat_map_app.
Qed.

Lemma survivors_venues (inputs : list VenuePriceInput) (v : VenueId) :
  In v (map fst (survivors now market_type inputs)) ->
  In v (map vpi_venue inputs).
Proof.
  induction inputs as [|inp inputs IH]; simpl; [tauto|].
  rewrite survivors_cons, map_app, in_app_iff.
  intros [H | H]; [left | right; now apply IH].
  destruct (survives now market_type inp); [|contradiction].
  unfold entry in H. destruct (vpi_price inp); simpl in H; [|contradiction].
  tauto.
Qed.

(** The record of an input, once every candidate has been processed. *)
Lemma fold_touch_own (l1 l2 : list VenuePriceInput) (inp : VenuePriceInput) :
  NoDup (map vpi_venue (l1 ++ inp :: l2)) ->
  fold_left (touch median) (survivors now market_type (l1 ++ inp :: l2))
            (fst (classify now market_type inp))
  = expected_contribution now market_type median inp.
Proof.
  intros Hnd.
  rewrite map_app in Hnd. simpl in Hnd.
  pose proof (NoDup_remove_2 _ _ _ Hnd) as Hnotin.
  rewrite in_app_iff in Hnotin.
  rewrite survivors_app, (survivors_cons inp l2), !fold_left_app.
  rewrite (fold_touch_other (survivors now market_type l1)).
  2:{ rewrite classify_venue. intros H. apply Hnotin. left.
      now apply survivors_venues. }
  rewrite fold_touch_other.
  2:{ rewrite fold_touch_venue, classify_venue. intros H. apply Hnotin. right.
      now apply survivors_venues. }
  unfold expected_contribution.
  pose proof (classify_survives now market_type inp) as Hs.
  pose proof (classify_venue now market_type inp) as Hv.
  destruct (classify now market_type inp) as [c o]. simpl in *. subst o.
  destruct (survives now market_type inp); [|reflexivity].
  unfold entry. destruct (vpi_price inp) as [p|]; simpl; [|reflexivity].
  unfold touch. simpl. now rewrite Hv, VenueId_eqb_refl.
Qed.





End Records.

Section Results.
Import Constants OutlierFilter Spec.

Variables (now : Z) (market_type : MarketType).

Lemma phase3_prices (inputs : list VenuePriceInput) :
  p3_included_prices (phase3 inputs now market_type)
  = within_threshold (reference_median inputs now market_type)
      (map snd (survivors now market_type inputs)).
Proof.
  unfold phase3, reference_median.
  rewrite <- candidates_survivors. unfold candidates.
  destruct (phase1 now market_type inputs) as [cs cands]. simpl.
  now rewrite phase3_loop_prices.
Qed.

(** With pairwise distinct venues every input ends with the record its
    own checks call for. *)
Lemma phase3_contributions_distinct (inputs : list VenuePriceInput) :
  NoDup (map vpi_venue inputs) ->
  p3_contributions (phase3 inputs now market_type)
  = map (expected_contribution now market_type
           (reference_median inputs now market_type)) inputs.
Proof.
  intros Hnd.
  unfold phase3, reference_median.
  pose proof (candidates_survivors now market_type inputs) as Hc.
  pose proof (phase1_contributions now market_type inputs) as Hf.
  unfold candidates in *.
  destruct (phase1 now market_type inputs) as [cs cands]. simpl in *.
  subst cs cands.
  rewrite phase3_loop_contributions. simpl.
  rewrite loop_map.
  2:{ rewrite map_map. erewrite map_ext; [exact Hnd|].
      intros inp. apply classify_venue. }
  rewrite map_map. apply map_ext_in.
  intros inp Hin.
  destruct (in_split _ _ Hin) as (l1 & l2 & ->).
  now apply fold_touch_own.
Qed.

End Results.

(* ------------------------------------------------------------------ *)
(** ** [filter_outliers]: exclusion order, quorum *)

Section FilterOutliers.
Import Constants OutlierFilter Spec.

Lemma expected_contribution_reason now market_type median inp :
  vc_exclude_reason (expected_contribution now market_type median inp)
  = exclusion now market_type median inp.
Proof.
  unfold expected_contribution, exclusion, classify, verdict, is_outlier.
  destruct (vpi_is_connected inp); simpl; [|reflexivity].
  destruct (vpi_price inp) as [p|]; [|reflexivity].
  destruct (vpi_last_update_ms inp) as [last|]; [|reflexivity].
  destruct (get_stale_threshold (vpi_venue inp) market_type <? now - last);
    [reflexivity|].
  destruct median as [m|]; [|reflexivity].
  destruct (PrimFloat.ltb OUTLIER_THRESHOLD_BPS (calculate_deviation_bps p m));
    reflexivity.
Qed.

Lemma expected_contribution_included now market_type median inp :
  vc_included (expected_contribution now market_type median inp)
  = is_none (exclusion now market_type median inp).
Proof.
  unfold expected_contribution, exclusion, classify, verdict, is_outlier.
  destruct (vpi_is_connected inp); simpl; [|reflexivity].
  destruct (vpi_price inp) as [p|]; [|reflexivity].
  destruct (vpi_last_update_ms inp) as [last|]; [|reflexivity].
  destruct (get_stale_threshold (vpi_venue inp) market_type <? now - last);
    [reflexivity|].
  destruct median as [m|]; [|reflexivity].
  destruct (PrimFloat.ltb OUTLIER_THRESHOLD_BPS (calculate_deviation_bps p m));
    reflexivity.
Qed.

Lemma expected_contribution_venue now market_type median inp :
  vc_venue (expected_contribution now market_type median inp) = vpi_venue inp.
Proof.
  unfold expected_contribution.
  pose proof (classify_venue now market_type inp) as Hv.
  destruct (classify now market_type inp) as [c [[v p]|]]; simpl in *;
    [|assumption].
  now rewrite verdict_venue.
Qed.

Lemma filter_outliers_included_count inputs now market_type :
  cr_included_count (filter_outliers inputs now market_type)
  = List.length (within_threshold (reference_median inputs now market_type)
                   (map snd (survivors now market_type inputs))).
Proof. unfold filter_outliers. simpl. now rewrite phase3_prices. Qed.

Lemma filter_outliers_price inputs now market_type :
  cr_price (filter_outliers inputs now market_type)
  = let kept := within_threshold (reference_median inputs now market_type)
                  (map snd (survivors now market_type inputs)) in
    if Nat.ltb (List.length kept) 2 then None else calculate_median kept.
Proof.
  unfold filter_outliers. simpl. rewrite phase3_prices.
  destruct (Nat.ltb _ 2); reflexivity.
Qed.

Lemma filter_outliers_price_absent inputs now market_type :
  cr_price (filter_outliers inputs now market_type) = None
  <-> cr_is_gap (filter_outliers inputs now market_type) = true.
Proof.
  unfold filter_outliers. simpl.
  set (prices := p3_included_prices (phase3 inputs now market_type)).
  destruct (Nat.ltb (List.length prices) 2) eqn:E; simpl; [tauto|].
  split; [|discriminate].
  rewrite calculate_median_None. intros ->. simpl in E. discriminate.
Qed.

Lemma reference_median_survivors inputs now market_type :
  reference_median inputs now market_type
  = calculate_median (map snd (survivors now market_type inputs)).
Proof. unfold reference_median. now rewrite candidates_survivors. Qed.

End FilterOutliers.

Section OutlierRecords.
Import Constants OutlierFilter Spec.

Lemma classify_not_outlier now market_type inp :
  vc_exclude_reason (fst (classify now market_type inp)) <> Some OUTLIER.
Proof.
  unfold classify.
  destruct (vpi_is_connected inp); simpl; [|discriminate].
  destruct (vpi_price inp) as [p|]; [|discriminate].
  destruct (vpi_last_update_ms inp) as [last|]; [|discriminate].
  destruct (get_stale_threshold (vpi_venue inp) market_type <? now - last);
    discriminate.
Qed.

Lemma phase3_contributions_fold inputs now market_type :
  p3_contributions (phase3 inputs now market_type)
  = fold_left
      (fun cs cand =>
         update_first (fst cand)
           (verdict (reference_median inputs now market_type) (snd cand)) cs)
      (candidates inputs now market_type)
      (map (fun inp => fst (classify now market_type inp)) inputs).
Proof.
  unfold phase3, reference_median, candidates.
  rewrite <- phase1_contributions.
  destruct (phase1 now market_type inputs) as [cs cands]. simpl.
  apply phase3_loop_contributions.
Qed.



End OutlierRecords.

Section ExclusionOrder.
Import Constants OutlierFilter Spec.



(** C3.  With [included] the number of venues that survive every
    exclusion: [is_gap] holds exactly when [included < 2], the price is
    absent exactly when [is_gap] holds, and [degraded] holds exactly when
    [included < 3] or [is_gap] holds. *)
Theorem filter_outliers_quorum :
  forall (inputs : list VenuePriceInput) (now : Z) (market_type : MarketType),
    let r := filter_outliers inputs now market_type in
    let included := cr_included_count r in
    min_quorum get_quorum_config = 2%nat
    /\ preferred_quorum get_quorum_config = 3%nat
    /\ included
       = List.length
           (within_threshold (reference_median inputs now market_type)
              (map snd (survivors now market_type inputs)))
    /\ (cr_is_gap r = true <-> (included < 2)%nat)
    /\ (cr_price r = None <-> cr_is_gap r = true)
    /\ (cr_degraded r = true <-> (included < 3)%nat \/ cr_is_gap r = true).
Proof.
  intros inputs now market_type r included.
  split; [reflexivity|]. split; [reflexivity|].
  split; [apply filter_outliers_included_count|].
  subst included r. unfold filter_outliers. simpl.
  set (prices := p3_included_prices (phase3 inputs now market_type)).
  split; [apply Nat.ltb_lt|]. split.
  - apply (filter_outliers_price_absent inputs now market_type).
  - rewrite orb_true_iff, !Nat.ltb_lt. tauto.
Qed.

End ExclusionOrder.

(* ------------------------------------------------------------------ *)
(** ** [BarBuilder.add_trade] and trades of an earlier minute *)

Section LateTrades.
Import Constants BarBuilder.

(** What [add_trade] does with a trade of an earlier minute than the
    current bar, the per-minute cap not being reached: no bar is completed,
    the history and the emitted bars are unchanged, and the trade is added to
    the current accumulator. *)
Lemma add_trade_earlier_minute (b : Builder) (acc : BarAccumulator) (t : Trade) :
  accumulator b = Some acc ->
  floor_to_minute (timestamp t) < acc_bar_time acc ->
  trade_count b < MAX_TRADE_BUFFER_SIZE ->
  add_trade b t
  = (mkBuilder (has_callback b) (Some (acc_add_trade acc t)) (completed_bars b)
               (trade_count b + 1) (Some (timestamp t)) (emitted b),
     None).
Proof.
  intros Hacc Hlate Hcap. unfold add_trade. rewrite Hacc.
  replace (acc_bar_time acc <? floor_to_minute (timestamp t)) with false
    by (symmetry; apply Z.ltb_ge; lia).
  replace (MAX_TRADE_BUFFER_SIZE <=? trade_count b) with false
    by (symmetry; apply Z.leb_gt; lia).
  reflexivity.
Qed.

(** C1.  [add_trade] at a trade of the minute before the current bar: the
    trade's minute is strictly less than the current bar's time, no bar is
    completed and the history stays empty, yet the accumulator takes the
    trade in: its low and close become 100, its volume 3 and its count 2. *)
Theorem add_trade_late_trade_absorbed :
  let b := Scenario.builder_now in
  let '(b', completed) := add_trade b Scenario.trade_late in
  option_map acc_bar_time (accumulator b) = Some 1704067260
  /\ floor_to_minute (timestamp Scenario.trade_late) = 1704067200
  /\ completed = None
  /\ completed_bars b' = completed_bars b
  /\ emitted b' = emitted b
  /\ option_map acc_ohlc (accumulator b)
     = Some (Some (mkOHLC 110%float 110%float 110%float 110%float))
  /\ option_map acc_ohlc (accumulator b')
     = Some (Some (mkOHLC 110%float 110%float 100%float 100%float))
  /\ option_map acc_volume (accumulator b) = Some 1%float
  /\ option_map acc_volume (accumulator b') = Some 3%float
  /\ option_map acc_trade_count (accumulator b) = Some 1
  /\ option_map acc_trade_count (accumulator b') = Some 2.
Proof. vm_compute. repeat split; reflexivity. Qed.

End LateTrades.

(* ------------------------------------------------------------------ *)
(** ** The realtime composite build *)

Section CompositeBuild.
Import Constants OutlierFilter Aggregator Spec.

(** C4.  [_build_composite] at two connected, fresh venues whose closes
    agree and whose opens are 3 % apart: the close result keeps both venues,
    so the bar is not a gap, while the open result rejects both opens as
    outliers and has no price; the bar has [is_gap = false] and no open. *)
Theorem build_composite_open_absent_without_gap :
  let c := fst (build_composite BTC SPOT 1704067200
                  Scenario.apart_bars Scenario.both_fresh) in
  cb_is_gap c = false
  /\ cb_open c = None
  /\ cb_high c = Some 102.5%float
  /\ cb_low c = Some 100.5%float
  /\ cb_close c = Some 101%float.
Proof. vm_compute. repeat split; reflexivity. Qed.

Lemma NoDup_map_In_eq {A B : Type} (f : A -> B) (l : list A) (a b : A) :
  NoDup (map f l) -> In a l -> In b l -> f a = f b -> a = b.
Proof.
  induction l as [|x l IH]; simpl; intros Hnd Ha Hb Hf; [contradiction|].
  inversion Hnd as [|? ? Hnotin Hnd']; subst.
  destruct Ha as [-> | Ha], Hb as [-> | Hb].
  - reflexivity.
  - exfalso. apply Hnotin. rewrite Hf. now apply in_map.
  - exfalso. apply Hnotin. rewrite <- Hf. now apply in_map.
  - now apply IH.
Qed.

(** With pairwise distinct venues, a venue is in the included set exactly
    when its own input met no exclusion. *)
Lemma in_included_set_exclusion (inputs : list VenuePriceInput) (now : Z)
    (market_type : MarketType) (inp : VenuePriceInput) :
  NoDup (map vpi_venue inputs) -> In inp inputs ->
  in_included_set (filter_outliers inputs now market_type) (vpi_venue inp)
  = is_none (exclusion now market_type (reference_median inputs now market_type) inp).
Proof.
  intros Hnd Hin. unfold in_included_set, filter_outliers. simpl.
  rewrite phase3_contributions_distinct by assumption.
  set (m := reference_median inputs now market_type).
  destruct (is_none (exclusion now market_type m inp)) eqn:E.
  - apply existsb_exists.
    exists (expected_contribution now market_type m inp). split.
    + now apply in_map.
    + rewrite expected_contribution_included, E, expected_contribution_venue.
      apply VenueId_eqb_refl.
  - apply not_true_is_false. intros H.
    apply existsb_exists in H. destruct H as (c & Hc & Hb).
    apply in_map_iff in Hc. destruct Hc as (inp' & <- & Hin').
    apply andb_true_iff in Hb. destruct Hb as [Hincl Hv].
    rewrite expected_contribution_venue in Hv. apply VenueId_eqb_eq in Hv.
    assert (inp' = inp) by (eapply NoDup_map_In_eq; eassumption). subst inp'.
    rewrite expected_contribution_included in Hincl. congruence.
Qed.

Lemma build_inputs_venues venue_bars venue_state getter :
  map vpi_venue (build_inputs venue_bars venue_state getter) = map fst venue_bars.
Proof.
  unfold build_inputs. rewrite map_map. apply map_ext.
  intros [venue bar]. simpl.
  destruct (dict_get venue_state venue) as [[c u]|]; destruct bar; reflexivity.
Qed.

Lemma sum_flow_flow_over close_result venue_bars :
  sum_flow close_result venue_bars
  = flow_over (in_included_set close_result) venue_bars.
Proof.
  unfold sum_flow, flow_over. generalize flow_zero.
  induction venue_bars as [|[venue bar] venue_bars IH]; intros f; simpl;
    [reflexivity|].
  rewrite IH. destruct bar as [b|]; simpl; [|reflexivity].
  destruct (in_included_set close_result venue); reflexivity.
Qed.

Lemma build_inputs_forget_close venue_bars venue_state :
  build_inputs (forget_ohl_all venue_bars) venue_state bar_close
  = build_inputs venue_bars venue_state bar_close.
Proof.
  unfold build_inputs, forget_ohl_all. rewrite map_map. apply map_ext.
  intros [venue bar]. simpl.
  destruct (dict_get venue_state venue) as [[c u]|]; destruct bar; reflexivity.
Qed.

Lemma flow_over_forget P venue_bars :
  flow_over P (forget_ohl_all venue_bars) = flow_over P venue_bars.
Proof.
  unfold flow_over, forget_ohl_all. generalize flow_zero.
  induction venue_bars as [|[venue bar] venue_bars IH]; intros f; simpl;
    [reflexivity|].
  destruct bar as [b|]; simpl; [|apply IH].
  destruct (P venue); simpl; [|apply IH].
  change (flow_add f (forget_ohl b)) with (flow_add f b). apply IH.
Qed.

Lemma filter_map_commute {A B : Type} (f : A -> B) (P : B -> bool) (l : list A) :
  List.filter P (map f l) = map f (List.filter (fun a => P (f a)) l).
Proof.
  induction l as [|a l IH]; simpl; [reflexivity|].
  destruct (P (f a)); simpl; now rewrite IH.
Qed.

Lemma flat_map_map {A B C : Type} (f : A -> B) (g : B -> list C) (l : list A) :
  flat_map g (map f l) = flat_map (fun a => g (f a)) l.
Proof.
  induction l as [|a l IH]; simpl; [reflexivity|]. now rewrite IH.
Qed.

(** C5, counterexample.  One venue is connected and has a bar, the two
    others are disconnected: the close contribution of that venue is marked
    included, the sums over the included venues are its own volume 5 and
    counts 2 and 1, yet the composite bar, being a gap, carries zeros. *)
Lemma build_composite_gap_flow_is_zero :
  let r := build_composite BTC SPOT 1704067200 Scenario.lone_bars Scenario.lone_state in
  let c := fst r in
  let F := flow_over (in_included_set (snd r)) Scenario.lone_bars in
  in_included_set (snd r) OKX = true
  /\ cb_is_gap c = true
  /\ ~ (cb_volume c = total_volume F
        /\ cb_buy_volume c = total_buy_volume F
        /\ cb_sell_volume c = total_sell_volume F
        /\ cb_buy_count c = total_buy_count F
        /\ cb_sell_count c = total_sell_count F).
Proof.
  vm_compute. split; [reflexivity|]. split; [reflexivity|].
  intros (_ & _ & _ & H & _). discriminate H.
Qed.

(** C5, amended.  The keys of the dictionary of venue bars being pairwise
    distinct: the close contribution of a venue is marked included exactly
    when its close input met no exclusion; when the close result is not a
    gap the five flow fields are the sums over exactly the venues so
    included, and when it is a gap they are zero; the included and excluded
    venues are those of the close result; and none of these changes when the
    open, high and low of every venue bar are erased. *)
Theorem build_composite_flow_follows_close :
  forall (asset : AssetId) (market_type : MarketType) (bar_time : Z)
         (venue_bars : VenueBars) (venue_state : VenueState),
    NoDup (map fst venue_bars) ->
    let now := bar_time * 1000 + BAR_INTERVAL_SECONDS * 1000 in
    let close_inputs := build_inputs venue_bars venue_state bar_close in
    let close_result := filter_outliers close_inputs now market_type in
    let median := reference_median close_inputs now market_type in
    let included := in_included_set close_result in
    let F := flow_over included venue_bars in
    let c := fst (build_composite asset market_type bar_time venue_bars venue_state) in
    let c' := fst (build_composite asset market_type bar_time
                     (forget_ohl_all venue_bars) venue_state) in
    snd (build_composite asset market_type bar_time venue_bars venue_state)
    = close_result
    /\ (forall inp, In inp close_inputs ->
          included (vpi_venue inp)
          = is_none (exclusion now market_type median inp))
    /\ cb_is_gap c = cr_is_gap close_result
    /\ (cb_is_gap c = false ->
          cb_volume c = total_volume F
          /\ cb_buy_volume c = total_buy_volume F
          /\ cb_sell_volume c = total_sell_volume F
          /\ cb_buy_count c = total_buy_count F
          /\ cb_sell_count c = total_sell_count F)
    /\ (cb_is_gap c = true ->
          cb_volume c = 0%float
          /\ cb_buy_volume c = 0%float
          /\ cb_sell_volume c = 0%float
          /\ cb_buy_count c = 0
          /\ cb_sell_count c = 0)
    /\ cb_included_venues c
       = map (fun inp => venue_value (vpi_venue inp))
           (List.filter
              (fun inp => is_none (exclusion now market_type median inp))
              close_inputs)
    /\ cb_excluded_venues c
       = flat_map
           (fun inp =>
              match exclusion now market_type median inp with
              | Some reason => [mkExcludedVenue (venue_value (vpi_venue inp)) reason]
              | None => []
              end)
           close_inputs
    /\ (cb_is_gap c' = cb_is_gap c
        /\ cb_included_venues c' = cb_included_venues c
        /\ cb_excluded_venues c' = cb_excluded_venues c
        /\ cb_volume c' = cb_volume c
        /\ cb_buy_volume c' = cb_buy_volume c
        /\ cb_sell_volume c' = cb_sell_volume c
        /\ cb_buy_count c' = cb_buy_count c
        /\ cb_sell_count c' = cb_sell_count c).
Proof.
  intros asset market_type bar_time venue_bars venue_state Hkeys
         now close_inputs close_result median included F c c'.
  assert (Hnd : NoDup (map vpi_venue close_inputs)).
  { subst close_inputs. now rewrite build_inputs_venues. }
  assert (Hrec : cr_venues close_result
                 = map (expected_contribution now market_type median) close_inputs).
  { subst close_result. unfold filter_outliers. simpl.
    now apply phase3_contributions_distinct. }
  split; [reflexivity|].
  split.
  { intros inp Hin. subst included close_result median.
    now apply in_included_set_exclusion. }
  assert (Hc : c = build_composite_bar bar_time
                 (filter_outliers (build_inputs venue_bars venue_state bar_open)
                    now market_type)
                 (filter_outliers (build_inputs venue_bars venue_state bar_high)
                    now market_type)
                 (filter_outliers (build_inputs venue_bars venue_state bar_low)
                    now market_type)
                 close_result
                 (total_volume F) asset market_type
                 (total_buy_volume F) (total_sell_volume F)
                 (total_buy_count F) (total_sell_count F)).
  { subst c F included. unfold build_composite. cbn [fst].
    now rewrite sum_flow_flow_over. }
  assert (Hc' : c' = build_composite_bar bar_time
                 (filter_outliers
                    (build_inputs (forget_ohl_all venue_bars) venue_state bar_open)
                    now market_type)
                 (filter_outliers
                    (build_inputs (forget_ohl_all venue_bars) venue_state bar_high)
                    now market_type)
                 (filter_outliers
                    (build_inputs (forget_ohl_all venue_bars) venue_state bar_low)
                    now market_type)
                 close_result
                 (total_volume F) asset market_type
                 (total_buy_volume F) (total_sell_volume F)
                 (total_buy_count F) (total_sell_count F)).
  { subst c' F included close_result close_inputs. unfold build_composite.
    cbn [fst]. rewrite build_inputs_forget_close.
    now rewrite sum_flow_flow_over, flow_over_forget. }
  clearbody c c'. subst c c'. unfold build_composite_bar.
  cbn [cb_is_gap cb_volume cb_buy_volume cb_sell_volume cb_buy_count
       cb_sell_count cb_included_venues cb_excluded_venues].
  split; [reflexivity|].
  split.
  { intros Hgap. rewrite Hgap. repeat split. }
  split.
  { intros Hgap. rewrite Hgap. repeat split. }
  split.
  { rewrite Hrec, filter_map_commute, map_map.
    erewrite filter_ext.
    2:{ intros inp. apply expected_contribution_included. }
    apply map_ext. intros inp. now rewrite expected_contribution_venue. }
  split.
  { rewrite Hrec, flat_map_map. apply flat_map_ext. intros inp.
    now rewrite expected_contribution_reason, expected_contribution_venue. }
  repeat split.
Qed.

(** The two venues of [Scenario.apart_bars] are both included on the close:
    the volume is 5 + 7 and the buy count 2 + 3. *)
Lemma build_composite_flow_follows_close_witness :
  NoDup (map fst Scenario.apart_bars)
  /\ cb_volume (fst (build_composite BTC SPOT 1704067200
                       Scenario.apart_bars Scenario.both_fresh)) = 12%float
  /\ cb_buy_count (fst (build_composite BTC SPOT 1704067200
                          Scenario.apart_bars Scenario.both_fresh)) = 5.
Proof.
  assert (Hnd : NoDup (map fst Scenario.apart_bars)).
  { repeat constructor; simpl; intuition discriminate. }
  destruct (build_composite_flow_follows_close BTC SPOT 1704067200
              Scenario.apart_bars Scenario.both_fresh Hnd)
    as (_ & _ & _ & Hflow & _).
  destruct (Hflow eq_refl) as (Hv & _ & _ & Hb & _).
  split; [exact Hnd|]. split.
  - rewrite Hv. reflexivity.
  - rewrite Hb. reflexivity.
Defined.

(** What the test on [is_gap] does give: a gap bar has no price and no
    flow, and a bar that is not a gap has a close. *)
Lemma build_composite_gap_shape (asset : AssetId) (market_type : MarketType)
    (bar_time : Z) (venue_bars : VenueBars) (venue_state : VenueState) :
  let c := fst (build_composite asset market_type bar_time venue_bars venue_state) in
  (cb_is_gap c = true ->
     cb_open c = None /\ cb_high c = None /\ cb_low c = None /\ cb_close c = None
     /\ cb_volume c = 0%float /\ cb_buy_volume c = 0%float
     /\ cb_sell_volume c = 0%float /\ cb_buy_count c = 0 /\ cb_sell_count c = 0)
  /\ (cb_is_gap c = false -> cb_close c <> None).
Proof.
  cbv zeta. unfold build_composite. cbn [fst]. unfold build_composite_bar.
  cbn [cb_is_gap cb_open cb_high cb_low cb_close cb_volume cb_buy_volume
       cb_sell_volume cb_buy_count cb_sell_count].
  set (close_result := filter_outliers (build_inputs venue_bars venue_state bar_close) _ _).
  split; intros Hgap; rewrite Hgap; cbn [negb].
  - repeat split.
  - intros Hnone. subst close_result.
    apply filter_outliers_price_absent in Hnone. congruence.
Qed.

End CompositeBuild.

(* ------------------------------------------------------------------ *)
(** ** The composite upsert *)

Section Upsert.
Import stdpp.base stdpp.gmap stdpp.strings.
Import Repository.

Lemma insert_keeps_backfilled (table : Table) (bar : CompositeBar) (k : Key)
    (stored : CompositeBar) :
  table !! k = Some stored ->
  cb_is_backfilled stored = true ->
  exists stored',
    fst (insert table bar) !! k = Some stored' /\ cb_is_backfilled stored' = true.
Proof.
  intros Hk Hb. unfold insert.
  destruct (decide (key_of bar = k)) as [-> | Hne].
  - rewrite Hk. cbn [fst]. rewrite lookup_insert_eq. eexists.
    split; [reflexivity|].
    unfold merged_is_backfilled. simpl. now rewrite Hb.
  - destruct (table !! key_of bar); cbn [fst];
      rewrite lookup_insert_ne by assumption; eauto.
Qed.

(** C7.  Whatever bars are upserted, in whatever order and under whatever
    keys, a stored row whose [is_backfilled] is true keeps a row with
    [is_backfilled] true; in particular upserting a bar with
    [is_backfilled = false] over it leaves the flag true; and an upsert that
    turns a stored [is_gap = true] row into an [is_gap = false] row stores
    [is_backfilled = true]. *)
Theorem insert_is_backfilled_monotone :
  (forall (bars : list CompositeBar) (table : Table) (k : Key) (stored : CompositeBar),
      table !! k = Some stored ->
      cb_is_backfilled stored = true ->
      exists stored',
        insert_all table bars !! k = Some stored'
        /\ cb_is_backfilled stored' = true)
  /\ (forall (table : Table) (bar stored : CompositeBar),
        table !! key_of bar = Some stored ->
        cb_is_backfilled stored = true ->
        cb_is_backfilled bar = false ->
        exists stored',
          fst (insert table bar) !! key_of bar = Some stored'
          /\ cb_is_backfilled stored' = true)
  /\ (forall (table : Table) (bar stored : CompositeBar),
        table !! key_of bar = Some stored ->
        cb_is_gap stored = true ->
        cb_is_gap bar = false ->
        exists stored',
          fst (insert table bar) !! key_of bar = Some stored'
          /\ cb_is_gap stored' = false
          /\ cb_is_backfilled stored' = true).
Proof.
  split; [|split].
  - induction bars as [|bar bars IH]; intros table k stored Hk Hb; simpl.
    + eauto.
    + destruct (insert_keeps_backfilled table bar k stored Hk Hb)
        as (stored' & Hk' & Hb').
      exact (IH _ _ _ Hk' Hb').
  - intros table bar stored Hk Hb _.
    now apply insert_keeps_backfilled with stored.
  - intros table bar stored Hk Hgap Hbar. unfold insert. rewrite Hk. cbn [fst].
    rewrite lookup_insert_eq. eexists. split; [reflexivity|].
    split; [exact Hbar|].
    unfold merged_is_backfilled. simpl. rewrite Hgap, Hbar.
    now destruct (cb_is_backfilled stored).
Qed.

(** The realtime bar of [Scenario.live_row], which carries
    [is_backfilled = false], upserted over the stored gap row. *)
Lemma insert_is_backfilled_monotone_witness :
  exists stored',
    fst (insert (<[key_of Scenario.gap_row := Scenario.gap_row]> ∅) Scenario.live_row)
      !! key_of Scenario.live_row = Some stored'
    /\ cb_is_gap stored' = false
    /\ cb_is_backfilled stored' = true.
Proof.
  destruct insert_is_backfilled_monotone as (_ & _ & H).
  apply (H _ Scenario.live_row Scenario.gap_row);
    [apply lookup_insert_eq | reflexivity | reflexivity].
Defined.

End Upsert.

(* ------------------------------------------------------------------ *)
(** ** The backfill composite *)

Section BackfillComposite.
Import Constants OutlierFilter Backfill Spec.

Lemma bf_median_middle (values : list float) :
  values <> [] -> bf_median values = middle values.
Proof.
  intros Hne. unfold bf_median, middle.
  destruct values as [|v values]; [congruence|].
  set (n := List.length (v :: values)).
  replace (Nat.eqb n 0) with false by reflexivity.
  rewrite <- Nat.bit0_mod, Nat.bit0_odd.
  destruct (Nat.odd n); reflexivity.
Qed.

Lemma sorted_nil_iff (l : list float) : sorted l = [] <-> l = [].
Proof.
  split; [|now intros ->].
  intros H. apply (f_equal (@List.length float)) in H.
  rewrite sorted_length in H. now destruct l.
Qed.

Lemma bf_median_sorted (values : list float) :
  values <> [] -> Some (bf_median (sorted values)) = calculate_median values.
Proof.
  intros Hne. rewrite bf_median_middle.
  - now rewrite calculate_median_is_Some.
  - now rewrite sorted_nil_iff.
Qed.

Lemma filter_all {A : Type} (f : A -> bool) (l : list A) :
  (forall x, In x l -> f x = true) -> List.filter f l = l.
Proof.
  induction l as [|a l IH]; simpl; intros H; [reflexivity|].
  rewrite (H a) by now left. f_equal. apply IH. intros x Hx. apply H. now right.
Qed.

Lemma stale_threshold_nonneg venue market_type :
  (get_stale_threshold venue market_type <? 0) = false.
Proof. destruct venue, market_type; reflexivity. Qed.

Lemma survivors_fresh_inputs venue_bars getter now market_type :
  map snd (survivors now market_type (fresh_inputs venue_bars getter now))
  = component venue_bars getter.
Proof.
  unfold survivors, fresh_inputs, component.
  induction venue_bars as [|[venue bar] venue_bars IH]; simpl; [reflexivity|].
  unfold survives at 1. simpl.
  rewrite Z.sub_diag, stale_threshold_nonneg. simpl. now rewrite IH.
Qed.

(** The filter and the plain median agree on a component of at least two
    venues none of which is beyond the threshold. *)
Lemma filtered_component_plain venue_bars getter now market_type :
  (2 <= List.length venue_bars)%nat ->
  (forall p, In p (component venue_bars getter) ->
     is_outlier (calculate_median (component venue_bars getter)) p = false) ->
  filtered_component venue_bars getter now market_type
  = calculate_median (component venue_bars getter).
Proof.
  intros Hlen Hin. unfold filtered_component.
  rewrite filter_outliers_price, reference_median_survivors,
    survivors_fresh_inputs.
  cbv zeta. unfold within_threshold. rewrite filter_all.
  - unfold component. rewrite length_map.
    replace (Nat.ltb (List.length venue_bars) 2) with false; [reflexivity|].
    symmetry. apply Nat.ltb_ge. exact Hlen.
  - intros p Hp. now rewrite Hin.
Qed.

(** C6, counterexample.  Three venue bars with opens 94 000, 94 100 and
    95 100: the third deviates by 106 bps from the median 94 100 of the
    three.  The filter of section 4.4 excludes it and gives 94 050; the
    backfill composite keeps it and gives 94 100. *)
Lemma backfill_composite_keeps_outlier :
  is_outlier (calculate_median (component Scenario.backfill_bars bar_open))
             95100%float = true
  /\ filtered_component Scenario.backfill_bars bar_open 1704067260000 SPOT
     = Some 94050%float
  /\ option_map cb_open
       (build_composite_from_venue_bars Scenario.backfill_bars 1704067200 BTC SPOT)
     = Some (Some 94100%float)
  /\ option_map cb_open
       (build_composite_from_venue_bars Scenario.backfill_bars 1704067200 BTC SPOT)
     <> Some (filtered_component Scenario.backfill_bars bar_open 1704067260000 SPOT).
Proof.
  split; [reflexivity|]. split; [reflexivity|]. split; [reflexivity|].
  intros H.
  apply (f_equal (fun o => match o with
                           | Some (Some x) => PrimFloat.eqb x 94100%float
                           | _ => false
                           end)) in H.
  vm_compute in H. discriminate H.
Qed.

(** C6, amended.  For every non-empty set of venue bars the backfill
    composite exists and each of its open, high, low and close is the plain
    median of that component over all the venue bars, nothing being
    excluded; it is the price the filter of section 4.4 gives for that
    component whenever at least two venues have bars and no price of the
    component deviates from the component's median by more than 100 bps. *)
Theorem backfill_composite_plain_median :
  forall (venue_bars : list (VenueId * Bar)) (minute : Z) (asset : AssetId)
         (market_type : MarketType),
    venue_bars <> [] ->
    exists c,
      build_composite_from_venue_bars venue_bars minute asset market_type = Some c
      /\ cb_open c = calculate_median (component venue_bars bar_open)
      /\ cb_high c = calculate_median (component venue_bars bar_high)
      /\ cb_low c = calculate_median (component venue_bars bar_low)
      /\ cb_close c = calculate_median (component venue_bars bar_close)
      /\ (forall (getter : Bar -> float) (now : Z),
            (2 <= List.length venue_bars)%nat ->
            (forall p, In p (component venue_bars getter) ->
               is_outlier (calculate_median (component venue_bars getter)) p = false) ->
            filtered_component venue_bars getter now market_type
            = calculate_median (component venue_bars getter)).
Proof.
  intros venue_bars minute asset market_type Hne.
  unfold build_composite_from_venue_bars.
  destruct venue_bars as [|vb venue_bars]; [congruence|].
  eexists. split; [reflexivity|].
  cbn [cb_open cb_high cb_low cb_close].
  assert (Hc : forall getter,
             component (vb :: venue_bars) getter <> []) by (intros g; discriminate).
  rewrite !map_map.
  repeat split; try (apply (bf_median_sorted _ (Hc _))).
  intros getter now. apply filtered_component_plain.
Qed.

(** Two venue bars with opens 94 000 and 94 100. *)
Lemma backfill_composite_plain_median_witness :
  Scenario.close_bars <> []
  /\ option_map cb_open
       (build_composite_from_venue_bars Scenario.close_bars 1704067200 BTC SPOT)
     = Some (Some 94050%float).
Proof.
  assert (Hne : Scenario.close_bars <> []) by discriminate.
  split; [exact Hne|].
  destruct (backfill_composite_plain_median Scenario.close_bars 1704067200 BTC SPOT Hne)
    as (c & -> & Hopen & _).
  simpl. rewrite Hopen. reflexivity.
Defined.

End BackfillComposite.

(* ------------------------------------------------------------------ *)
(** ** [filter_outliers] and the order of its inputs *)

Section InputOrder.
Import Constants OutlierFilter Spec.

Lemma survivors_flat_map now market_type inputs :
  survivors now market_type inputs
  = flat_map (fun inp => if survives now market_type inp then entry inp else [])
             inputs.
Proof.
  induction inputs as [|inp inputs IH]; [reflexivity|].
  rewrite survivors_cons, IH. reflexivity.
Qed.

Lemma survivors_Permutation now market_type inputs inputs' :
  Permutation inputs inputs' ->
  Permutation (survivors now market_type inputs) (survivors now market_type inputs').
Proof.
  intros Hp. rewrite !survivors_flat_map. now apply Permutation_flat_map.
Qed.

Lemma survivors_positive now market_type inputs :
  (forall inp p, In inp inputs -> vpi_price inp = Some p -> positive p) ->
  Forall positive (map snd (survivors now market_type inputs)).
Proof.
  intros Hpos. apply Forall_forall. intros p Hp.
  apply in_map_iff in Hp. destruct Hp as ([v q] & <- & Hin).
  unfold survivors in Hin. apply in_flat_map in Hin.
  destruct Hin as (inp & Hinp & Hentry).
  apply filter_In in Hinp. destruct Hinp as [Hinp _].
  unfold entry in Hentry. destruct (vpi_price inp) as [q'|] eqn:E;
    simpl in Hentry; [|contradiction].
  destruct Hentry as [Heq | []]. inversion Heq; subst.
  now apply (Hpos inp).
Qed.

Lemma Permutation_filter_bool {A : Type} (f : A -> bool) (l l' : list A) :
  Permutation l l' -> Permutation (List.filter f l) (List.filter f l').
Proof.
  induction 1 as [|x l l' Hp IH|x y l|l l' l'' Hp1 IH1 Hp2 IH2]; simpl.
  - constructor.
  - destruct (f x); [now constructor | assumption].
  - destruct (f x), (f y); try reflexivity. apply perm_swap.
  - now transitivity (List.filter f l').
Qed.

Lemma existsb_Permutation {A : Type} (f : A -> bool) (l l' : list A) :
  Permutation l l' -> existsb f l = existsb f l'.
Proof.
  induction 1 as [|x l l' Hp IH|x y l|l l' l'' Hp1 IH1 Hp2 IH2]; simpl.
  - reflexivity.
  - now rewrite IH.
  - destruct (f x), (f y); reflexivity.
  - congruence.
Qed.

Lemma derive_degraded_reason_Permutation degraded is_gap n cs cs' :
  Permutation cs cs' ->
  derive_degraded_reason degraded is_gap n cs
  = derive_degraded_reason degraded is_gap n cs'.
Proof.
  intros Hp. unfold derive_degraded_reason, has_reason.
  now rewrite !(existsb_Permutation _ cs cs' Hp).
Qed.

Lemma Forall_filter_bool {A : Type} (P : A -> Prop) (f : A -> bool) (l : list A) :
  Forall P l -> Forall P (List.filter f l).
Proof.
  intros H. apply Forall_forall. intros x Hx. apply filter_In in Hx.
  rewrite Forall_forall in H. now apply H.
Qed.

(** C9, counterexample.  The venue BINANCE appears twice, once stale and
    once fresh with a price beyond the threshold.  With the stale input
    first, the OUTLIER verdict lands on the stale record and the reason is
    VENUE_OUTLIER; with the fresh input first the stale record keeps STALE
    and the reason is VENUE_STALE. *)
Lemma filter_outliers_order_matters_for_repeated_venue :
  Permutation Scenario.twice_stale_first Scenario.twice_fresh_first
  /\ cr_degraded_reason (filter_outliers Scenario.twice_stale_first 15000 SPOT)
     = VENUE_OUTLIER
  /\ cr_degraded_reason (filter_outliers Scenario.twice_fresh_first 15000 SPOT)
     = VENUE_STALE
  /\ map vc_exclude_reason
       (cr_venues (filter_outliers Scenario.twice_stale_first 15000 SPOT))
     = [Some OUTLIER; None; None; None]
  /\ map vc_exclude_reason
       (cr_venues (filter_outliers Scenario.twice_fresh_first 15000 SPOT))
     = [Some OUTLIER; Some STALE; None; None]
  /\ cr_degraded_reason (filter_outliers Scenario.twice_stale_first 15000 SPOT)
     <> cr_degraded_reason (filter_outliers Scenario.twice_fresh_first 15000 SPOT).
Proof.
  split; [apply perm_swap|].
  repeat split; try reflexivity.
  vm_compute. discriminate.
Qed.

(** C9, amended.  For every list of inputs whose venues are pairwise
    distinct and whose prices are positive, and every permutation of it,
    [filter_outliers] returns the same price, counts, flags and degraded
    reason, and contribution records that are the same up to reordering. *)
Theorem filter_outliers_permutation_invariant :
  forall (inputs inputs' : list VenuePriceInput) (now : Z) (market_type : MarketType),
    NoDup (map vpi_venue inputs) ->
    (forall inp p, In inp inputs -> vpi_price inp = Some p -> positive p) ->
    Permutation inputs inputs' ->
    let r := filter_outliers inputs now market_type in
    let r' := filter_outliers inputs' now market_type in
    cr_price r' = cr_price r
    /\ cr_included_count r' = cr_included_count r
    /\ cr_total_count r' = cr_total_count r
    /\ cr_degraded r' = cr_degraded r
    /\ cr_degraded_reason r' = cr_degraded_reason r
    /\ cr_is_gap r' = cr_is_gap r
    /\ Permutation (cr_venues r) (cr_venues r').
Proof.
  intros inputs inputs' now market_type Hnd Hpos Hperm r r'.
  assert (Hnd' : NoDup (map vpi_venue inputs')).
  { eapply Permutation_NoDup; [|exact Hnd]. now apply Permutation_map. }
  pose proof (survivors_Permutation now market_type _ _ Hperm) as Hsurv.
  pose proof (Permutation_map snd Hsurv) as Hprices.
  pose proof (survivors_positive now market_type inputs Hpos) as Hposs.
  assert (Hmed : reference_median inputs' now market_type
                 = reference_median inputs now market_type).
  { rewrite !reference_median_survivors. symmetry.
    now apply calculate_median_Permutation. }
  set (m := reference_median inputs now market_type) in *.
  set (kept := within_threshold m (map snd (survivors now market_type inputs))).
  set (kept' := within_threshold m (map snd (survivors now market_type inputs'))).
  assert (Hkept : Permutation kept kept')
    by (apply Permutation_filter_bool; exact Hprices).
  assert (Hkpos : Forall positive kept)
    by (apply Forall_filter_bool; exact Hposs).
  assert (Hp3 : p3_included_prices (phase3 inputs now market_type) = kept)
    by apply phase3_prices.
  assert (Hp3' : p3_included_prices (phase3 inputs' now market_type) = kept').
  { rewrite phase3_prices. now rewrite Hmed. }
  assert (Hcs : p3_contributions (phase3 inputs now market_type)
                = map (expected_contribution now market_type m) inputs)
    by now apply phase3_contributions_distinct.
  assert (Hcs' : p3_contributions (phase3 inputs' now market_type)
                 = map (expected_contribution now market_type m) inputs').
  { rewrite phase3_contributions_distinct by assumption. now rewrite Hmed. }
  assert (Hcperm : Permutation (p3_contributions (phase3 inputs now market_type))
                     (p3_contributions (phase3 inputs' now market_type))).
  { rewrite Hcs, Hcs'. now apply Permutation_map. }
  subst r r'. unfold filter_outliers.
  cbn [cr_price cr_included_count cr_total_count cr_degraded cr_degraded_reason
       cr_is_gap cr_venues].
  rewrite Hp3, Hp3'.
  rewrite <- (Permutation_length Hkept), <- (Permutation_length Hperm).
  rewrite <- (calculate_median_Permutation kept kept' Hkept Hkpos).
  repeat split; try reflexivity.
  - symmetry. now apply derive_degraded_reason_Permutation.
  - exact Hcperm.
Qed.

(** Three distinct venues in two orders give the same price. *)
Lemma filter_outliers_permutation_invariant_witness :
  cr_price (filter_outliers Scenario.three_venues_reordered 15000 SPOT)
  = cr_price (filter_outliers Scenario.three_venues 15000 SPOT)
  /\ cr_price (filter_outliers Scenario.three_venues 15000 SPOT) = Some 94125%float.
Proof.
  assert (Hnd : NoDup (map vpi_venue Scenario.three_venues)).
  { repeat constructor; simpl; intuition discriminate. }
  assert (Hpos : forall inp p, In inp Scenario.three_venues ->
                   vpi_price inp = Some p -> positive p).
  { intros inp p [<- | [<- | [<- | []]]] Hp; inversion Hp; reflexivity. }
  assert (Hperm : Permutation Scenario.three_venues Scenario.three_venues_reordered).
  { unfold Scenario.three_venues, Scenario.three_venues_reordered.
    apply Permutation_sym.
    apply (Permutation_cons_app [_; _] []). reflexivity. }
  destruct (filter_outliers_permutation_invariant _ _ 15000 SPOT Hnd Hpos Hperm)
    as (Hprice & _).
  split; [exact Hprice | reflexivity].
Defined.

End InputOrder.

(* ------------------------------------------------------------------ *)
(** ** Signs through binary64 rounding *)

Section Rounding.
Import Spec.

Variables prec emax : Z.

Lemma shr_1_nonneg mrs : 0 <= shr_m mrs -> 0 <= shr_m (shr_1 mrs).
Proof.
  destruct mrs as [m r s]. simpl.
  destruct m as [|[p|p|]|[p|p|]]; simpl; lia.
Qed.

Lemma iter_pos_shr_1_nonneg n mrs :
  0 <= shr_m mrs -> 0 <= shr_m (iter_pos shr_1 n mrs).
Proof.
  revert mrs. induction n as [n IH|n IH|]; intros mrs H; simpl.
  - apply IH, IH, shr_1_nonneg, H.
  - apply IH, IH, H.
  - apply shr_1_nonneg, H.
Qed.

Lemma shr_fexp_nonneg m e l :
  0 <= m -> 0 <= shr_m (fst (shr_fexp prec emax m e l)).
Proof.
  intros H. unfold shr_fexp, shr.
  assert (H0 : 0 <= shr_m (shr_record_of_loc m l)).
  { destruct l as [|[| |]]; exact H. }
  destruct (fexp prec emax (Zdigits2 m + e) - e); simpl; auto.
  now apply iter_pos_shr_1_nonneg.
Qed.

Lemma round_nearest_even_nonneg m l : 0 <= m -> 0 <= round_nearest_even m l.
Proof.
  intros H. unfold round_nearest_even.
  destruct l as [|[| |]]; try destruct (Z.even m); lia.
Qed.

(** Rounding a non-negative mantissa keeps the sign it is given and never
    yields a NaN. *)
Lemma binary_round_aux_signed sx mx ex lx :
  0 <= mx -> signed sx (binary_round_aux prec emax sx mx ex lx).
Proof.
  intros H. unfold binary_round_aux.
  pose proof (shr_fexp_nonneg mx ex lx H) as H1.
  destruct (shr_fexp prec emax mx ex lx) as [mrs' e']. simpl in H1.
  pose proof (shr_fexp_nonneg _ e' loc_Exact
                (round_nearest_even_nonneg _ (loc_of_shr_record mrs') H1)) as H2.
  destruct (shr_fexp prec emax _ e' loc_Exact) as [mrs'' e'']. simpl in H2.
  destruct (shr_m mrs'') as [|m|m].
  - constructor.
  - destruct (e'' <=? emax - prec); constructor.
  - lia.
Qed.

Lemma signed_number s x : signed s x -> is_number x.
Proof. intros []; discriminate. Qed.

Lemma binary_round_number sx mx ex : is_number (binary_round prec emax sx mx ex).
Proof.
  unfold binary_round.
  destruct (shl_align mx ex _) as [mz ez].
  eapply signed_number, binary_round_aux_signed. lia.
Qed.

Lemma binary_normalize_number m e sz : is_number (binary_normalize prec emax m e sz).
Proof.
  destruct m; simpl; [discriminate | apply binary_round_number ..].
Qed.

Lemma SFsub_number x y :
  finite_class x -> finite_class y -> is_number (SFsub prec emax x y).
Proof.
  destruct x as [sx|sx| |sx mx ex], y as [sy|sy| |sy my ey]; simpl;
    try contradiction; intros _ _; try discriminate.
  - destruct sx, sy; discriminate.
  - apply binary_normalize_number.
Qed.

Lemma SFdiv_number x sy my ey :
  is_number x -> is_number (SFdiv prec emax x (S754_finite sy my ey)).
Proof.
  destruct x as [sx|sx| |sx mx ex]; simpl; intros Hx; try discriminate;
    try congruence.
  unfold SFdiv_core_binary.
  set (s := _ - _ - _).
  set (m' := match s with Z0 => _ | Zpos _ => _ | Zneg _ => _ end).
  assert (Hm : 0 <= m').
  { subst m'. destruct s; try lia. apply Z.shiftl_nonneg. lia. }
  pose proof (Z.div_pos m' (Zpos my) Hm ltac:(lia)) as Hq.
  unfold Z.div in Hq.
  destruct (Z.div_eucl m' (Zpos my)) as [q r].
  eapply signed_number, binary_round_aux_signed. exact Hq.
Qed.

Lemma SFabs_signed x : is_number x -> signed false (SFabs x).
Proof. destruct x; simpl; intros H; try constructor. congruence. Qed.

Lemma SFmul_signed x m e :
  signed false x -> signed false (SFmul prec emax x (S754_finite false m e)).
Proof.
  intros []; simpl; try constructor.
  apply binary_round_aux_signed. lia.
Qed.

Lemma SFleb_zero_signed x : signed false x -> SFleb (S754_zero false) x = true.
Proof. intros []; reflexivity. Qed.

End Rounding.

Section FiniteFloats.
Import Spec.

Lemma is_finite_class (x : float) : is_finite x = true -> finite_class (Prim2SF x).
Proof.
  unfold is_finite, is_nan, is_infinity.
  rewrite !FloatAxioms.eqb_spec, FloatAxioms.abs_spec.
  destruct (Prim2SF x) as [s|[|]| |s m e]; intros H; simpl; trivial;
    vm_compute in H; discriminate H.
Qed.

Lemma nonzero_finite (x : float) :
  finite_class (Prim2SF x) -> PrimFloat.eqb x 0%float = false ->
  exists s m e, Prim2SF x = S754_finite s m e.
Proof.
  rewrite FloatAxioms.eqb_spec. destruct (Prim2SF x) as [s|s| |s m e]; simpl; try contradiction.
  - intros _ H. vm_compute in H. discriminate.
  - eauto.
Qed.

End FiniteFloats.

(* ------------------------------------------------------------------ *)
(** ** [calculate_deviation_bps] *)

Section Deviation.
Import Constants OutlierFilter Spec.

(** The guard on the median covers exactly the case in which the division
    would raise. *)
Lemma calculate_deviation_bps_total (p m : float) :
  calculate_deviation_bps_py p m = Some (calculate_deviation_bps p m).
Proof.
  unfold calculate_deviation_bps_py, calculate_deviation_bps, py_truediv.
  destruct (PrimFloat.eqb m 0%float); reflexivity.
Qed.

Lemma calculate_deviation_bps_zero_median (p m : float) :
  PrimFloat.eqb m 0%float = true -> calculate_deviation_bps p m = 0%float.
Proof. intros H. unfold calculate_deviation_bps. now rewrite H. Qed.

Lemma calculate_deviation_bps_nonneg (p m : float) :
  is_finite p = true -> is_finite m = true ->
  PrimFloat.leb 0%float (calculate_deviation_bps p m) = true.
Proof.
  intros Hp Hm. unfold calculate_deviation_bps.
  destruct (PrimFloat.eqb m 0%float) eqn:E; [reflexivity|].
  apply is_finite_class in Hp, Hm.
  destruct (nonzero_finite m Hm E) as (s & mm & e & HM).
  rewrite FloatAxioms.leb_spec, FloatAxioms.mul_spec, FloatAxioms.abs_spec,
    FloatAxioms.div_spec, FloatAxioms.sub_spec.
  change (Prim2SF 0%float) with (S754_zero false).
  let v := eval vm_compute in (Prim2SF 10000%float) in
  change (Prim2SF 10000%float) with v.
  apply SFleb_zero_signed.
  apply SFmul_signed, SFabs_signed.
  rewrite HM at 2. apply SFdiv_number.
  now apply SFsub_number.
Qed.

Lemma update_first_Forall (P : VenueContribution -> Prop) venue f cs :
  (forall c, P c -> P (f c)) -> Forall P cs -> Forall P (update_first venue f cs).
Proof.
  intros Hf. induction 1 as [|c cs Hc Hcs IH]; simpl; [constructor|].
  destruct (VenueId_eqb (vc_venue c) venue); constructor; auto.
Qed.

Lemma verdict_zero_median m p c :
  PrimFloat.eqb m 0%float = true ->
  vc_exclude_reason (verdict (Some m) p c) = vc_exclude_reason c.
Proof.
  intros H. unfold verdict.
  rewrite (calculate_deviation_bps_zero_median p m H). reflexivity.
Qed.

Lemma is_outlier_zero_median m p :
  PrimFloat.eqb m 0%float = true -> is_outlier (Some m) p = false.
Proof.
  intros H. unfold is_outlier.
  rewrite (calculate_deviation_bps_zero_median p m H). reflexivity.
Qed.

(** No record is marked OUTLIER when the reference median is zero. *)
Lemma zero_median_no_outlier inputs now market_type m :
  reference_median inputs now market_type = Some m ->
  PrimFloat.eqb m 0%float = true ->
  Forall (fun c => vc_exclude_reason c <> Some OUTLIER)
         (cr_venues (filter_outliers inputs now market_type)).
Proof.
  intros Hmed Hzero. unfold filter_outliers. cbn [cr_venues].
  rewrite phase3_contributions_fold, Hmed.
  assert (H0 : Forall (fun c => vc_exclude_reason c <> Some OUTLIER)
                 (map (fun inp => fst (classify now market_type inp)) inputs)).
  { apply Forall_forall. intros c Hc.
    apply in_map_iff in Hc. destruct Hc as (inp & <- & _).
    apply classify_not_outlier. }
  revert H0. generalize (map (fun inp => fst (classify now market_type inp)) inputs).
  induction (candidates inputs now market_type) as [|[venue p] cands IH];
    intros cs H0; simpl; [exact H0|].
  apply IH. apply update_first_Forall; [|exact H0].
  intros c Hc. now rewrite verdict_zero_median.
Qed.

(** C10, counterexample.  Both arguments are finite, yet the quotient
    [(2^1000 - 2^-20) / 2^-20] times 10 000 exceeds the largest binary64
    value: the result is [+infinity], which is not finite. *)
Lemma calculate_deviation_bps_overflow :
  is_finite 0x1p+1000%float = true
  /\ is_finite 0x1p-20%float = true
  /\ calculate_deviation_bps_py 0x1p+1000%float 0x1p-20%float = Some infinity
  /\ is_finite (calculate_deviation_bps 0x1p+1000%float 0x1p-20%float) = false.
Proof. repeat split; reflexivity. Qed.

(** C10, amended.  [calculate_deviation_bps] never raises; it returns 0
    when the median is zero, whatever the price; for finite arguments its
    result is non-negative (it is not a NaN; it is [+infinity] when the
    computation overflows); and when the reference median computed by
    [filter_outliers] is zero no venue is excluded as OUTLIER: every
    survivor is included. *)
Theorem calculate_deviation_bps_guarded :
  (forall p m : float,
      calculate_deviation_bps_py p m = Some (calculate_deviation_bps p m))
  /\ (forall p : float, calculate_deviation_bps p 0%float = 0%float)
  /\ (forall p m : float,
        is_finite p = true -> is_finite m = true ->
        PrimFloat.leb 0%float (calculate_deviation_bps p m) = true)
  /\ (forall (inputs : list VenuePriceInput) (now : Z) (market_type : MarketType)
             (m : float),
        reference_median inputs now market_type = Some m ->
        PrimFloat.eqb m 0%float = true ->
        Forall (fun c => vc_exclude_reason c <> Some OUTLIER)
               (cr_venues (filter_outliers inputs now market_type))
        /\ cr_included_count (filter_outliers inputs now market_type)
           = List.length (survivors now market_type inputs)).
Proof.
  split; [exact calculate_deviation_bps_total|].
  split; [intros p; reflexivity|].
  split; [exact calculate_deviation_bps_nonneg|].
  intros inputs now market_type m Hmed Hzero.
  split; [now apply zero_median_no_outlier with m|].
  rewrite filter_outliers_included_count, Hmed.
  unfold within_threshold. rewrite filter_all.
  - apply length_map.
  - intros p _. now rewrite is_outlier_zero_median.
Qed.

(** A price 106 bps above the median, and three venues quoting zero. *)
Lemma calculate_deviation_bps_guarded_witness :
  PrimFloat.leb 0%float (calculate_deviation_bps 95100%float 94100%float) = true
  /\ cr_included_count (filter_outliers Scenario.all_zero 15000 SPOT) = 3%nat.
Proof.
  destruct calculate_deviation_bps_guarded as (_ & _ & Hnonneg & Hzero).
  split.
  - apply Hnonneg; reflexivity.
  - destruct (Hzero Scenario.all_zero 15000 SPOT 0%float) as (_ & Hcount);
      [reflexivity | reflexivity |].
    rewrite Hcount. reflexivity.
Defined.

End Deviation.

(* ------------------------------------------------------------------ *)
(** ** [backfill_gaps] *)

Section BackfillGaps.
Import Constants Backfill.

Variable W : Type.
Variable env : Env W.
Variables (asset market_type : string).

(** An iteration of the venue loop never raises; when its attempt raises,
    the local variables are left as they were. *)
Lemma venue_step_ok (gap_time : Z) (acc : VenueLoop) (venue_str : string) (w : W) :
  exists acc' w',
    venue_step W env asset market_type gap_time acc venue_str w = (Ok acc', w')
    /\ (forall e w1,
          venue_attempt W env asset market_type gap_time venue_str w = (Raise e, w1) ->
          acc' = acc /\ w' = w1).
Proof.
  unfold venue_step, try_except, bind.
  destruct (venue_attempt W env asset market_type gap_time venue_str w)
    as [[[[venue_id bar]|]|e] w1]; simpl; eexists; eexists;
    (split; [reflexivity|]); intros e' w1' H; inversion H; subst; auto.
Qed.

Lemma venue_loop_ok (gap_time : Z) (venues : list string) (acc : VenueLoop) (w : W) :
  exists acc' w',
    fold_m (venue_step W env asset market_type gap_time) venues acc w = (Ok acc', w').
Proof.
  revert acc w. induction venues as [|v venues IH]; intros acc w; simpl.
  - unfold ret. eauto.
  - unfold bind.
    destruct (venue_step_ok gap_time acc v w) as (acc1 & w1 & -> & _).
    apply IH.
Qed.

(** Fewer than two venues with a bar: the minute is not repaired. *)
Lemma backfill_single_gap_below_quorum (gap_time : Z) (venues : list string)
    (w w' : W) (acc : VenueLoop) :
  fold_m (venue_step W env asset market_type gap_time) venues (mkVenueLoop [] []) w
  = (Ok acc, w') ->
  (List.length (valid_venue_bars acc) < 2)%nat ->
  backfill_single_gap W env asset market_type gap_time venues w = (Ok 0, w').
Proof.
  intros Hloop Hlt. unfold backfill_single_gap, bind. rewrite Hloop.
  replace (Nat.ltb (List.length (valid_venue_bars acc)) 2) with true
    by (symmetry; now apply Nat.ltb_lt).
  reflexivity.
Qed.

(** One gap minute: exactly one of the two counters goes up by one, and an
    exception of the minute is recorded with the minute's time. *)
Lemma process_gap_counts (venues : list string) (gap_time : Z) (st : St W) :
  exists st',
    process_gap W env asset market_type venues gap_time st = (Ok tt, st')
    /\ gaps_found (result W st') = gaps_found (result W st)
    /\ match backfill_single_gap W env asset market_type gap_time venues (world W st) with
       | (Ok n, w') =>
           world W st' = w'
           /\ errors (result W st') = errors (result W st)
           /\ if 0 <? n
              then bars_repaired (result W st') = bars_repaired (result W st) + 1
                   /\ bars_failed (result W st') = bars_failed (result W st)
                   /\ venue_bars_inserted (result W st')
                      = venue_bars_inserted (result W st) + n
              else bars_repaired (result W st') = bars_repaired (result W st)
                   /\ bars_failed (result W st') = bars_failed (result W st) + 1
                   /\ venue_bars_inserted (result W st')
                      = venue_bars_inserted (result W st)
       | (Raise e, w') =>
           world W st' = w'
           /\ errors (result W st')
              = errors (result W st)
                ++ [("Gap " ++ str_of_int gap_time ++ ": " ++ e)%string]
           /\ bars_repaired (result W st') = bars_repaired (result W st)
           /\ bars_failed (result W st') = bars_failed (result W st) + 1
           /\ venue_bars_inserted (result W st') = venue_bars_inserted (result W st)
       end.
Proof.
  unfold process_gap, try_except, bind, lift, update_result, modify.
  destruct (backfill_single_gap W env asset market_type gap_time venues (world W st))
    as [[n|e] w'].
  - destruct (0 <? n); simpl; eexists; repeat split.
  - simpl. eexists. repeat split.
Qed.

(** The loop over the gaps. *)
Lemma gap_loop_counts (venues : list string) (gaps : list Z) (st : St W) :
  exists st',
    for_each gaps (process_gap W env asset market_type venues) st = (Ok tt, st')
    /\ gaps_found (result W st') = gaps_found (result W st)
    /\ bars_repaired (result W st') + bars_failed (result W st')
       = bars_repaired (result W st) + bars_failed (result W st)
         + Z.of_nat (List.length gaps)
    /\ bars_repaired (result W st) <= bars_repaired (result W st')
    /\ Z.of_nat (List.length (errors (result W st')))
       - Z.of_nat (List.length (errors (result W st)))
       <= bars_failed (result W st') - bars_failed (result W st).
Proof.
  revert st. induction gaps as [|g gaps IH]; intros st.
  - simpl. unfold ret. eexists. repeat split; lia.
  - cbn [for_each]. unfold bind.
    destruct (process_gap_counts venues g st) as (st1 & -> & Hg & Hstep).
    destruct (IH st1) as (st2 & Hloop & Hg2 & Hsum & Hrep & Herr).
    exists st2. split; [exact Hloop|].
    destruct (backfill_single_gap W env asset market_type g venues (world W st))
      as [[n|e] w'].
    + destruct Hstep as (_ & He & Hn).
      rewrite He in Herr.
      destruct (0 <? n); destruct Hn as (Hr & Hf & _);
        rewrite Hr, Hf in *; cbn [List.length]; repeat split; lia.
    + destruct Hstep as (_ & He & Hr & Hf & _).
      rewrite He, length_app in Herr. cbn [List.length] in *.
      rewrite Hr, Hf in *. repeat split; lia.
Qed.

End BackfillGaps.

Section BackfillResult.
Import Constants Backfill.

(** C8, counterexample.  Every REST fetch of the only gap minute raises:
    the minute is counted as failed, and the list of errors of the result is
    empty. *)
Lemma backfill_gaps_venue_errors_not_recorded :
  fetch_trades_for_minute unit Scenario.rest_down
    "BTC"%string "spot"%string "binance"%string 1704067200 tt
  = (Raise "HTTP 500"%string, tt)
  /\ fetch_trades_for_minute unit Scenario.rest_down
       "BTC"%string "spot"%string "kraken"%string 1704067200 tt
     = (Raise "HTTP 500"%string, tt)
  /\ backfill_gaps unit Scenario.rest_down "BTC"%string "spot"%string 1704067200 1704067800
       (Some ["binance"%string; "kraken"%string]) tt
     = (Ok (mkBackfillResult "BTC"%string "spot"%string 1704067200 1704067800 1 0 1 0 []), tt).
Proof. repeat split; reflexivity. Qed.

(** C8, amended.  [backfill_gaps] always returns a result.  When the gap
    query succeeds (and, no venues being given, the market type is a valid
    one) every gap found is counted in exactly one of [bars_repaired] and
    [bars_failed], and there are no more error strings than failed bars.
    For each gap minute exactly one counter goes up by one; an exception
    that escapes the processing of the minute (a repository failure) is
    recorded as a string with the minute's time, and the loop goes on.  A
    minute for which fewer than two venues produced a bar is counted as
    failed.  An error of one venue (a REST fetch error, an unknown venue) is
    caught inside the venue loop: that venue is skipped, the other venues
    are still tried, and nothing is added to the list of errors. *)
Theorem backfill_gaps_counts :
  forall (W : Type) (env : Env W) (asset market_type : string),
    (forall start_time end_time venues w,
        exists r w',
          backfill_gaps W env asset market_type start_time end_time venues w
          = (Ok r, w'))
    /\ (forall start_time end_time venues w r w' gaps w1,
          backfill_gaps W env asset market_type start_time end_time venues w
          = (Ok r, w') ->
          get_gaps W env asset market_type start_time end_time w = (Ok gaps, w1) ->
          (venues = None -> parse_market (lower market_type) <> None) ->
          gaps_found r = Z.of_nat (List.length gaps)
          /\ bars_repaired r + bars_failed r = gaps_found r
          /\ 0 <= bars_repaired r
          /\ Z.of_nat (List.length (errors r)) <= bars_failed r)
    /\ (forall venues gap_time (st : St W),
          exists st',
            process_gap W env asset market_type venues gap_time st = (Ok tt, st')
            /\ match backfill_single_gap W env asset market_type gap_time venues
                       (world W st) with
               | (Ok n, w') =>
                   errors (result W st') = errors (result W st)
                   /\ if 0 <? n
                      then bars_repaired (result W st')
                           = bars_repaired (result W st) + 1
                           /\ bars_failed (result W st') = bars_failed (result W st)
                      else bars_repaired (result W st') = bars_repaired (result W st)
                           /\ bars_failed (result W st')
                              = bars_failed (result W st) + 1
               | (Raise e, w') =>
                   errors (result W st')
                   = errors (result W st)
                     ++ [("Gap " ++ str_of_int gap_time ++ ": " ++ e)%string]
                   /\ bars_repaired (result W st') = bars_repaired (result W st)
                   /\ bars_failed (result W st') = bars_failed (result W st) + 1
               end)
    /\ (forall gap_time venues w w' acc,
          fold_m (venue_step W env asset market_type gap_time) venues
                 (mkVenueLoop [] []) w = (Ok acc, w') ->
          (List.length (valid_venue_bars acc) < 2)%nat ->
          backfill_single_gap W env asset market_type gap_time venues w = (Ok 0, w'))
    /\ (forall gap_time acc venue_str w,
          exists acc' w',
            venue_step W env asset market_type gap_time acc venue_str w = (Ok acc', w')
            /\ (forall e w1,
                  venue_attempt W env asset market_type gap_time venue_str w
                  = (Raise e, w1) ->
                  acc' = acc /\ w' = w1)).
Proof.
  intros W env asset market_type.
  split.
  { intros start_time end_time venues w.
    unfold backfill_gaps, bind, try_except.
    destruct (backfill_gaps_body W env asset market_type start_time end_time venues _)
      as [[[]|e] st1]; simpl; eauto. }
  split.
  { intros start_time end_time venues w r w' gaps w1 Hrun Hgaps Hvalid.
    unfold backfill_gaps, bind, try_except, backfill_gaps_body in Hrun.
    unfold bind at 1 in Hrun. unfold lift at 1 in Hrun.
    cbn [world result] in Hrun. rewrite Hgaps in Hrun.
    unfold bind at 1 in Hrun. unfold update_result at 1, modify at 1 in Hrun.
    cbn [world result] in Hrun.
    destruct gaps as [|g gaps].
    - simpl in Hrun. inversion Hrun; subst. simpl. repeat split; lia.
    - set (st0 := mkSt W w1 _) in Hrun.
      assert (Hvs : exists vs,
                 (match venues with
                  | Some vs => ret vs
                  | None =>
                      bind (enum_of parse_market (lower market_type) "MarketType"%string)
                           (fun mt => ret (map venue_value (get_backfill_venues mt)))
                  end) st0 = (Ok vs, st0)).
      { destruct venues as [vs|]; [now exists vs|].
        unfold bind, enum_of.
        destruct (parse_market (lower market_type)) as [mt|] eqn:E;
          [|now destruct Hvalid].
        eexists. reflexivity. }
      destruct Hvs as (vs & Hvs).
      unfold bind at 1 in Hrun. rewrite Hvs in Hrun.
      destruct (gap_loop_counts W env asset market_type vs (g :: gaps) st0)
        as (st' & Hloop & Hfound & Hsum & Hrep & Herr).
      rewrite Hloop in Hrun. simpl in Hrun. inversion Hrun; subst r w'.
      subst st0. simpl in *. rewrite Hfound.
      repeat split; lia. }
  split.
  { intros venues gap_time st.
    destruct (process_gap_counts W env asset market_type venues gap_time st)
      as (st' & Hrun & _ & Hstep).
    exists st'. split; [exact Hrun|].
    destruct (backfill_single_gap W env asset market_type gap_time venues (world W st))
      as [[n|e] w'].
    - destruct Hstep as (_ & He & Hn). split; [exact He|].
      destruct (0 <? n); tauto.
    - tauto. }
  split.
  { intros gap_time venues w w' acc. apply backfill_single_gap_below_quorum. }
  intros gap_time acc venue_str w. apply venue_step_ok.
Qed.

(** Two venues return a trade and the composite insert fails: the minute
    is counted once, as failed, with its error string. *)
Lemma backfill_gaps_counts_witness :
  exists r,
    backfill_gaps unit Scenario.db_down "BTC"%string "spot"%string 1704067200 1704067800
      (Some ["binance"%string; "kraken"%string]) tt = (Ok r, tt)
    /\ bars_repaired r + bars_failed r = gaps_found r
    /\ errors r = ["Gap 1704067200: connection closed"%string].
Proof.
  eexists. split; [reflexivity|]. split; [|reflexivity].
  destruct (backfill_gaps_counts unit Scenario.db_down "BTC"%string "spot"%string) as (_ & H & _).
  refine (proj1 (proj2 (H 1704067200 1704067800 (Some ["binance"%string; "kraken"%string]) tt
                          _ tt [1704067200] tt _ _ _))).
  - reflexivity.
  - reflexivity.
  - discriminate.
Defined.

End BackfillResult.

(* ------------------------------------------------------------------ *)
(** ** Minutes *)

Section Minutes.
Import Constants BarBuilder.

(** The minute of a timestamp is a multiple of 60 seconds and contains the
    timestamp. *)
Lemma floor_to_minute_bounds (ts : Z) :
  floor_to_minute ts mod 60 = 0 /\
  floor_to_minute ts * 1000 <= ts < (floor_to_minute ts + 60) * 1000.
Proof.
  unfold floor_to_minute, BAR_INTERVAL_SECONDS.
  rewrite Z.div_div by lia. change (1000 * 60) with 60000.
  split.
  - apply Z.mod_mul. lia.
  - pose proof (Z.mul_div_le ts 60000 ltac:(lia)).
    pose proof (Z.mul_succ_div_gt ts 60000 ltac:(lia)). lia.
Qed.

(** X1.  [floor_to_minute] returns the one multiple of 60 seconds whose
    minute contains the timestamp: [floor_to_minute ts = m] exactly when
    [m] is a multiple of 60 and [m * 1000 <= ts < (m + 60) * 1000]. *)
Theorem floor_to_minute_characterised (ts m : Z) :
  floor_to_minute ts = m <->
  m mod 60 = 0 /\ m * 1000 <= ts < (m + 60) * 1000.
Proof.
  split.
  - intros <-. apply floor_to_minute_bounds.
  - intros [Hm [Hlo Hhi]].
    unfold floor_to_minute, BAR_INTERVAL_SECONDS.
    rewrite Z.div_div by lia. change (1000 * 60) with 60000.
    apply Z.mod_divide in Hm; [|lia]. destruct Hm as [k ->].
    assert (ts / 60000 = k); [|lia].
    symmetry. apply Z.div_unique with (r := ts - k * 60000); lia.
Qed.

Lemma floor_to_minute_monotone (a b : Z) :
  a <= b -> floor_to_minute a <= floor_to_minute b.
Proof.
  intros H. unfold floor_to_minute, BAR_INTERVAL_SECONDS.
  apply Z.mul_le_mono_nonneg_r; [lia|].
  apply Z.div_le_mono; [lia|]. apply Z.div_le_mono; lia.
Qed.

End Minutes.

(* ------------------------------------------------------------------ *)
(** ** The bar of a list of trades *)

Section Accumulator.
Import Constants BarBuilder BarSpec.

Lemma ltb_irrefl (x : float) : PrimFloat.ltb x x = false.
Proof.
  destruct (PrimFloat.ltb x x) eqn:H; [|reflexivity].
  pose proof (ltb_asym _ _ H). congruence.
Qed.

(** A running maximum kept with [if p > high: high = p]. *)
Lemma highest_of_snoc (prices : list float) (h p : float) :
  highest_of prices h ->
  highest_of (prices ++ [p]) (if PrimFloat.ltb h p then p else h).
Proof.
  intros [Hin Hall]. unfold highest_of.
  destruct (PrimFloat.ltb h p) eqn:Hhp; split.
  - apply in_or_app. right. now left.
  - apply Forall_app. split.
    + eapply Forall_impl; [|exact Hall]. unfold not_above. intros q Hq.
      destruct (PrimFloat.ltb p q) eqn:Hpq; [|reflexivity].
      rewrite (ltb_trans _ _ _ Hhp Hpq) in Hq. discriminate.
    + constructor; [apply ltb_irrefl | constructor].
  - apply in_or_app. now left.
  - apply Forall_app. split; [exact Hall|].
    constructor; [exact Hhp | constructor].
Qed.

(** A running minimum kept with [if p < low: low = p]. *)
Lemma lowest_of_snoc (prices : list float) (l p : float) :
  lowest_of prices l ->
  lowest_of (prices ++ [p]) (if PrimFloat.ltb p l then p else l).
Proof.
  intros [Hin Hall]. unfold lowest_of.
  destruct (PrimFloat.ltb p l) eqn:Hpl; split.
  - apply in_or_app. right. now left.
  - apply Forall_app. split.
    + eapply Forall_impl; [|exact Hall]. unfold not_above. intros q Hq.
      destruct (PrimFloat.ltb q p) eqn:Hqp; [|reflexivity].
      rewrite (ltb_trans _ _ _ Hqp Hpl) in Hq. discriminate.
    + constructor; [apply ltb_irrefl | constructor].
  - apply in_or_app. now left.
  - apply Forall_app. split; [exact Hall|].
    constructor; [exact Hpl | constructor].
Qed.

Lemma accumulate_snoc (minute : Z) (l : list Trade) (t : Trade) :
  accumulate minute (l ++ [t]) = acc_add_trade (accumulate minute l) t.
Proof. unfold accumulate. now rewrite fold_left_app. Qed.

Lemma running_sum_snoc (l : list float) (x : float) :
  running_sum (l ++ [x]) = PrimFloat.add (running_sum l) x.
Proof. unfold running_sum. now rewrite fold_left_app. Qed.

(** Prices and identity of the accumulator after at least one trade. *)
Lemma accumulate_ohlc (minute : Z) (first : Trade) (rest : list Trade) :
  let trades := first :: rest in
  let a := accumulate minute trades in
  exists c,
    acc_ohlc a = Some c /\
    o_open c = price first /\
    o_close c = price (last trades first) /\
    highest_of (map price trades) (o_high c) /\
    lowest_of (map price trades) (o_low c) /\
    acc_venue a = Some (trade_venue first) /\
    acc_asset a = Some (trade_asset first) /\
    acc_market_type a = Some (trade_market_type first).
Proof.
  induction rest as [|t rest IH] using rev_ind.
  - cbn. eexists. split; [reflexivity|]. cbn.
    repeat split; try (now left);
      constructor; try constructor; apply ltb_irrefl.
  - cbn zeta in *. destruct IH as (c & Hc & Ho & Hcl & Hh & Hl & Hv & Ha & Hm).
    rewrite app_comm_cons, accumulate_snoc.
    unfold acc_add_trade. rewrite Hc. cbn [acc_ohlc acc_venue acc_asset acc_market_type].
    eexists. split; [reflexivity|]. cbn [o_open o_high o_low o_close].
    rewrite last_last, map_app. cbn [map].
    repeat split; try assumption.
    + now apply highest_of_snoc.
    + now apply highest_of_snoc.
    + now apply lowest_of_snoc.
    + now apply lowest_of_snoc.
Qed.

(** Counters and sums of the accumulator. *)
Lemma accumulate_counts (minute : Z) (trades : list Trade) :
  let a := accumulate minute trades in
  acc_bar_time a = minute /\
  acc_trade_count a = Z.of_nat (List.length trades) /\
  acc_buy_count a = Z.of_nat (List.length (List.filter is_buy trades)) /\
  acc_sell_count a =
    Z.of_nat (List.length (List.filter (fun t => negb (is_buy t)) trades)) /\
  acc_volume a = running_sum (map quantity trades) /\
  acc_buy_volume a = running_sum (map quantity (List.filter is_buy trades)) /\
  acc_sell_volume a =
    running_sum (map quantity (List.filter (fun t => negb (is_buy t)) trades)).
Proof.
  induction trades as [|t trades IH] using rev_ind.
  - cbn. repeat split.
  - cbn zeta in *. destruct IH as (Ht & Hn & Hb & Hs & Hv & Hbv & Hsv).
    rewrite accumulate_snoc. unfold acc_add_trade, taker_side.
    rewrite !filter_app, !map_app, !length_app. cbn [List.filter map List.length].
    cbn [acc_bar_time acc_trade_count acc_buy_count acc_sell_count
         acc_volume acc_buy_volume acc_sell_volume].
    replace (is_buy t) with (negb (is_buyer_maker t)) by reflexivity.
    destruct (is_buyer_maker t); cbn [negb app map List.length];
      rewrite ?running_sum_snoc, ?app_nil_r, ?Hv, ?Hbv, ?Hsv;
      repeat split; try assumption; try reflexivity; lia.
Qed.

Lemma count_buy_sell (trades : list Trade) :
  (List.length (List.filter is_buy trades)
   + List.length (List.filter (fun t => negb (is_buy t)) trades))%nat
  = List.length trades.
Proof.
  induction trades as [|t trades IH]; [reflexivity|].
  cbn. destruct (is_buy t); cbn; lia.
Qed.

(** X2.  The bar that [to_bar] gives after the trades [first :: rest] were
    added to a fresh accumulator of [minute]: it exists, carries the minute
    and the venue, asset and market type of the first trade; its open is the
    first price and its close the last; its high (low) is the price of one
    of the trades and no trade has a greater (smaller) price, whatever the
    float values are; its counts are the numbers of trades, of taker buys
    and of taker sells, which add up; its volumes are the left-to-right sums
    of the quantities.  Without any trade there is no bar. *)
Theorem to_bar_of_accumulated_trades (minute : Z) (first : Trade)
    (rest : list Trade) (is_partial : bool) :
  let trades := first :: rest in
  to_bar (accumulate minute []) is_partial = None /\
  exists bar,
    to_bar (accumulate minute trades) is_partial = Some bar /\
    bar_time bar = minute /\
    bar_is_partial bar = is_partial /\
    bar_venue bar = trade_venue first /\
    bar_asset bar = trade_asset first /\
    bar_market_type bar = trade_market_type first /\
    bar_open bar = price first /\
    bar_close bar = price (last trades first) /\
    highest_of (map price trades) (bar_high bar) /\
    lowest_of (map price trades) (bar_low bar) /\
    bar_trade_count bar = Z.of_nat (List.length trades) /\
    bar_buy_count bar = Z.of_nat (List.length (List.filter is_buy trades)) /\
    bar_sell_count bar =
      Z.of_nat (List.length (List.filter (fun t => negb (is_buy t)) trades)) /\
    bar_buy_count bar + bar_sell_count bar = bar_trade_count bar /\
    bar_volume bar = running_sum (map quantity trades) /\
    bar_buy_volume bar = running_sum (map quantity (List.filter is_buy trades)) /\
    bar_sell_volume bar =
      running_sum (map quantity (List.filter (fun t => negb (is_buy t)) trades)).
Proof.
  intros trades. split; [reflexivity|].
  destruct (accumulate_ohlc minute first rest)
    as (c & Hc & Ho & Hcl & Hh & Hl & Hv & Ha & Hm).
  destruct (accumulate_counts minute trades)
    as (Ht & Hn & Hb & Hs & Hvol & Hbv & Hsv).
  fold trades in Hc, Hcl, Hh, Hl, Hv, Ha, Hm.
  unfold to_bar. rewrite Hc, Hv, Ha, Hm.
  eexists. split; [reflexivity|]. cbn [bar_time bar_is_partial bar_venue bar_asset
    bar_market_type bar_open bar_close bar_high bar_low bar_trade_count
    bar_buy_count bar_sell_count bar_volume bar_buy_volume bar_sell_volume].
  repeat match goal with |- _ /\ _ => split end; try assumption; try reflexivity.
  rewrite Hb, Hs, Hn, <- (count_buy_sell trades). lia.
Qed.

End Accumulator.

(* ------------------------------------------------------------------ *)
(** ** The state of a bar builder *)

Section BuilderState.
Import Constants BarBuilder BarQueries BarSpec.

Lemma feed_snoc (b : Builder) (trades : list Trade) (t : Trade) :
  feed b (trades ++ [t]) =
  (fst (add_trade (fst (feed b trades)) t),
   snd (feed b trades)
   ++ match snd (add_trade (fst (feed b trades)) t) with
      | Some bar => [bar]
      | None => []
      end).
Proof.
  unfold feed. rewrite fold_left_app. cbn [fold_left].
  now destruct (add_trade _ t).
Qed.

Lemma ohlc_consistent_first (p : float) : ohlc_consistent p p p p.
Proof. repeat split; apply ltb_irrefl. Qed.

Local Ltac float_order :=
  match goal with
  | |- PrimFloat.ltb ?a ?a = false => apply ltb_irrefl
  | |- PrimFloat.ltb ?a ?b = false =>
      let E := fresh "E" in
      destruct (PrimFloat.ltb a b) eqn:E; [exfalso|reflexivity];
      match goal with
      | H : PrimFloat.ltb ?x a = true, F : PrimFloat.ltb ?x b = false |- _ =>
          rewrite (ltb_trans _ _ _ H E) in F; discriminate
      | H : PrimFloat.ltb b ?y = true, F : PrimFloat.ltb a ?y = false |- _ =>
          rewrite (ltb_trans _ _ _ E H) in F; discriminate
      end
  end.

Lemma ohlc_consistent_next (o h l c p : float) :
  ohlc_consistent o h l c ->
  ohlc_consistent o (if PrimFloat.ltb h p then p else h)
                    (if PrimFloat.ltb p l then p else l) p.
Proof.
  unfold ohlc_consistent, not_above. intros (Hoh & Hch & Hlo & Hlc & Hlh).
  destruct (PrimFloat.ltb h p) eqn:Hhp, (PrimFloat.ltb p l) eqn:Hpl;
    repeat split; try assumption; float_order.
Qed.

Lemma StronglySorted_snoc {A : Type} (R : A -> A -> Prop) (l : list A) (y : A) :
  StronglySorted R l -> Forall (fun x => R x y) l -> StronglySorted R (l ++ [y]).
Proof.
  induction 1 as [|x l Hl IH Hx]; intros Hy; cbn.
  - constructor; constructor.
  - inversion Hy; subst. constructor; [now apply IH|].
    apply Forall_app. split; [assumption|]. now constructor.
Qed.

Lemma StronglySorted_skipn {A : Type} (R : A -> A -> Prop) (n : nat) (l : list A) :
  StronglySorted R l -> StronglySorted R (skipn n l).
Proof.
  revert l. induction n as [|n IH]; intros l Hl; [exact Hl|].
  destruct l as [|x l]; [constructor|]. cbn. apply IH. now inversion Hl.
Qed.

Lemma Forall_skipn_keep {A : Type} (P : A -> Prop) (n : nat) (l : list A) :
  Forall P l -> Forall P (skipn n l).
Proof.
  revert l. induction n as [|n IH]; intros l Hl; [exact Hl|].
  destruct l as [|x l]; [constructor|]. cbn. apply IH. now inversion Hl.
Qed.

Lemma deque_append_length (n : nat) (d : list Bar) (bar : Bar) :
  (List.length (deque_append n d bar) <= n)%nat.
Proof.
  unfold deque_append. rewrite length_skipn, length_app. cbn. lia.
Qed.

(** The first trade of a bar, added to an accumulator without prices. *)
Lemma acc_add_trade_first (a : BarAccumulator) (t : Trade) :
  acc_ohlc a = None ->
  acc_trade_count a = 0 -> acc_buy_count a = 0 -> acc_sell_count a = 0 ->
  let a' := acc_add_trade a t in
  acc_bar_time a' = acc_bar_time a /\
  acc_trade_count a' = 1 /\
  acc_buy_count a' + acc_sell_count a' = 1 /\
  (exists c, acc_ohlc a' = Some c /\
             ohlc_consistent (o_open c) (o_high c) (o_low c) (o_close c)) /\
  acc_venue a' <> None /\ acc_asset a' <> None /\ acc_market_type a' <> None.
Proof.
  intros Ho Hn Hb Hs. unfold acc_add_trade. rewrite Ho, Hn, Hb, Hs. cbn.
  split; [reflexivity|]. split; [reflexivity|].
  split; [destruct (taker_side t); reflexivity|].
  split; [|repeat split; discriminate].
  eexists. split; [reflexivity|]. apply ohlc_consistent_first.
Qed.

(** A further trade. *)
Lemma acc_add_trade_next (a : BarAccumulator) (t : Trade) :
  (exists c, acc_ohlc a = Some c /\
             ohlc_consistent (o_open c) (o_high c) (o_low c) (o_close c)) ->
  let a' := acc_add_trade a t in
  acc_bar_time a' = acc_bar_time a /\
  acc_trade_count a' = acc_trade_count a + 1 /\
  acc_buy_count a' + acc_sell_count a' = acc_buy_count a + acc_sell_count a + 1 /\
  (exists c, acc_ohlc a' = Some c /\
             ohlc_consistent (o_open c) (o_high c) (o_low c) (o_close c)) /\
  acc_venue a' = acc_venue a /\ acc_asset a' = acc_asset a /\
  acc_market_type a' = acc_market_type a.
Proof.
  intros (c & Hc & Hcons). unfold acc_add_trade. rewrite Hc. cbn.
  split; [reflexivity|]. split; [reflexivity|].
  split; [destruct (taker_side t); lia|].
  split; [|repeat split].
  eexists. split; [reflexivity|]. cbn. eapply ohlc_consistent_next, Hcons.
Qed.

Lemma floor_to_minute_aligned (ts : Z) : floor_to_minute ts mod 60 = 0.
Proof. unfold floor_to_minute, BAR_INTERVAL_SECONDS. apply Z.mod_mul. lia. Qed.

(** [sound_builder] is kept by [add_trade]. *)
Lemma add_trade_sound (b : Builder) (t : Trade) :
  sound_builder b -> sound_builder (fst (add_trade b t)).
Proof.
  intros (Hsorted & Hlen & Hbars & Hacc).
  unfold add_trade.
  pose proof (floor_to_minute_aligned (timestamp t)) as Hal.
  set (tbt := floor_to_minute (timestamp t)) in *.
  destruct (accumulator b) as [a|] eqn:Ha.
  - destruct Hacc as (Hbefore & Hmin & Hcnt & Hrange & Hsum & Hohlc & Hv & Has & Hm).
    destruct (acc_bar_time a <? tbt) eqn:Hroll.
    + (* rollover *)
      apply Z.ltb_lt in Hroll.
      destruct Hohlc as (c & Hc & Hcons).
      unfold to_bar. rewrite Hc.
      destruct (acc_venue a) as [v|] eqn:Ev; [|congruence].
      destruct (acc_asset a) as [s|] eqn:Es; [|congruence].
      destruct (acc_market_type a) as [m|] eqn:Em; [|congruence].
      change (MAX_TRADE_BUFFER_SIZE <=? 0) with false. cbn iota.
      cbn [fst]. unfold sound_builder.
      cbn [completed_bars accumulator trade_count].
      set (bar := mkBar _ _ _ _ _ _ _ _ _ _ _ _ _ _ _).
      assert (Hbar : sound_bar bar).
      { unfold sound_bar, bar. cbn. repeat split; try assumption; try lia;
          try apply Hcons. }
      destruct (acc_add_trade_first (reset a tbt) t) as (H1 & H2 & H3 & H4 & H5 & H6 & H7);
        try reflexivity.
      unfold deque_append.
      split; [|split; [|split]].
      * apply StronglySorted_skipn, StronglySorted_snoc; [assumption|].
        exact Hbefore.
      * apply (deque_append_length MAX_BARS_PER_VENUE (completed_bars b) bar).
      * apply Forall_skipn_keep, Forall_app. split; [assumption|]. now constructor.
      * rewrite H1, H2, H3. cbn [reset acc_bar_time].
        unfold MAX_TRADE_BUFFER_SIZE.
        repeat split; try assumption; try lia.
        apply Forall_skipn_keep, Forall_app. split.
        -- eapply Forall_impl; [|exact Hbefore]. cbn. intros; lia.
        -- constructor; [exact Hroll|constructor].
    + (* same or earlier minute *)
      destruct (MAX_TRADE_BUFFER_SIZE <=? trade_count b) eqn:Hcap.
      * cbn [fst]. unfold sound_builder. cbn [completed_bars accumulator trade_count].
        repeat split; try assumption; try lia; try apply Hrange.
      * apply Z.leb_gt in Hcap.
        destruct (acc_add_trade_next a t Hohlc) as (H1 & H2 & H3 & H4 & H5 & H6 & H7).
        cbn [fst]. unfold sound_builder. cbn [completed_bars accumulator trade_count].
        rewrite H1, H2, H3, H5, H6, H7.
        repeat split; try assumption; try lia.
  - destruct Hacc as (Hnil & Hzero).
    cbn [new_accumulator acc_bar_time]. rewrite Z.ltb_irrefl, Hzero.
    change (MAX_TRADE_BUFFER_SIZE <=? 0) with false. cbn iota.
    cbn [fst]. unfold sound_builder. cbn [completed_bars accumulator trade_count].
    destruct (acc_add_trade_first (new_accumulator tbt) t) as (H1 & H2 & H3 & H4 & H5 & H6 & H7);
      try reflexivity.
    rewrite Hnil, H1, H2, H3. cbn [new_accumulator acc_bar_time].
    unfold MAX_TRADE_BUFFER_SIZE.
    repeat split; try assumption; try lia;
      try (cbn; unfold MAX_BARS_PER_VENUE; lia); constructor.
Qed.

Lemma new_builder_sound (cb : bool) : sound_builder (new_builder cb).
Proof.
  unfold sound_builder, new_builder. cbn. repeat split; try constructor; lia.
Qed.

Lemma feed_sound (b : Builder) (trades : list Trade) :
  sound_builder b -> sound_builder (fst (feed b trades)).
Proof.
  intros Hb. induction trades as [|t trades IH] using rev_ind; [exact Hb|].
  rewrite feed_snoc. cbn [fst]. now apply add_trade_sound.
Qed.

Lemma add_trade_accumulator (b : Builder) (t : Trade) :
  accumulator (fst (add_trade b t)) <> None.
Proof.
  unfold add_trade.
  destruct (acc_bar_time _ <? _); cbn zeta;
    destruct (_ <=? _); cbn; discriminate.
Qed.

Lemma to_bar_partial (a : BarAccumulator) :
  to_bar a false = option_map completed (to_bar a true).
Proof.
  unfold to_bar.
  destruct (acc_ohlc a), (acc_venue a), (acc_asset a), (acc_market_type a);
    reflexivity.
Qed.

Lemma to_bar_time (a : BarAccumulator) (p : Bar) (flag : bool) :
  to_bar a flag = Some p -> bar_time p = acc_bar_time a.
Proof.
  unfold to_bar.
  destruct (acc_ohlc a), (acc_venue a), (acc_asset a), (acc_market_type a);
    try discriminate.
  now intros [= <-].
Qed.

(** What one call of [add_trade] does to the history and to the callback,
    in terms of the bar it returns. *)
Lemma add_trade_effect (b : Builder) (t : Trade) :
  let b' := fst (add_trade b t) in
  let r := snd (add_trade b t) in
  has_callback b' = has_callback b /\
  completed_bars b' =
    match r with
    | Some bar => deque_append MAX_BARS_PER_VENUE (completed_bars b) bar
    | None => completed_bars b
    end /\
  emitted b' =
    match r with
    | Some bar => if has_callback b then emitted b ++ [bar] else emitted b
    | None => emitted b
    end /\
  r = match get_partial_bar b with
      | Some p =>
          if bar_time p <? floor_to_minute (timestamp t) then Some (completed p)
          else None
      | None => None
      end.
Proof.
  unfold add_trade, get_partial_bar.
  destruct (accumulator b) as [a|].
  - destruct (acc_bar_time a <? floor_to_minute (timestamp t)) eqn:Hroll.
    + rewrite (to_bar_partial a).
      destruct (to_bar a true) as [p|] eqn:Hp; cbn [option_map].
      * rewrite (to_bar_time _ _ _ Hp), Hroll.
        destruct (_ <=? _); cbn; repeat split.
      * destruct (_ <=? _); cbn; repeat split.
    + destruct (to_bar a true) as [p|] eqn:Hp.
      * rewrite (to_bar_time _ _ _ Hp), Hroll.
        destruct (_ <=? _); cbn; repeat split.
      * destruct (_ <=? _); cbn; repeat split.
  - cbn [new_accumulator acc_bar_time]. rewrite Z.ltb_irrefl.
    destruct (_ <=? _); cbn; repeat split.
Qed.

Lemma most_recent_snoc {A : Type} (n : nat) (l : list A) (x : A) :
  most_recent n (most_recent n l ++ [x]) = most_recent n (l ++ [x]).
Proof.
  unfold most_recent.
  set (k := (List.length l - n)%nat).
  assert (Hk : skipn k l ++ [x] = skipn k (l ++ [x])).
  { rewrite skipn_app. replace (k - List.length l)%nat with 0%nat by lia.
    reflexivity. }
  rewrite Hk, skipn_skipn. f_equal.
  rewrite length_skipn, !length_app. cbn. lia.
Qed.

Lemma last_item_snoc {A : Type} (l : list A) (x : A) :
  last_item (l ++ [x]) = Some x.
Proof.
  induction l as [|y l IH]; [reflexivity|].
  cbn. destruct (l ++ [x]) eqn:E; [now destruct l|exact IH].
Qed.

Lemma last_item_skipn {A : Type} (k : nat) (l : list A) :
  (k < List.length l)%nat -> last_item (skipn k l) = last_item l.
Proof.
  revert l. induction k as [|k IH]; intros l Hk; [reflexivity|].
  destruct l as [|x l]; [cbn in Hk; lia|].
  cbn [skipn]. rewrite IH by (cbn in Hk; lia).
  destruct l; [cbn in Hk; lia|reflexivity].
Qed.

Lemma last_item_most_recent {A : Type} (n : nat) (l : list A) :
  (0 < n)%nat -> last_item (most_recent n l) = last_item l.
Proof.
  intros Hn. unfold most_recent. destruct l as [|x l]; [reflexivity|].
  apply last_item_skipn. cbn. lia.
Qed.

(** The history and the callback follow the returned bars. *)
Lemma feed_tracks (cb : bool) (trades : list Trade) :
  let b := fst (feed (new_builder cb) trades) in
  let returned := snd (feed (new_builder cb) trades) in
  has_callback b = cb /\
  emitted b = (if cb then returned else []) /\
  completed_bars b = most_recent MAX_BARS_PER_VENUE returned.
Proof.
  induction trades as [|t trades IH] using rev_ind.
  - cbn. destruct cb; repeat split.
  - cbn zeta in *. destruct IH as (Hcb & Hem & Hhist).
    rewrite feed_snoc. cbn [fst snd].
    destruct (add_trade_effect (fst (feed (new_builder cb) trades)) t)
      as (H1 & H2 & H3 & _).
    rewrite H1, H2, H3, Hcb, Hem, Hhist.
    destruct (snd (add_trade _ t)) as [bar|].
    + split; [reflexivity|]. split; [destruct cb; reflexivity|].
      unfold deque_append. apply (most_recent_snoc MAX_BARS_PER_VENUE).
    + rewrite app_nil_r. repeat split.
Qed.

(** X3.  In every state a builder reaches from its creation, the completed
    bars are in strictly increasing order of time and at most 1000; each of
    them is complete, starts on a minute, counts between 1 and 5000 trades
    (the per-minute cap) split exactly into buys and sells, and has no price
    above its high or below its low.  After the first trade there is always
    a partial bar; it is later than every completed bar, is subject to the
    same cap, and its close is the current price. *)
Theorem builder_history_sound (cb : bool) (trades : list Trade) :
  let b := fst (feed (new_builder cb) trades) in
  StronglySorted earlier (get_bars b None) /\
  (bar_count b <= 1000)%nat /\
  Forall sound_bar (get_bars b None) /\
  match get_partial_bar b with
  | None => trades = []
  | Some p =>
      bar_is_partial p = true /\
      Forall (fun bar => earlier bar p) (get_bars b None) /\
      bar_time p mod 60 = 0 /\
      bar_trade_count p = trade_count b /\
      1 <= bar_trade_count p <= 5000 /\
      bar_buy_count p + bar_sell_count p = bar_trade_count p /\
      ohlc_consistent (bar_open p) (bar_high p) (bar_low p) (bar_close p) /\
      get_current_price b = Some (bar_close p)
  end.
Proof.
  intros b.
  pose proof (feed_sound (new_builder cb) trades (new_builder_sound cb)) as Hs.
  fold b in Hs. destruct Hs as (Hsorted & Hlen & Hbars & Hacc).
  unfold get_bars, bar_count.
  repeat match goal with |- _ /\ _ => split end; try assumption.
  unfold get_partial_bar, get_current_price.
  destruct (accumulator b) as [a|] eqn:Ha.
  - destruct Hacc as (Hbefore & Hmin & Hcnt & Hrange & Hsum & (c & Hc & Hcons) & Hv & Has & Hm).
    unfold to_bar. rewrite Hc.
    destruct (acc_venue a); [|congruence].
    destruct (acc_asset a); [|congruence].
    destruct (acc_market_type a); [|congruence].
    unfold earlier. cbn. unfold MAX_TRADE_BUFFER_SIZE in Hrange.
    repeat match goal with |- _ /\ _ => split end;
      try assumption; try reflexivity; lia.
  - destruct trades as [|t trades _] using rev_ind; [reflexivity|].
    exfalso. unfold b in Ha. rewrite feed_snoc in Ha. cbn [fst] in Ha.
    now apply add_trade_accumulator in Ha.
Qed.

(** X4.  The bars returned by [add_trade] over a stream of trades are the
    bars handed to [on_bar_complete] (when there is a callback), in the same
    order and once each; the history is the last 1000 of them, and
    [get_latest_bar] is the last bar returned. *)
Theorem builder_returned_bars (cb : bool) (trades : list Trade) :
  let b := fst (feed (new_builder cb) trades) in
  let returned := snd (feed (new_builder cb) trades) in
  emitted b = (if cb then returned else []) /\
  get_bars b None = most_recent 1000 returned /\
  bar_count b = Nat.min 1000 (List.length returned) /\
  get_latest_bar b = last_item returned.
Proof.
  intros b returned.
  destruct (feed_tracks cb trades) as (_ & Hem & Hhist).
  fold b returned in Hem, Hhist.
  unfold get_bars, bar_count, get_latest_bar. rewrite Hhist.
  repeat split; try assumption.
  - unfold most_recent, MAX_BARS_PER_VENUE. rewrite length_skipn. lia.
  - apply last_item_most_recent. unfold MAX_BARS_PER_VENUE. lia.
Qed.

(** X5.  The bar [add_trade] returns is the partial bar that
    [get_partial_bar] showed before the call, marked complete, exactly when
    the trade belongs to a later minute than that bar; in every other case
    (no bar yet, same minute, earlier minute) nothing is returned. *)
Theorem add_trade_returns_partial_bar (b : Builder) (t : Trade) :
  snd (add_trade b t) =
  match get_partial_bar b with
  | Some p =>
      if bar_time p <? floor_to_minute (timestamp t) then Some (completed p)
      else None
  | None => None
  end.
Proof. apply add_trade_effect. Qed.

End BuilderState.

(* ------------------------------------------------------------------ *)
(** ** Slices of the history and merged bars *)

Section HistoryQueries.
Import Constants BarBuilder BarQueries BarSpec.

(** X6.  [get_bars(limit)] returns a final segment of the history, oldest
    first: everything for no limit and for the limit 0, the [limit] most
    recent bars (or all, when there are fewer) for a positive limit, and
    all but the [-limit] oldest bars for a negative one. *)
Theorem get_bars_is_recent_segment (b : Builder) (limit : option Z) :
  exists older,
    completed_bars b = older ++ get_bars b limit /\
    List.length (get_bars b limit) =
      match limit with
      | None => bar_count b
      | Some l =>
          if l =? 0 then bar_count b
          else if 0 <? l then Nat.min (Z.to_nat l) (bar_count b)
          else (bar_count b - Z.to_nat (- l))%nat
      end.
Proof.
  unfold get_bars, bar_count.
  destruct limit as [l|]; [|exists []; split; reflexivity].
  destruct (l =? 0); [exists []; split; reflexivity|].
  destruct (0 <? l).
  - exists (firstn (List.length (completed_bars b) - Z.to_nat l) (completed_bars b)).
    rewrite firstn_skipn, length_skipn. split; [reflexivity|lia].
  - exists (firstn (Z.to_nat (- l)) (completed_bars b)).
    rewrite firstn_skipn, length_skipn. split; reflexivity.
Qed.



End HistoryQueries.

(* ------------------------------------------------------------------ *)
(** ** Merging the bars of two runs of trades *)

Section MergeChunks.
Import Constants BarBuilder BarQueries BarSpec Spec.

Lemma not_above_trans (a b c : float) :
  positive a -> positive b -> positive c ->
  not_above b a -> not_above c b -> not_above c a.
Proof.
  unfold not_above. intros Ha Hb Hc Hab Hbc.
  destruct (PrimFloat.ltb a c) eqn:E; [exfalso|reflexivity].
  destruct (positive_not_lt b a Hb Ha Hab) as [Hlt| ->].
  - rewrite (ltb_trans _ _ _ Hlt E) in Hbc. discriminate.
  - congruence.
Qed.

Lemma highest_of_unique (l : list float) (h h' : float) :
  Forall positive l -> highest_of l h -> highest_of l h' -> h = h'.
Proof.
  intros Hpos [Hin Hall] [Hin' Hall'].
  rewrite Forall_forall in Hpos, Hall, Hall'.
  apply ltb_positive_eq.
  - apply (Hpos h Hin).
  - apply (Hpos h' Hin').
  - apply (Hall h' Hin').
  - apply (Hall' h Hin).
Qed.

Lemma lowest_of_unique (l : list float) (x x' : float) :
  Forall positive l -> lowest_of l x -> lowest_of l x' -> x = x'.
Proof.
  intros Hpos [Hin Hall] [Hin' Hall'].
  rewrite Forall_forall in Hpos, Hall, Hall'.
  apply ltb_positive_eq.
  - apply (Hpos x Hin).
  - apply (Hpos x' Hin').
  - apply (Hall' x Hin).
  - apply (Hall x' Hin').
Qed.

Lemma highest_of_app (l1 l2 : list float) (h1 h2 h : float) :
  Forall positive (l1 ++ l2) ->
  highest_of l1 h1 -> highest_of l2 h2 -> highest_of [h1; h2] h ->
  highest_of (l1 ++ l2) h.
Proof.
  intros Hpos [Hin1 Hall1] [Hin2 Hall2] [Hin Hall].
  rewrite Forall_forall in Hpos, Hall1, Hall2.
  inversion Hall as [|? ? Hh1 Hrest]; subst. inversion Hrest as [|? ? Hh2 _]; subst.
  assert (P1 : positive h1) by (apply Hpos, in_or_app; now left).
  assert (P2 : positive h2) by (apply Hpos, in_or_app; now right).
  assert (P : positive h) by (destruct Hin as [<-|[<-|[]]]; assumption).
  split.
  - apply in_or_app. destruct Hin as [<-|[<-|[]]]; [now left|now right].
  - apply Forall_forall. intros p Hp. apply in_app_or in Hp.
    destruct Hp as [Hp|Hp].
    + apply (not_above_trans h h1 p); auto.
      apply Hpos, in_or_app; now left.
    + apply (not_above_trans h h2 p); auto.
      apply Hpos, in_or_app; now right.
Qed.

Lemma lowest_of_app (l1 l2 : list float) (x1 x2 x : float) :
  Forall positive (l1 ++ l2) ->
  lowest_of l1 x1 -> lowest_of l2 x2 -> lowest_of [x1; x2] x ->
  lowest_of (l1 ++ l2) x.
Proof.
  intros Hpos [Hin1 Hall1] [Hin2 Hall2] [Hin Hall].
  rewrite Forall_forall in Hpos, Hall1, Hall2.
  inversion Hall as [|? ? Hx1 Hrest]; subst. inversion Hrest as [|? ? Hx2 _]; subst.
  assert (P1 : positive x1) by (apply Hpos, in_or_app; now left).
  assert (P2 : positive x2) by (apply Hpos, in_or_app; now right).
  assert (P : positive x) by (destruct Hin as [<-|[<-|[]]]; assumption).
  split.
  - apply in_or_app. destruct Hin as [<-|[<-|[]]]; [now left|now right].
  - apply Forall_forall. intros p Hp. apply in_app_or in Hp.
    destruct Hp as [Hp|Hp].
    + apply (not_above_trans p x1 x); auto.
      apply Hpos, in_or_app; now left.
    + apply (not_above_trans p x2 x); auto.
      apply Hpos, in_or_app; now right.
Qed.

Lemma last_app_cons {A : Type} (l : list A) (x : A) (l' : list A) (d d' : A) :
  last (l ++ x :: l') d = last (x :: l') d'.
Proof.
  induction l as [|y l IH].
  - cbn [app]. revert x. induction l' as [|z l' IH']; intros x; [reflexivity|].
    change (last (x :: z :: l') d) with (last (z :: l') d).
    change (last (x :: z :: l') d') with (last (z :: l') d'). apply IH'.
  - cbn [app]. rewrite <- IH. destruct (l ++ x :: l') eqn:E; [now destruct l|reflexivity].
Qed.

(** X8.  Accumulation and merging agree.  When the prices are positive
    numbers, merging the bar of a run of trades with the bar of the run
    that follows gives the time, venue, asset, market type, open, high,
    low, close and the three counts of the single bar accumulated from all
    the trades in order.  (The volumes are float sums taken in another
    order and are not compared.) *)
Theorem merge_bars_of_consecutive_runs (minute minute' : Z)
    (t1 : Trade) (l1 : list Trade) (t2 : Trade) (l2 : list Trade) :
  Forall (fun t => positive (price t)) ((t1 :: l1) ++ t2 :: l2) ->
  exists b1 b2 m whole,
    to_bar (accumulate minute (t1 :: l1)) false = Some b1 /\
    to_bar (accumulate minute' (t2 :: l2)) false = Some b2 /\
    merge_bars [b1; b2] = Some m /\
    to_bar (accumulate minute ((t1 :: l1) ++ t2 :: l2)) false = Some whole /\
    agree_but_volumes m whole.
Proof.
  intros Hpos.
  assert (Hprices : Forall positive (map price (t1 :: l1) ++ map price (t2 :: l2))).
  { rewrite <- map_app. apply Forall_map. exact Hpos. }
  destruct (accumulate_ohlc minute t1 l1)
    as (c1 & Hc1 & Ho1 & Hcl1 & Hh1 & Hl1 & Hv1 & Ha1 & Hm1).
  destruct (accumulate_counts minute (t1 :: l1))
    as (Ht1 & Hn1 & Hb1 & Hs1 & _).
  destruct (accumulate_ohlc minute' t2 l2)
    as (c2 & Hc2 & Ho2 & Hcl2 & Hh2 & Hl2 & Hv2 & Ha2 & Hm2).
  destruct (accumulate_counts minute' (t2 :: l2))
    as (Ht2 & Hn2 & Hb2 & Hs2 & _).
  destruct (accumulate_ohlc minute t1 (l1 ++ t2 :: l2))
    as (c & Hc & Ho & Hcl & Hh & Hl & Hv & Ha & Hm).
  destruct (accumulate_counts minute ((t1 :: l1) ++ t2 :: l2))
    as (Ht & Hn & Hb & Hs & _).
  cbn zeta in *.
  change (t1 :: l1 ++ t2 :: l2) with ((t1 :: l1) ++ t2 :: l2) in *.
  unfold to_bar. rewrite Hc1, Hv1, Ha1, Hm1, Hc2, Hv2, Ha2, Hm2, Hc, Hv, Ha, Hm.
  do 4 eexists.
  split; [reflexivity|]. split; [reflexivity|]. split; [reflexivity|].
  split; [reflexivity|]. unfold agree_but_volumes.
  cbn [fold_left merge_step bar_time bar_open bar_close bar_high bar_low
       bar_trade_count bar_buy_count bar_sell_count bar_venue bar_asset
       bar_market_type bar_is_partial existsb orb].
  rewrite map_app in Hh, Hl.
  repeat match goal with |- _ /\ _ => split end; try reflexivity.
  - congruence.
  - congruence.
  - apply (highest_of_unique _ _ _ Hprices); [|exact Hh].
    apply (highest_of_app _ _ (o_high c1) (o_high c2)); auto.
    apply (highest_of_snoc [o_high c1] (o_high c1) (o_high c2)).
    split; [now left|]. constructor; [apply ltb_irrefl|constructor].
  - apply (lowest_of_unique _ _ _ Hprices); [|exact Hl].
    apply (lowest_of_app _ _ (o_low c1) (o_low c2)); auto.
    apply (lowest_of_snoc [o_low c1] (o_low c1) (o_low c2)).
    split; [now left|]. constructor; [apply ltb_irrefl|constructor].
  - rewrite Hcl, Hcl2. f_equal. symmetry. apply last_app_cons.
  - rewrite Hn1, Hn2, Hn, length_app. lia.
  - rewrite Hb1, Hb2, Hb, filter_app, length_app. lia.
  - rewrite Hs1, Hs2, Hs, filter_app, length_app. lia.
Qed.

(** A trade at 110 followed by a trade at 100. *)
Lemma merge_bars_of_consecutive_runs_witness :
  exists b1 b2 m whole,
    to_bar (accumulate 1704067260 [Scenario.trade_now]) false = Some b1 /\
    to_bar (accumulate 1704067260 [Scenario.trade_late]) false = Some b2 /\
    merge_bars [b1; b2] = Some m /\
    to_bar (accumulate 1704067260 [Scenario.trade_now; Scenario.trade_late]) false
      = Some whole /\
    agree_but_volumes m whole.
Proof.
  apply (merge_bars_of_consecutive_runs 1704067260 1704067260
           Scenario.trade_now [] Scenario.trade_late []).
  repeat constructor.
Defined.

End MergeChunks.

(* ------------------------------------------------------------------ *)
(** ** Backfill: venue bars and the composite of a gap minute *)

Section BackfillBars.
Import Constants BarBuilder BarSpec OutlierFilter Backfill.

Lemma fold_left_filter {A B : Type} (keep : B -> bool) (f : A -> B -> A)
    (l : list B) (a : A) :
  fold_left (fun a x => if keep x then f a x else a) l a
  = fold_left f (List.filter keep l) a.
Proof.
  revert a. induction l as [|x l IH]; intros a; [reflexivity|].
  cbn. destruct (keep x); cbn; apply IH.
Qed.

(** X9.  [_build_bar_from_trades] keeps exactly the trades whose minute is
    [bar_time], which are the trades stamped inside the window
    [bar_time * 1000 .. (bar_time + 60) * 1000 - 1] that
    [_fetch_trades_for_minute] asks for, and none when [bar_time] is not a
    multiple of 60.  It returns no bar when no trade is kept; otherwise the
    bar carries [bar_time] and the venue, asset and market type given by the
    caller (not those of the trades), is complete, and summarises the kept
    trades: first and last price, extreme prices, counts and volumes. *)
Theorem build_bar_from_trades_keeps_minute (trades : list Trade) (minute : Z)
    (venue : VenueId) (asset : AssetId) (market_type : MarketType) :
  let kept :=
    List.filter (fun t => floor_to_minute (timestamp t) =? minute) trades in
  Forall (fun t => minute mod 60 = 0 /\
                   minute * 1000 <= timestamp t <= (minute + 60) * 1000 - 1) kept /\
  match kept with
  | [] => build_bar_from_trades trades minute venue asset market_type = None
  | first :: _ =>
      exists bar,
        build_bar_from_trades trades minute venue asset market_type = Some bar /\
        bar_time bar = minute /\
        bar_venue bar = venue /\
        bar_asset bar = asset /\
        bar_market_type bar = market_type /\
        bar_is_partial bar = false /\
        bar_open bar = price first /\
        bar_close bar = price (last kept first) /\
        highest_of (map price kept) (bar_high bar) /\
        lowest_of (map price kept) (bar_low bar) /\
        bar_trade_count bar = Z.of_nat (List.length kept) /\
        bar_buy_count bar = Z.of_nat (List.length (List.filter is_buy kept)) /\
        bar_sell_count bar =
          Z.of_nat (List.length (List.filter (fun t => negb (is_buy t)) kept)) /\
        bar_volume bar = running_sum (map quantity kept)
  end.
Proof.
  intros kept. split.
  { apply Forall_forall. intros t Ht. apply filter_In in Ht.
    destruct Ht as [_ Ht]. apply Z.eqb_eq in Ht.
    pose proof (floor_to_minute_bounds (timestamp t)) as Hb.
    rewrite Ht in Hb. lia. }
  assert (Hfold :
    fold_left
      (fun a t => if floor_to_minute (timestamp t) =? minute
                  then acc_add_trade a t else a)
      trades (new_accumulator minute) = accumulate minute kept).
  { apply (fold_left_filter (fun t => floor_to_minute (timestamp t) =? minute)). }
  unfold build_bar_from_trades. rewrite Hfold.
  destruct kept as [|first rest] eqn:Hkept.
  - destruct trades; reflexivity.
  - destruct trades as [|t0 trades0]; [discriminate|].
    destruct (accumulate_ohlc minute first rest)
      as (c & Hc & Ho & Hcl & Hh & Hl & Hv & Ha & Hm).
    destruct (accumulate_counts minute (first :: rest))
      as (Ht & Hn & Hb & Hs & Hvol & _).
    cbn zeta in *. unfold to_bar. rewrite Hc, Hv, Ha, Hm.
    eexists. split; [reflexivity|].
    cbn [bar_time bar_is_partial bar_venue bar_asset bar_market_type bar_open
         bar_close bar_high bar_low bar_trade_count bar_buy_count bar_sell_count
         bar_volume].
    repeat match goal with |- _ /\ _ => split end; try assumption; reflexivity.
Qed.

Lemma venue_in_spec (v : VenueId) (l : list VenueId) :
  venue_in v l = true <-> In v l.
Proof.
  unfold venue_in. rewrite existsb_exists. split.
  - intros (x & Hx & E). apply VenueId_eqb_eq in E. now subst.
  - intros H. exists v. split; [exact H|apply VenueId_eqb_refl].
Qed.

(** X10.  [_build_composite_from_venue_bars] returns nothing for an empty
    dictionary.  Otherwise the composite carries the minute, the asset and
    the market type, is never a gap, is always marked backfilled (so that the
    rebuilt bar of [_backfill_single_gap] is the same bar), has all four
    prices, is degraded exactly when fewer than three venues have a bar,
    sums the two counts over all the bars, lists the venues of the
    dictionary as included, and lists as excluded exactly the enabled venues
    of the market that have no bar: Coinbase with BACKFILL_UNAVAILABLE, any
    other venue with NO_DATA. *)
Theorem build_composite_from_venue_bars_shape (vb : VenueId * Bar)
    (rest : list (VenueId * Bar)) (minute : Z) (asset : AssetId)
    (market_type : MarketType) :
  let venue_bars := vb :: rest in
  build_composite_from_venue_bars [] minute asset market_type = None /\
  exists c,
    build_composite_from_venue_bars venue_bars minute asset market_type = Some c /\
    mark_backfilled c = c /\
    cb_time c = minute /\
    cb_asset c = Some asset /\
    cb_market_type c = Some market_type /\
    cb_is_gap c = false /\
    cb_is_backfilled c = true /\
    cb_degraded c = Nat.ltb (List.length venue_bars) 3 /\
    cb_open c <> None /\ cb_high c <> None /\ cb_low c <> None /\
    cb_close c <> None /\
    cb_buy_count c = zsum (map (fun x => bar_buy_count (snd x)) venue_bars) /\
    cb_sell_count c = zsum (map (fun x => bar_sell_count (snd x)) venue_bars) /\
    cb_included_venues c = map (fun x => venue_value (fst x)) venue_bars /\
    forall ev,
      In ev (cb_excluded_venues c) <->
      exists v,
        In v (get_enabled_venues market_type) /\
        ~ In v (map fst venue_bars) /\
        ev = mkExcludedVenue (venue_value v)
               (if VenueId_eqb v COINBASE then BACKFILL_UNAVAILABLE else NO_DATA).
Proof.
  intros venue_bars. split; [reflexivity|].
  unfold build_composite_from_venue_bars, venue_bars.
  eexists. split; [reflexivity|].
  cbn [cb_time cb_asset cb_market_type cb_is_gap cb_is_backfilled cb_degraded
       cb_open cb_high cb_low cb_close cb_buy_count cb_sell_count
       cb_included_venues cb_excluded_venues mark_backfilled].
  rewrite !map_map, length_map.
  repeat match goal with |- _ /\ _ => split end;
    try reflexivity; try discriminate.
  intros ev. rewrite in_flat_map. split.
  - intros (v & Hv & Hev). exists v. split; [exact Hv|].
    destruct (venue_in v (map fst (vb :: rest))) eqn:Hin; [destruct Hev|].
    split.
    + intros H. apply venue_in_spec in H. congruence.
    + destruct v; cbn in Hev; destruct Hev as [<-|[]]; reflexivity.
  - intros (v & Hv & Hnot & ->). exists v. split; [exact Hv|].
    destruct (venue_in v (map fst (vb :: rest))) eqn:Hin.
    + apply venue_in_spec in Hin. contradiction.
    + destruct v; cbn; now left.
Qed.

End BackfillBars.

(* ------------------------------------------------------------------ *)
(** ** Backfill: what the counters of a result can be *)

Section BackfillCounters.
Import Constants Backfill.

Variable W : Type.
Variable env : Env W.
Variables (asset market_type : string).

Lemma dict_set_length {V : Type} (d : list (VenueId * V)) (k : VenueId) (v : V) :
  (List.length (dict_set d k v) <= S (List.length d))%nat.
Proof.
  induction d as [|[k' v'] d IH]; cbn; [lia|].
  destruct (VenueId_eqb k' k); cbn; lia.
Qed.

(** The dictionary of the venue loop never has more entries than the list
    of venue bars (a venue given twice is appended twice and stored once). *)
Lemma venue_loop_lengths (gap_time : Z) (venues : list string)
    (acc acc' : VenueLoop) (w w' : W) :
  fold_m (venue_step W env asset market_type gap_time) venues acc w = (Ok acc', w') ->
  (List.length (valid_venue_bars acc) <= List.length (venue_bars acc))%nat ->
  (List.length (valid_venue_bars acc') <= List.length (venue_bars acc'))%nat.
Proof.
  revert acc w. induction venues as [|v venues IH]; intros acc w Hrun Hinv.
  - cbn in Hrun. unfold ret in Hrun. now inversion Hrun; subst.
  - cbn [fold_m] in Hrun. unfold bind in Hrun.
    destruct (venue_step W env asset market_type gap_time acc v w)
      as [[acc1|e] w1] eqn:Hstep; [|discriminate].
    apply (IH acc1 w1 Hrun).
    unfold venue_step, try_except, bind in Hstep.
    destruct (venue_attempt W env asset market_type gap_time v w)
      as [[[[venue_id bar]|]|e] w2]; cbn in Hstep; unfold ret in Hstep;
      inversion Hstep; subst; try assumption.
    cbn [valid_venue_bars venue_bars]. rewrite length_app. cbn [List.length].
    pose proof (dict_set_length (valid_venue_bars acc) venue_id bar). lia.
Qed.

(** A minute is repaired with at least two venue bars. *)
Lemma backfill_single_gap_count (gap_time : Z) (venues : list string)
    (w w' : W) (n : Z) :
  backfill_single_gap W env asset market_type gap_time venues w = (Ok n, w') ->
  n = 0 \/ 2 <= n.
Proof.
  unfold backfill_single_gap. unfold bind at 1.
  destruct (venue_loop_ok W env asset market_type gap_time venues (mkVenueLoop [] []) w)
    as (acc & w1 & Hloop).
  rewrite Hloop.
  pose proof (venue_loop_lengths gap_time venues _ _ _ _ Hloop (Nat.le_refl _)) as Hlen.
  destruct (Nat.ltb (List.length (valid_venue_bars acc)) 2) eqn:Hq.
  - unfold ret. intros [= <- _]. now left.
  - apply Nat.ltb_ge in Hq.
    unfold bind, enum_of.
    destruct (parse_asset (upper asset)); [|discriminate].
    destruct (parse_market (lower market_type)); [|discriminate].
    cbn.
    destruct (build_composite_from_venue_bars _ _ _ _);
      [|unfold ret; intros [= <- _]; now left].
    destruct (match venue_bars acc with [] => ret tt | _ :: _ => _ end w1)
      as [[[]|e] w2]; [|discriminate].
    destruct (composite_insert W env _ w2) as [[b|e] w3]; [|discriminate].
    unfold ret. intros [= <- _]. right. lia.
Qed.

Lemma gap_loop_inserted (venues : list string) (gaps : list Z) (st : St W) :
  exists st',
    for_each gaps (process_gap W env asset market_type venues) st = (Ok tt, st')
    /\ bars_repaired (result W st) <= bars_repaired (result W st')
    /\ bars_failed (result W st) <= bars_failed (result W st')
    /\ 2 * (bars_repaired (result W st') - bars_repaired (result W st))
       <= venue_bars_inserted (result W st') - venue_bars_inserted (result W st).
Proof.
  revert st. induction gaps as [|g gaps IH]; intros st.
  - cbn. unfold ret. eexists. repeat split; lia.
  - cbn [for_each]. unfold bind.
    destruct (process_gap_counts W env asset market_type venues g st)
      as (st1 & -> & _ & Hstep).
    destruct (IH st1) as (st2 & Hloop & Hrep & Hfail & Hins).
    exists st2. split; [exact Hloop|].
    destruct (backfill_single_gap W env asset market_type g venues (world W st))
      as [[n|e] w'] eqn:Hgap.
    + destruct Hstep as (_ & _ & Hn).
      pose proof (backfill_single_gap_count _ _ _ _ _ Hgap) as Hcount.
      destruct (0 <? n) eqn:Hpos.
      * apply Z.ltb_lt in Hpos. destruct Hn as (Hr & Hf & Hi). lia.
      * destruct Hn as (Hr & Hf & Hi). lia.
    + destruct Hstep as (_ & _ & Hr & Hf & Hi). lia.
Qed.

(** The request fields of the result are never written. *)
Lemma gap_loop_request (venues : list string) (gaps : list Z) (st st' : St W) :
  for_each gaps (process_gap W env asset market_type venues) st = (Ok tt, st') ->
  br_asset (result W st') = br_asset (result W st) /\
  br_market_type (result W st') = br_market_type (result W st) /\
  br_start_time (result W st') = br_start_time (result W st) /\
  br_end_time (result W st') = br_end_time (result W st).
Proof.
  revert st. induction gaps as [|g gaps IH]; intros st Hrun.
  - cbn in Hrun. unfold ret in Hrun. inversion Hrun; subst. repeat split.
  - cbn [for_each] in Hrun. unfold bind in Hrun.
    destruct (process_gap W env asset market_type venues g st)
      as [[[]|e] st1] eqn:Hstep; [|discriminate].
    destruct (IH st1 Hrun) as (H1 & H2 & H3 & H4).
    rewrite H1, H2, H3, H4.
    unfold process_gap, try_except, bind, lift, update_result, modify in Hstep.
    destruct (backfill_single_gap W env asset market_type g venues (world W st))
      as [[n|e] w1].
    + destruct (0 <? n); cbn in Hstep; inversion Hstep; subst; repeat split.
    + cbn in Hstep. inversion Hstep; subst. repeat split.
Qed.

End BackfillCounters.

Section BackfillBounds.
Import Constants Backfill.

(** X11.  [backfill_gaps] always returns a result that repeats the request
    (asset, market type, start and end time), whatever the repositories and
    the venues do.  Its counters are never negative; the repaired and the
    failed minutes together never exceed the gaps found; and at least two
    venue bars were inserted for every repaired minute, since
    [_backfill_single_gap] returns 0 or a number that is at least 2. *)
Theorem backfill_gaps_counter_bounds (W : Type) (env : Env W)
    (asset market_type : string) (start_time end_time : Z)
    (venues : option (list string)) (w : W) :
  (forall gap_time vs w0,
     match fst (backfill_single_gap W env asset market_type gap_time vs w0) with
     | Ok n => n = 0 \/ 2 <= n
     | Raise _ => True
     end) /\
  exists r w',
    backfill_gaps W env asset market_type start_time end_time venues w = (Ok r, w') /\
    br_asset r = asset /\ br_market_type r = market_type /\
    br_start_time r = start_time /\ br_end_time r = end_time /\
    0 <= gaps_found r /\ 0 <= bars_repaired r /\ 0 <= bars_failed r /\
    bars_repaired r + bars_failed r <= gaps_found r /\
    2 * bars_repaired r <= venue_bars_inserted r.
Proof.
  split.
  { intros gap_time vs w0.
    destruct (backfill_single_gap W env asset market_type gap_time vs w0)
      as [[n|e] w1] eqn:H; cbn; [|exact I].
    eapply backfill_single_gap_count, H. }
  unfold backfill_gaps, bind, try_except, backfill_gaps_body.
  unfold bind at 1. unfold lift at 1. cbn [world result].
  destruct (get_gaps W env asset market_type start_time end_time w)
    as [[gaps|e] w1].
  2:{ cbn. eexists. eexists. split; [reflexivity|]. cbn. repeat split; lia. }
  unfold bind at 1. unfold update_result at 1, modify at 1. cbn [world result].
  destruct gaps as [|g gaps].
  { cbn. eexists. eexists. split; [reflexivity|]. cbn. repeat split; lia. }
  set (st0 := mkSt W w1 _).
  unfold bind at 1.
  destruct ((match venues with
             | Some vs => ret vs
             | None =>
                 bind (enum_of parse_market (lower market_type) "MarketType"%string)
                      (fun mt => ret (map venue_value (get_backfill_venues mt)))
             end) st0) as [[vs|e] st1] eqn:Hvs.
  - assert (st1 = st0) as ->.
    { destruct venues as [vs0|]; [now inversion Hvs|].
      unfold bind, enum_of in Hvs.
      destruct (parse_market (lower market_type)); cbn in Hvs;
        unfold ret, raise in Hvs; now inversion Hvs. }
    destruct (gap_loop_counts W env asset market_type vs (g :: gaps) st0)
      as (st' & Hloop & Hfound & Hsum & Hrep & Herr).
    destruct (gap_loop_inserted W env asset market_type vs (g :: gaps) st0)
      as (st'' & Hloop' & Hrep' & Hfail' & Hins).
    rewrite Hloop in Hloop'. inversion Hloop'; subst st''.
    rewrite Hloop. cbn.
    destruct (gap_loop_request W env asset market_type vs (g :: gaps) st0 st' Hloop)
      as (R1 & R2 & R3 & R4).
    eexists. eexists. split; [reflexivity|].
    subst st0. unfold set_gaps_found in *.
    cbn [result world br_asset br_market_type br_start_time br_end_time
      gaps_found bars_repaired bars_failed venue_bars_inserted] in *.
    rewrite Hfound. cbn [List.length] in *.
    repeat split; try assumption; lia.
  - assert (result W st1 = result W st0) as Hres.
    { destruct venues as [vs0|]; [now inversion Hvs|].
      unfold bind, enum_of in Hvs.
      destruct (parse_market (lower market_type)); cbn in Hvs;
        unfold ret, raise in Hvs; now inversion Hvs. }
    cbn. rewrite Hres. subst st0. cbn.
    eexists. eexists. split; [reflexivity|]. cbn. repeat split; lia.
Qed.

End BackfillBounds.

(* ------------------------------------------------------------------ *)
(** ** Backfill: what is written to the repositories *)

Section VenueLoopFrame.
Import Constants BarBuilder BarSpec Backfill BackfillLog.

(** Any environment, and any part [view] of its state that a fetch from a
    venue leaves as it is. *)
Variable W : Type.
Variable env : Env W.
Variable V : Type.
Variable view : W -> V.
Hypothesis fetch_frame :
  forall asset market_type venue bar_time w,
    view (snd (fetch_trades_for_minute W env asset market_type venue bar_time w))
    = view w.
Variables (asset market_type : string).

Lemma build_bar_from_trades_some (trades : list Trade) (minute : Z)
    (venue : VenueId) (a : AssetId) (m : MarketType) (bar : Bar) :
  build_bar_from_trades trades minute venue a m = Some bar ->
  bar_time bar = minute /\ bar_is_partial bar = false /\ bar_venue bar = venue.
Proof.
  unfold build_bar_from_trades. destruct trades as [|t trades]; [discriminate|].
  rewrite (fold_left_filter (fun t => floor_to_minute (timestamp t) =? minute)
             acc_add_trade).
  fold (accumulate minute
          (List.filter (fun t => floor_to_minute (timestamp t) =? minute) (t :: trades))).
  destruct (to_bar _ false) as [b|] eqn:E; [|discriminate].
  intros [= <-]. cbn. apply to_bar_time in E. rewrite E.
  repeat split. apply accumulate_counts.
Qed.

Lemma venue_attempt_frame (gap_time : Z) (venue_str : string) (w : W) :
  let r := venue_attempt W env asset market_type gap_time venue_str w in
  view (snd r) = view w /\
  forall v bar, fst r = Ok (Some (v, bar)) ->
                bar_time bar = gap_time /\ bar_is_partial bar = false.
Proof.
  unfold venue_attempt, bind, enum_of.
  destruct (parse_venue (lower venue_str)) as [venue_id|];
    [|cbn; split; [reflexivity|discriminate]].
  cbn [ret].
  pose proof (fetch_frame asset market_type venue_str gap_time w) as Hf.
  destruct (fetch_trades_for_minute W env asset market_type venue_str gap_time w)
    as [[trades|e] w1]; cbn [snd] in Hf; [|cbn; split; [exact Hf|discriminate]].
  destruct trades as [|t trades]; [cbn; split; [exact Hf|discriminate]|].
  destruct (parse_asset (upper asset)) as [a|];
    [|cbn; split; [exact Hf|discriminate]].
  destruct (parse_market (lower market_type)) as [m|];
    [|cbn; split; [exact Hf|discriminate]].
  cbn [ret].
  destruct (build_bar_from_trades (t :: trades) gap_time venue_id a m) as [bar|] eqn:E;
    [|cbn; split; [exact Hf|discriminate]].
  cbn. split; [exact Hf|]. intros v b [= <- <-].
  apply build_bar_from_trades_some in E. tauto.
Qed.

Lemma dict_set_keys {K : Type} (d : list (VenueId * K)) (k : VenueId) (v : K) :
  NoDup (map fst d) ->
  NoDup (map fst (dict_set d k v)) /\
  (forall x, In x (map fst (dict_set d k v)) -> x = k \/ In x (map fst d)).
Proof.
  induction d as [|[k' v'] d IH]; intros Hnd.
  - cbn. split; [repeat constructor; intros []|]. intros x [<-|[]]. now left.
  - cbn [dict_set]. destruct (VenueId_eqb k' k) eqn:E.
    + apply VenueId_eqb_eq in E. subst k'. cbn. split; [exact Hnd|].
      intros x [<-|H]; [now left|right; now right].
    + inversion Hnd as [|? ? Hnotin Hnd']; subst.
      destruct (IH Hnd') as (IH1 & IH2). cbn. split.
      * constructor; [|exact IH1]. intros Hin.
        destruct (IH2 _ Hin) as [->|H]; [|contradiction].
        now rewrite VenueId_eqb_refl in E.
      * intros x [<-|H]; [right; now left|].
        destruct (IH2 _ H); [now left|right; now right].
Qed.

(** The venue loop leaves the view alone and keeps [sound_loop]. *)
Lemma venue_loop_frame (gap_time : Z) (venues : list string) (acc : VenueLoop)
    (w : W) :
  sound_loop gap_time acc ->
  exists acc' w',
    fold_m (venue_step W env asset market_type gap_time) venues acc w = (Ok acc', w')
    /\ view w' = view w /\ sound_loop gap_time acc'.
Proof.
  revert acc w. induction venues as [|v venues IH]; intros acc w Hacc.
  - cbn. unfold ret. eauto.
  - cbn [fold_m]. unfold bind at 1.
    destruct (venue_attempt_frame gap_time v w) as (Hlog & Hbar).
    unfold venue_step, try_except, bind.
    destruct (venue_attempt W env asset market_type gap_time v w)
      as [[[[venue_id bar]|]|e] w1]; cbn [fst snd] in Hlog, Hbar; cbn [ret].
    + destruct (Hbar venue_id bar eq_refl) as (Ht & Hp).
      set (acc1 := mkVenueLoop _ _).
      assert (Hacc1 : sound_loop gap_time acc1).
      { destruct Hacc as (Hall & Hnd & Hlen). unfold sound_loop, acc1.
        cbn [venue_bars valid_venue_bars]. split; [|split].
        - apply Forall_app. split; [exact Hall|].
          constructor; [|constructor]. cbn. auto.
        - apply dict_set_keys, Hnd.
        - rewrite length_app. cbn [List.length].
          pose proof (dict_set_length (valid_venue_bars acc) venue_id bar). lia. }
      destruct (IH acc1 w1 Hacc1) as (acc' & w' & Hrun & Hlog' & Hacc').
      exists acc', w'. split; [exact Hrun|]. split; [congruence|exact Hacc'].
    + destruct (IH acc w1 Hacc) as (acc' & w' & Hrun & Hlog' & Hacc').
      exists acc', w'. split; [exact Hrun|]. split; [congruence|exact Hacc'].
    + destruct (IH acc w1 Hacc) as (acc' & w' & Hrun & Hlog' & Hacc').
      exists acc', w'. split; [exact Hrun|]. split; [congruence|exact Hacc'].
Qed.

End VenueLoopFrame.

Section BackfillWrites.
Import Constants BarBuilder BarSpec Backfill BackfillLog.

Variable U : Type.
Variable env : Env U.
Variables (asset market_type : string).

Lemma recording_fetch_frame (a m v : string) (t : Z) (s : U * Log) :
  snd (snd (fetch_trades_for_minute (U * Log) (recording U env) a m v t s)) = snd s.
Proof.
  cbn [recording fetch_trades_for_minute]. unfold keep_log.
  now destruct (fetch_trades_for_minute U env a m v t (fst s)).
Qed.

Lemma venue_value_inj (a b : VenueId) : venue_value a = venue_value b -> a = b.
Proof. destruct a, b; cbn; intros H; try reflexivity; discriminate H. Qed.

Lemma NoDup_venue_values (l : list VenueId) :
  NoDup l -> NoDup (map venue_value l).
Proof.
  induction 1 as [|x l Hx Hl IH]; cbn; constructor; [|exact IH].
  intros Hin. apply in_map_iff in Hin. destruct Hin as (y & Hy & Hin).
  apply venue_value_inj in Hy. now subst.
Qed.

(** The repair of one minute in the observed environment. *)
Lemma single_gap_log (gap_time : Z) (venues : list string) (s s' : U * Log)
    (o : outcome Z) :
  backfill_single_gap (U * Log) (recording U env) asset market_type
    gap_time venues s = (o, s') ->
  exists batches composites,
    appended asset market_type gap_time (snd s) (snd s') batches composites /\
    match o with
    | Ok n => if 0 <? n then List.length composites = 1%nat else composites = []
    | Raise _ => True
    end.
Proof.
  assert (Hnone : forall lg, appended asset market_type gap_time lg lg [] []).
  { intros lg. unfold appended. rewrite !app_nil_r.
    repeat split; try constructor. }
  unfold backfill_single_gap. unfold bind at 1.
  destruct (venue_loop_frame (U * Log) (recording U env) Log snd
              recording_fetch_frame asset market_type
              gap_time venues (mkVenueLoop [] []) s)
    as (acc & s1 & Hrun & Hlog & Hall & Hnd & Hlen).
  { unfold sound_loop. cbn. repeat split; constructor. }
  rewrite Hrun. rewrite <- Hlog.
  destruct (Nat.ltb (List.length (valid_venue_bars acc)) 2) eqn:Hq.
  { unfold ret. intros [= <- <-]. exists [], []. split; [apply Hnone|reflexivity]. }
  apply Nat.ltb_ge in Hq.
  unfold bind, enum_of, ret, raise.
  destruct (parse_asset (upper asset)) as [a|] eqn:Ea;
    [|intros [= <- <-]; exists [], []; split; [apply Hnone|exact I]].
  destruct (parse_market (lower market_type)) as [m|] eqn:Em;
    [|intros [= <- <-]; exists [], []; split; [apply Hnone|exact I]].
  apply find_some in Ea. destruct Ea as [_ Ea]. apply String.eqb_eq in Ea.
  apply find_some in Em. destruct Em as [_ Em]. apply String.eqb_eq in Em.
  destruct (valid_venue_bars acc) as [|vb rest] eqn:Hvalid; [cbn in Hq; lia|].
  destruct (venue_bars acc) as [|x xs] eqn:Hbars; [cbn in Hlen, Hq; lia|].
  cbn [build_composite_from_venue_bars].
  set (c := mark_backfilled _).
  assert (Hc : written_composite asset market_type gap_time c).
  { unfold written_composite, c. cbn.
    repeat split; try discriminate.
    - unfold Repository.key_of. cbn. now rewrite Ea, Em.
    - rewrite !length_map. cbn in Hq. lia.
    - change (NoDup (map (fun v => venue_value v) (map fst (vb :: rest)))).
      apply NoDup_venue_values, Hnd. }
  assert (Hbatch : (2 <= List.length (x :: xs))%nat /\
                   Forall (written_venue_bar gap_time) (x :: xs)).
  { split; [lia|exact Hall]. }
  cbn [recording venue_insert_batch composite_insert].
  destruct (venue_insert_batch U env (x :: xs) (fst s1)) as [[[]|e] u1].
  - cbn [fst snd venue_writes composite_writes].
    destruct (composite_insert U env c u1) as [[b|e] u2].
    + intros [= <- <-]. cbn [fst snd]. exists [x :: xs], [c]. split.
      * unfold appended. cbn [venue_writes composite_writes].
        repeat split; try (constructor; [assumption|constructor]); cbn; lia.
      * replace (0 <? Z.of_nat (List.length (x :: xs))) with true
          by (symmetry; apply Z.ltb_lt; cbn [List.length]; lia).
        reflexivity.
    + intros [= <- <-]. cbn [fst snd]. exists [x :: xs], [c]. split; [|exact I].
      unfold appended. cbn [venue_writes composite_writes].
      repeat split; try (constructor; [assumption|constructor]); cbn; lia.
  - intros [= <- <-]. cbn [fst snd]. exists [x :: xs], []. split; [|exact I].
    unfold appended. cbn [venue_writes composite_writes]. rewrite app_nil_r.
    repeat split; try (constructor; [assumption|constructor]); try constructor.
    cbn; lia.
Qed.

(** The loop over the gaps in the observed environment. *)
Lemma gap_loop_log (venues : list string) (gaps : list Z) (st : St (U * Log)) :
  exists st' batches composites,
    for_each gaps (process_gap (U * Log) (recording U env) asset market_type venues) st
    = (Ok tt, st')
    /\ venue_writes (snd (world _ st')) = venue_writes (snd (world _ st)) ++ batches
    /\ composite_writes (snd (world _ st'))
       = composite_writes (snd (world _ st)) ++ composites
    /\ Forall (fun batch => exists g, In g gaps /\ (2 <= List.length batch)%nat /\
                                      Forall (written_venue_bar g) batch) batches
    /\ Forall (fun c => exists g, In g gaps /\ written_composite asset market_type g c) composites
    /\ (List.length composites <= List.length batches)%nat
    /\ bars_repaired (result _ st') - bars_repaired (result _ st)
       <= Z.of_nat (List.length composites).
Proof.
  revert st. induction gaps as [|g gaps IH]; intros st.
  - cbn. unfold ret. exists st, [], []. rewrite !app_nil_r.
    repeat split; try constructor; lia.
  - cbn [for_each]. unfold bind.
    destruct (process_gap_counts (U * Log) (recording U env) asset market_type
                venues g st) as (st1 & -> & _ & Hstep).
    destruct (IH st1) as (st2 & bs2 & cs2 & Hloop & Hv2 & Hc2 & Hbs2 & Hcs2 & Hlen2 & Hrep2).
    destruct (backfill_single_gap (U * Log) (recording U env) asset market_type g
                venues (world _ st)) as [o w'] eqn:Hgap.
    destruct (single_gap_log g venues _ _ _ Hgap)
      as (bs1 & cs1 & (Hv1 & Hc1 & Hbs1 & Hcs1 & Hlen1) & Hout).
    assert (Hw : world _ st1 = w') by (destruct o; tauto).
    rewrite Hw in Hv2, Hc2.
    exists st2, (bs1 ++ bs2), (cs1 ++ cs2).
    split; [exact Hloop|].
    split; [rewrite Hv2, Hv1; now rewrite app_assoc|].
    split; [rewrite Hc2, Hc1; now rewrite app_assoc|].
    split.
    { apply Forall_app. split.
      - eapply Forall_impl; [|exact Hbs1]. intros b Hb. exists g. split; [now left|exact Hb].
      - eapply Forall_impl; [|exact Hbs2]. intros b (g' & Hg' & Hb).
        exists g'. split; [now right|exact Hb]. }
    split.
    { apply Forall_app. split.
      - eapply Forall_impl; [|exact Hcs1]. intros c Hc. exists g. split; [now left|exact Hc].
      - eapply Forall_impl; [|exact Hcs2]. intros c (g' & Hg' & Hc).
        exists g'. split; [now right|exact Hc]. }
    rewrite !length_app. split; [lia|].
    destruct o as [n|e].
    + destruct Hstep as (_ & _ & Hn). destruct (0 <? n).
      * destruct Hn as (Hr & _). lia.
      * destruct Hn as (Hr & _). lia.
    + destruct Hstep as (_ & _ & Hr & _). lia.
Qed.

End BackfillWrites.

Section BackfillPersisted.
Import Constants Backfill BackfillLog.

(** X12.  Whatever the venues and the repositories answer, every composite
    that [backfill_gaps] hands to [composite_repo.insert] is for one of the
    gap minutes found, is not a gap, is marked backfilled, has its four
    prices, and lists at least two included venues, all different; every
    batch handed to [venue_repo.insert_batch] has at least two venue bars,
    each marked included without an exclusion reason, complete, and of one
    of the gap minutes; each composite insert follows the batch insert of
    its minute; and no more minutes are counted as repaired than composites
    were handed over. *)
Theorem backfill_gaps_writes (U : Type) (env : Env U)
    (asset market_type : string) (start_time end_time : Z)
    (venues : option (list string)) (u : U) :
  let r := backfill_gaps (U * Log) (recording U env) asset market_type
             start_time end_time venues (u, mkLog [] []) in
  let log := snd (snd r) in
  let gaps :=
    match fst (get_gaps U env asset market_type start_time end_time u) with
    | Ok gaps => gaps
    | Raise _ => []
    end in
  Forall (fun c => exists g, In g gaps /\ written_composite asset market_type g c)
         (composite_writes log) /\
  Forall (fun batch => exists g, In g gaps /\ (2 <= List.length batch)%nat /\
                                 Forall (written_venue_bar g) batch)
         (venue_writes log) /\
  (List.length (composite_writes log) <= List.length (venue_writes log))%nat /\
  match fst r with
  | Ok res => bars_repaired res <= Z.of_nat (List.length (composite_writes log))
  | Raise _ => False
  end.
Proof.
  cbn zeta.
  destruct (backfill_gaps (U * Log) (recording U env) asset market_type
              start_time end_time venues (u, mkLog [] [])) as [o s'] eqn:Hrun.
  cbn [fst snd].
  unfold backfill_gaps, bind, try_except, backfill_gaps_body in Hrun.
  unfold bind at 1 in Hrun. unfold lift at 1 in Hrun. cbn [world result] in Hrun.
  cbn [recording get_gaps] in Hrun. unfold keep_log in Hrun. cbn [fst snd] in Hrun.
  destruct (get_gaps U env asset market_type start_time end_time u)
    as [[gaps|e] u1].
  2:{ cbn in Hrun. inversion Hrun; subst. cbn. repeat split; try constructor; lia. }
  unfold bind at 1 in Hrun. unfold update_result at 1, modify at 1 in Hrun.
  cbn [world result] in Hrun.
  destruct gaps as [|g gaps].
  { cbn in Hrun. inversion Hrun; subst. cbn. repeat split; try constructor; lia. }
  set (st0 := mkSt (U * Log) _ _) in Hrun.
  unfold bind at 1 in Hrun.
  destruct ((match venues with
             | Some vs => ret vs
             | None =>
                 bind (enum_of parse_market (lower market_type) "MarketType"%string)
                      (fun mt => ret (map venue_value (get_backfill_venues mt)))
             end) st0) as [[vs|e] st1] eqn:Hvs.
  - assert (st1 = st0) as ->.
    { destruct venues as [vs0|]; [now inversion Hvs|].
      unfold bind, enum_of in Hvs.
      destruct (parse_market (lower market_type)); cbn in Hvs;
        unfold ret, raise in Hvs; now inversion Hvs. }
    destruct (gap_loop_log U env asset market_type vs (g :: gaps) st0)
      as (st' & bs & cs & Hloop & Hv & Hc & Hbs & Hcs & Hlen & Hrep).
    rewrite Hloop in Hrun. cbn in Hrun. inversion Hrun; subst o s'.
    subst st0. cbn [world result snd venue_writes composite_writes app] in Hv, Hc, Hrep.
    unfold set_gaps_found in Hrep. cbn [bars_repaired] in Hrep.
    rewrite Hv, Hc.
    repeat split; try assumption. lia.
  - assert (st1 = st0) as ->.
    { destruct venues as [vs0|]; [now inversion Hvs|].
      unfold bind, enum_of in Hvs.
      destruct (parse_market (lower market_type)); cbn in Hvs;
        unfold ret, raise in Hvs; now inversion Hvs. }
    subst st0. cbn in Hrun. inversion Hrun; subst. cbn.
    repeat split; try constructor; lia.
Qed.

End BackfillPersisted.

(* ------------------------------------------------------------------ *)
(** ** The composite upsert as a map update *)

Section UpsertRows.
Import stdpp.base stdpp.gmap stdpp.strings.
Import Repository.

Lemma with_is_backfilled_same (c : CompositeBar) :
  with_is_backfilled (cb_is_backfilled c) c = c.
Proof. now destruct c. Qed.


(** The row an upsert leaves under the key of the bar. *)
Lemma insert_lookup (table : Table) (bar : CompositeBar) (k : Key) :
  fst (insert table bar) !! k =
  if decide (k = key_of bar) then
    Some (with_is_backfilled
            (match table !! key_of bar with
             | None => cb_is_backfilled bar
             | Some stored => merged_is_backfilled stored bar
             end) bar)
  else table !! k.
Proof.
  unfold insert. destruct (decide (k = key_of bar)) as [->|Hne].
  - destruct (table !! key_of bar); cbn [fst]; rewrite lookup_insert_eq;
      [reflexivity|now rewrite with_is_backfilled_same].
  - destruct (table !! key_of bar); cbn [fst];
      now rewrite lookup_insert_ne by congruence.
Qed.



End UpsertRows.

(* ------------------------------------------------------------------ *)
(** ** The gap queries *)

Section GapQueries.
Import stdpp.base stdpp.gmap stdpp.strings.
Import Repository Queries.










End GapQueries.

(* ------------------------------------------------------------------ *)
(** ** Backfill on the composite table *)

Section GapCount.
Import stdpp.base stdpp.gmap stdpp.strings.
Import Repository Queries.



End GapCount.

Section BackfillOnTable.
Import stdpp.base stdpp.gmap stdpp.strings.
Import Constants Backfill Repository Queries BackfillLog BackfillDatabase RepairSpec.

Variable X : Type.
Variable fetch : string -> string -> string -> Z -> M X (list Trade).
Variable venue_insert : list (Bar * bool * option string) -> M X unit.
Variables (asset market_type : string).






Lemma firstn_member {A : Type} (n : nat) (l : list A) (x : A) :
  In x (firstn n l) -> In x l.
Proof.
  revert l. induction n as [|n IH]; intros l; [intros []|].
  destruct l as [|y l]; [intros []|]. cbn. intros [->|H]; [now left|right; auto].
Qed.


End BackfillOnTable.

Section BackfillRepairs.
Import stdpp.base stdpp.gmap stdpp.strings.
Import Constants Backfill Repository Queries BackfillLog BackfillDatabase RepairSpec.


End BackfillRepairs.

(* ------------------------------------------------------------------ *)
(** ** The records and the degraded reason of a composite result *)

Section ResultRecords.
Import Constants OutlierFilter Spec.

Lemma update_first_keeps {B : Type} (g : VenueContribution -> B)
    (venue : VenueId) (f : VenueContribution -> VenueContribution)
    (cs : list VenueContribution) :
  (forall c, g (f c) = g c) ->
  map g (update_first venue f cs) = map g cs.
Proof.
  intros Hf. induction cs as [|c cs IH]; [reflexivity|].
  cbn. destruct (VenueId_eqb (vc_venue c) venue); cbn; [now rewrite Hf|].
  now rewrite IH.
Qed.

Lemma verdict_price (median : option float) (p : float) (c : VenueContribution) :
  vc_price (verdict median p c) = vc_price c.
Proof.
  unfold verdict. destruct median as [m|]; [|reflexivity].
  destruct (PrimFloat.ltb OUTLIER_THRESHOLD_BPS (calculate_deviation_bps p m));
    reflexivity.
Qed.

(** Phase 3 rewrites records in place: any field that no verdict changes
    is, record by record, what phase 1 wrote. *)
Lemma phase3_keeps {B : Type} (g : VenueContribution -> B)
    (inputs : list VenuePriceInput) (now : Z) (market_type : MarketType) :
  (forall median p c, g (verdict median p c) = g c) ->
  map g (p3_contributions (phase3 inputs now market_type))
  = map (fun inp => g (fst (classify now market_type inp))) inputs.
Proof.
  intros Hg. rewrite phase3_contributions_fold.
  generalize (candidates inputs now market_type) as cands.
  rewrite <- (map_map (fun inp => fst (classify now market_type inp)) g).
  generalize (map (fun inp => fst (classify now market_type inp)) inputs) as cs.
  intros cs cands. revert cs.
  induction cands as [|cand cands IH]; intros cs; [reflexivity|].
  cbn [fold_left]. rewrite IH. apply update_first_keeps. intros c. apply Hg.
Qed.

Lemma classify_price (now : Z) (market_type : MarketType) (inp : VenuePriceInput) :
  vc_price (fst (classify now market_type inp)) = vpi_price inp.
Proof.
  unfold classify.
  destruct (vpi_is_connected inp); cbn; [|reflexivity].
  destruct (vpi_price inp) as [p|]; [|reflexivity].
  destruct (vpi_last_update_ms inp) as [last|]; [|reflexivity].
  destruct (get_stale_threshold (vpi_venue inp) market_type <? now - last);
    reflexivity.
Qed.

Lemma survivors_length (now : Z) (market_type : MarketType)
    (inputs : list VenuePriceInput) :
  (List.length (survivors now market_type inputs) <= List.length inputs)%nat.
Proof.
  induction inputs as [|inp inputs IH]; [cbn; lia|].
  rewrite survivors_cons, length_app. cbn [List.length].
  assert (List.length (if survives now market_type inp then entry inp else []) <= 1)%nat.
  { destruct (survives now market_type inp); [|cbn; lia].
    unfold entry. destruct (vpi_price inp); cbn; lia. }
  lia.
Qed.

Lemma filter_length_le {A : Type} (f : A -> bool) (l : list A) :
  (List.length (List.filter f l) <= List.length l)%nat.
Proof.
  induction l as [|x l IH]; cbn; [lia|]. destruct (f x); cbn; lia.
Qed.

(** X17.  For every list of inputs, [filter_outliers] returns one record
    per input, in the order of the inputs, carrying the venue and the price
    of that input; [total_count] is the number of inputs and
    [included_count] never exceeds it, so that fewer than two inputs always
    give a gap; a gap is always degraded; [degraded_reason] is NONE exactly
    when the result is not degraded. *)
Theorem filter_outliers_records_follow_inputs (inputs : list VenuePriceInput)
    (now : Z) (market_type : MarketType) :
  let r := filter_outliers inputs now market_type in
  map vc_venue (cr_venues r) = map vpi_venue inputs /\
  map vc_price (cr_venues r) = map vpi_price inputs /\
  cr_total_count r = List.length inputs /\
  List.length (cr_venues r) = List.length inputs /\
  (cr_included_count r <= cr_total_count r)%nat /\
  (if Nat.ltb (List.length inputs) 2 then cr_is_gap r = true else True) /\
  orb (negb (cr_is_gap r)) (cr_degraded r) = true /\
  (cr_degraded_reason r = DR_NONE <-> cr_degraded r = false).
Proof.
  intros r.
  assert (Hv : map vc_venue (cr_venues r) = map vpi_venue inputs).
  { subst r. unfold filter_outliers. cbn [cr_venues].
    rewrite (phase3_keeps vc_venue) by (intros; apply verdict_venue).
    apply map_ext. intros inp. apply classify_venue. }
  assert (Hc : (cr_included_count r <= List.length inputs)%nat).
  { subst r. rewrite filter_outliers_included_count.
    unfold within_threshold.
    etransitivity; [apply filter_length_le|].
    rewrite length_map. apply survivors_length. }
  split; [exact Hv|]. split.
  { subst r. unfold filter_outliers. cbn [cr_venues].
    rewrite (phase3_keeps vc_price) by (intros; apply verdict_price).
    apply map_ext. intros inp. apply classify_price. }
  split; [reflexivity|]. split.
  { rewrite <- (length_map vc_venue), Hv. apply length_map. }
  split; [exact Hc|]. split.
  { destruct (Nat.ltb (List.length inputs) 2) eqn:E; [|exact I].
    apply Nat.ltb_lt in E. subst r. unfold filter_outliers in *.
    cbn [cr_is_gap cr_included_count] in *. apply Nat.ltb_lt.
    change (min_quorum get_quorum_config) with 2%nat. lia. }
  split.
  { subst r. unfold filter_outliers. cbn [cr_is_gap cr_degraded].
    destruct (Nat.ltb _ (min_quorum get_quorum_config)); cbn;
      [apply orb_true_r|reflexivity]. }
  subst r. unfold filter_outliers. cbn [cr_degraded_reason cr_degraded].
  unfold derive_degraded_reason.
  destruct (_ || _); cbn [negb]; [|split; reflexivity].
  split; [|discriminate]. intros H.
  repeat match type of H with
         | (if ?b then _ else _) = _ => destruct b
         end; discriminate.
Qed.

End ResultRecords.

Section DegradedReason.
Import Constants OutlierFilter Spec.

Lemma existsb_of_map {A B : Type} (f : B -> bool) (g : A -> B) (l : list A) :
  existsb f (map g l) = existsb (fun x => f (g x)) l.
Proof. induction l as [|x l IH]; cbn; [reflexivity|]. now rewrite IH. Qed.

Lemma existsb_same {A : Type} (f g : A -> bool) (l : list A) :
  (forall x, f x = g x) -> existsb f l = existsb g l.
Proof.
  intros H. induction l as [|x l IH]; cbn; [reflexivity|]. now rewrite H, IH.
Qed.

(** With pairwise distinct venues, a reason is on some record exactly when
    some input meets that exclusion. *)
Lemma has_reason_inputs (reason : ExcludeReason) (inputs : list VenuePriceInput)
    (now : Z) (market_type : MarketType) :
  NoDup (map vpi_venue inputs) ->
  has_reason reason (cr_venues (filter_outliers inputs now market_type))
  = existsb (fun inp =>
               reason_is reason
                 (exclusion now market_type
                    (reference_median inputs now market_type) inp))
            inputs.
Proof.
  intros Hnd. unfold filter_outliers. cbn [cr_venues].
  rewrite phase3_contributions_distinct by exact Hnd.
  unfold has_reason. rewrite existsb_of_map.
  apply existsb_same. intros inp. now rewrite expected_contribution_reason.
Qed.

(** The inputs that meet no exclusion are counted by [included_count]. *)
Lemma included_count_exclusion (inputs : list VenuePriceInput) (now : Z)
    (market_type : MarketType) :
  cr_included_count (filter_outliers inputs now market_type)
  = List.length
      (List.filter
         (fun inp => is_none (exclusion now market_type
                                (reference_median inputs now market_type) inp))
         inputs).
Proof.
  rewrite filter_outliers_included_count.
  generalize (reference_median inputs now market_type) as median. intros median.
  induction inputs as [|inp inputs IH]; [reflexivity|].
  rewrite survivors_cons, map_app. unfold within_threshold in *.
  rewrite filter_app, length_app, IH. cbn [List.filter].
  unfold survives, exclusion, entry.
  destruct (vpi_is_connected inp); cbn; [|reflexivity].
  destruct (vpi_price inp) as [p|]; [|reflexivity].
  destruct (vpi_last_update_ms inp) as [last|]; [|reflexivity].
  destruct (get_stale_threshold (vpi_venue inp) market_type <? now - last);
    cbn; [reflexivity|].
  destruct (is_outlier median p); reflexivity.
Qed.

Lemma exclusion_kinds (now : Z) (market_type : MarketType) (median : option float)
    (inp : VenuePriceInput) :
  is_none (exclusion now market_type median inp)
  = negb (reason_is DISCONNECTED (exclusion now market_type median inp)
          || reason_is NO_DATA (exclusion now market_type median inp)
          || reason_is STALE (exclusion now market_type median inp)
          || reason_is OUTLIER (exclusion now market_type median inp)).
Proof.
  unfold exclusion.
  destruct (vpi_is_connected inp); cbn; [|reflexivity].
  destruct (vpi_price inp) as [p|]; [|reflexivity].
  destruct (vpi_last_update_ms inp) as [last|]; [|reflexivity].
  destruct (get_stale_threshold (vpi_venue inp) market_type <? now - last);
    [reflexivity|].
  destruct (is_outlier median p); reflexivity.
Qed.

Lemma filter_all_length {A : Type} (f : A -> bool) (l : list A) :
  existsb (fun x => negb (f x)) l = false ->
  List.length (List.filter f l) = List.length l.
Proof.
  induction l as [|x l IH]; cbn; [reflexivity|].
  intros H. apply orb_false_elim in H. destruct H as [Hx Hl].
  apply negb_false_iff in Hx. rewrite Hx. cbn. now rewrite IH.
Qed.

(** X18.  With pairwise distinct venues the degraded reason is read off
    the inputs by precedence: NONE when the result is not degraded; else
    VENUE_DISCONNECTED when an input is disconnected; else VENUE_STALE when
    an input is stale, or lacks data and the result is a gap; else
    VENUE_OUTLIER when an input is an outlier; else SINGLE_SOURCE for a gap
    with one included venue; else BELOW_PREFERRED_QUORUM.  In particular a
    venue without data does not show in the reason of a result that is not
    a gap, and SINGLE_SOURCE is reported only for a single input. *)
Theorem degraded_reason_precedence (inputs : list VenuePriceInput) (now : Z)
    (market_type : MarketType) :
  NoDup (map vpi_venue inputs) ->
  let r := filter_outliers inputs now market_type in
  let median := reference_median inputs now market_type in
  let met reason :=
    existsb (fun inp => reason_is reason (exclusion now market_type median inp))
            inputs in
  cr_degraded_reason r =
    (if negb (cr_degraded r) then DR_NONE
     else if met DISCONNECTED then VENUE_DISCONNECTED
     else if (cr_is_gap r && met NO_DATA) || met STALE then VENUE_STALE
     else if met OUTLIER then VENUE_OUTLIER
     else if cr_is_gap r && Nat.eqb (cr_included_count r) 1 then SINGLE_SOURCE
     else BELOW_PREFERRED_QUORUM) /\
  (cr_degraded_reason r = SINGLE_SOURCE -> List.length inputs = 1%nat).
Proof.
  intros Hnd r median met.
  assert (Hformula :
    cr_degraded_reason r =
      (if negb (cr_degraded r) then DR_NONE
       else if met DISCONNECTED then VENUE_DISCONNECTED
       else if (cr_is_gap r && met NO_DATA) || met STALE then VENUE_STALE
       else if met OUTLIER then VENUE_OUTLIER
       else if cr_is_gap r && Nat.eqb (cr_included_count r) 1 then SINGLE_SOURCE
       else BELOW_PREFERRED_QUORUM)).
  { pose proof (has_reason_inputs DISCONNECTED inputs now market_type Hnd) as Hd.
    pose proof (has_reason_inputs NO_DATA inputs now market_type Hnd) as Hn.
    pose proof (has_reason_inputs STALE inputs now market_type Hnd) as Hs.
    pose proof (has_reason_inputs OUTLIER inputs now market_type Hnd) as Ho.
    fold median in Hd, Hn, Hs, Ho. fold (met DISCONNECTED) in Hd.
    fold (met NO_DATA) in Hn. fold (met STALE) in Hs. fold (met OUTLIER) in Ho.
    subst r. unfold filter_outliers in *.
    cbn [cr_degraded_reason cr_degraded cr_is_gap cr_included_count cr_venues] in *.
    unfold derive_degraded_reason. rewrite Hd, Hn, Hs, Ho.
    destruct (_ || _); cbn [negb]; [|reflexivity].
    destruct (Nat.ltb _ _); cbn [andb]; [reflexivity|].
    destruct (met DISCONNECTED), (met STALE), (met OUTLIER); reflexivity. }
  split; [exact Hformula|].
  intros Hsingle. rewrite Hsingle in Hformula.
  destruct (negb (cr_degraded r)); [discriminate|].
  destruct (met DISCONNECTED) eqn:Ed; [discriminate|].
  destruct (cr_is_gap r) eqn:Eg; cbn [andb] in Hformula.
  2:{ destruct (_ || _); [discriminate|]. destruct (met OUTLIER); discriminate. }
  destruct (met NO_DATA) eqn:En; [discriminate|].
  destruct (met STALE) eqn:Es; [discriminate|]. cbn [orb] in Hformula.
  destruct (met OUTLIER) eqn:Eo; [discriminate|].
  destruct (Nat.eqb (cr_included_count r) 1) eqn:E1; [|discriminate].
  apply Nat.eqb_eq in E1. rewrite <- E1. subst r.
  rewrite included_count_exclusion. fold median. symmetry.
  apply filter_all_length.
  erewrite existsb_same.
  2:{ intros inp. rewrite exclusion_kinds, negb_involutive. reflexivity. }
  apply not_true_is_false. intros H. apply existsb_exists in H.
  destruct H as (inp & Hin & H).
  assert (Hany : forall reason, met reason = false ->
            reason_is reason (exclusion now market_type median inp) = false).
  { intros reason Hm. destruct (reason_is reason _) eqn:E; [|reflexivity].
    rewrite <- Hm. symmetry. apply existsb_exists. exists inp. auto. }
  rewrite (Hany _ Ed), (Hany _ En), (Hany _ Es), (Hany _ Eo) in H. discriminate.
Qed.

(** The stale venue of [Scenario.stale_far] decides the reason. *)
Lemma degraded_reason_precedence_witness :
  cr_degraded_reason (filter_outliers Scenario.stale_far 15000 SPOT) = VENUE_STALE.
Proof.
  assert (Hnd : NoDup (map vpi_venue Scenario.stale_far)).
  { repeat constructor; cbn; intuition discriminate. }
  destruct (degraded_reason_precedence Scenario.stale_far 15000 SPOT Hnd) as [H _].
  rewrite H. reflexivity.
Defined.

(** With pairwise distinct venues a record is marked included exactly when
    it carries no exclusion reason. *)
Lemma records_included_or_excluded (inputs : list VenuePriceInput) (now : Z)
    (market_type : MarketType) :
  NoDup (map vpi_venue inputs) ->
  Forall (fun c => vc_included c = is_none (vc_exclude_reason c))
         (cr_venues (filter_outliers inputs now market_type)).
Proof.
  intros Hnd. unfold filter_outliers. cbn [cr_venues].
  rewrite phase3_contributions_distinct by exact Hnd.
  apply Forall_map, Forall_forall. intros inp _.
  now rewrite expected_contribution_included, expected_contribution_reason.
Qed.

(** X19.  With pairwise distinct venues every record of the result is
    either marked included or carries an exclusion reason, never both and
    never neither; the reason is never BACKFILL_UNAVAILABLE; an included
    record carries a deviation that does not exceed 100 bps; and
    [included_count] is the number of records marked included, so that
    [total_count] is that number plus the number of excluded records. *)
Theorem filter_outliers_partition (inputs : list VenuePriceInput) (now : Z)
    (market_type : MarketType) :
  NoDup (map vpi_venue inputs) ->
  let r := filter_outliers inputs now market_type in
  Forall (fun c => vc_included c = is_none (vc_exclude_reason c) /\
                   vc_exclude_reason c <> Some BACKFILL_UNAVAILABLE /\
                   (if vc_included c
                    then exists d, vc_deviation_bps c = Some d /\
                                   PrimFloat.ltb 100%float d = false
                    else True))
         (cr_venues r) /\
  cr_included_count r = List.length (List.filter vc_included (cr_venues r)) /\
  cr_total_count r =
    (cr_included_count r
     + List.length (List.filter (fun c => negb (vc_included c)) (cr_venues r)))%nat.
Proof.
  intros Hnd r.
  assert (Hrec : cr_venues r
                 = map (expected_contribution now market_type
                          (reference_median inputs now market_type)) inputs).
  { subst r. unfold filter_outliers. cbn [cr_venues].
    now apply phase3_contributions_distinct. }
  assert (Hcount :
    cr_included_count r = List.length (List.filter vc_included (cr_venues r))).
  { subst r. rewrite included_count_exclusion, Hrec.
    generalize (reference_median inputs now market_type) as median. intros median.
    clear. induction inputs as [|inp inputs IH]; [reflexivity|].
    cbn [List.filter map]. rewrite expected_contribution_included.
    destruct (is_none _); cbn [List.length]; now rewrite IH. }
  split; [|split; [exact Hcount|]].
  - rewrite Hrec. apply Forall_map, Forall_forall. intros inp _.
    generalize (reference_median inputs now market_type) as median. intros median.
    unfold expected_contribution, classify, verdict.
    destruct (vpi_is_connected inp); cbn; [|repeat split; discriminate].
    destruct (vpi_price inp) as [p|]; [|repeat split; discriminate].
    destruct (vpi_last_update_ms inp) as [last|]; [|repeat split; discriminate].
    destruct (get_stale_threshold (vpi_venue inp) market_type <? now - last);
      cbn; [repeat split; discriminate|].
    destruct median as [m|]; cbn.
    + destruct (PrimFloat.ltb _ (calculate_deviation_bps p m))
        eqn:E; cbn; [repeat split; discriminate|].
      split; [reflexivity|]. split; [discriminate|]. eexists. split; [reflexivity|exact E].
    + split; [reflexivity|]. split; [discriminate|]. eexists. split; reflexivity.
  - rewrite Hcount.
    assert (Hlen : cr_total_count r = List.length (cr_venues r)).
    { rewrite Hrec, length_map. reflexivity. }
    rewrite Hlen. clear. induction (cr_venues r) as [|c cs IH]; [reflexivity|].
    cbn [List.filter List.length]. destruct (vc_included c); cbn; lia.
Qed.

(** The three venues of [Scenario.stale_far]: one record excluded, two
    included. *)
Lemma filter_outliers_partition_witness :
  cr_included_count (filter_outliers Scenario.stale_far 15000 SPOT) = 2%nat
  /\ cr_total_count (filter_outliers Scenario.stale_far 15000 SPOT) = 3%nat.
Proof.
  assert (Hnd : NoDup (map vpi_venue Scenario.stale_far)).
  { repeat constructor; cbn; intuition discriminate. }
  destruct (filter_outliers_partition Scenario.stale_far 15000 SPOT Hnd)
    as (_ & Hc & Ht).
  rewrite Ht, Hc. split; reflexivity.
Defined.

End DegradedReason.

(* ------------------------------------------------------------------ *)
(** ** The aggregator: one composite per key and minute *)

Section Dictionaries.
Import AggregatorState.

Variables (K V : Type) (eqb : K -> K -> bool).
Hypothesis eqb_eq : forall a b, eqb a b = true <-> a = b.

Lemma lookup_assign_same (d : list (K * V)) (k : K) (v : V) :
  lookup eqb (assign eqb d k v) k = Some v.
Proof.
  assert (Hr : eqb k k = true) by now apply eqb_eq.
  unfold lookup. induction d as [|[k' v'] d IH]; cbn.
  - now rewrite Hr.
  - destruct (eqb k' k) eqn:E; cbn; [now rewrite Hr|]. now rewrite E.
Qed.

Lemma lookup_assign_other (d : list (K * V)) (k k' : K) (v : V) :
  k' <> k -> lookup eqb (assign eqb d k v) k' = lookup eqb d k'.
Proof.
  intros Hne.
  assert (Hf : eqb k k' = false).
  { destruct (eqb k k') eqn:E; [|reflexivity]. apply eqb_eq in E. congruence. }
  unfold lookup. induction d as [|[k0 v0] d IH]; cbn.
  - now rewrite Hf.
  - destruct (eqb k0 k) eqn:E; cbn.
    + apply eqb_eq in E. subst k0. now rewrite Hf.
    + destruct (eqb k0 k'); [reflexivity|exact IH].
Qed.

Lemma lookup_In (d : list (K * V)) (k : K) (v : V) :
  lookup eqb d k = Some v -> In (k, v) d.
Proof.
  unfold lookup. destruct (find _ d) as [[k' v']|] eqn:E; [|discriminate].
  intros [= <-]. apply find_some in E. destruct E as [Hin E].
  cbn in E. apply eqb_eq in E. now subst.
Qed.

Lemma assign_Forall (Q : K * V -> Prop) (d : list (K * V)) (k : K) (v : V) :
  Forall Q d -> Q (k, v) -> Forall Q (assign eqb d k v).
Proof.
  intros Hd Hv. induction Hd as [|[k' v'] d Hx Hd IH]; cbn.
  - now constructor.
  - destruct (eqb k' k); constructor; auto.
Qed.

End Dictionaries.

Section Keys.
Import AggregatorState.

Lemma AssetId_eqb_eq (a b : AssetId) : AssetId_eqb a b = true <-> a = b.
Proof. destruct a, b; cbn; split; congruence. Qed.

Lemma MarketType_eqb_eq (a b : MarketType) : MarketType_eqb a b = true <-> a = b.
Proof. destruct a, b; cbn; split; congruence. Qed.

Lemma VenueKey_eqb_eq (a b : VenueKey) : VenueKey_eqb a b = true <-> a = b.
Proof.
  destruct a as [[v1 a1] m1], b as [[v2 a2] m2]. unfold VenueKey_eqb. cbn.
  rewrite !andb_true_iff, VenueId_eqb_eq, AssetId_eqb_eq, MarketType_eqb_eq.
  split; [intros [[-> ->] ->]; reflexivity|intros [= -> -> ->]; auto].
Qed.

Lemma MarketKey_eqb_eq (a b : MarketKey) : MarketKey_eqb a b = true <-> a = b.
Proof.
  destruct a as [a1 m1], b as [a2 m2]. unfold MarketKey_eqb. cbn.
  rewrite andb_true_iff, AssetId_eqb_eq, MarketType_eqb_eq.
  split; [intros [-> ->]; reflexivity|intros [= -> ->]; auto].
Qed.

Lemma BufferKey_eqb_eq (a b : BufferKey) : BufferKey_eqb a b = true <-> a = b.
Proof.
  destruct a as [[a1|] [m1|]], b as [[a2|] [m2|]]; unfold BufferKey_eqb; cbn;
    rewrite ?andb_true_iff, ?AssetId_eqb_eq, ?MarketType_eqb_eq;
    split; intros H; try discriminate; try (destruct H; discriminate);
    try (destruct H; subst; reflexivity); try (injection H; auto; fail);
    try reflexivity; try (injection H as -> ; auto); auto.
Qed.

End Keys.

Section ComputeOnce.
Import Constants OutlierFilter Aggregator AggregatorState BarSpec.

Lemma build_composite_identity (asset : AssetId) (market_type : MarketType)
    (bar_time : Z) (venue_bars : VenueBars) (venue_state : VenueState) :
  let c := fst (build_composite asset market_type bar_time venue_bars venue_state) in
  cb_time c = bar_time /\ cb_asset c = Some asset /\
  cb_market_type c = Some market_type /\ cb_is_backfilled c = false.
Proof. repeat split. Qed.

Lemma ring_append_last {A : Type} (n : nat) (d : list A) (x : A) :
  (0 < n)%nat -> BarQueries.last_item (ring_append n d x) = Some x.
Proof.
  intros Hn. unfold ring_append.
  change (skipn (List.length (d ++ [x]) - n) (d ++ [x]))
    with (most_recent n (d ++ [x])).
  rewrite last_item_most_recent by exact Hn. apply last_item_snoc.
Qed.

Lemma ring_append_length {A : Type} (n : nat) (d : list A) (x : A) :
  List.length (ring_append n d x) = Nat.min n (S (List.length d)).
Proof.
  unfold ring_append. rewrite length_skipn, length_app. cbn. lia.
Qed.

(** X20.  [_compute_single_composite] computes a composite at most once
    for a key and a minute in a row: a second call with the same asset,
    market type and minute changes nothing.  A call for a minute other than
    the last one computed for the key stores a composite of that minute,
    asset and market type as the latest bar of the in-memory buffer, which
    grows by one up to 120 bars, hands that same composite to
    [on_composite_bar] when the callback is given, and adds one to the
    counter of composite bars of the key; connectors and venue buffers are
    only read. *)
Theorem compute_single_composite_once (s : Settings) (st : State)
    (asset : AssetId) (market_type : MarketType) (bar_time : Z) :
  let st' := compute_single_composite s st asset market_type bar_time in
  compute_single_composite s st' asset market_type bar_time = st' /\
  lookup MarketKey_eqb (last_composite_times st') (asset, market_type)
    = Some bar_time /\
  connectors st' = connectors st /\
  bar_buffers st' = bar_buffers st /\
  if match lookup MarketKey_eqb (last_composite_times st) (asset, market_type) with
     | Some t => t =? bar_time
     | None => false
     end
  then st' = st
  else
    exists c,
      get_latest_bar st' asset market_type = Some c /\
      cb_time c = bar_time /\
      cb_asset c = Some asset /\
      cb_market_type c = Some market_type /\
      sent_composites st'
        = sent_composites st ++ (if has_on_composite_bar s then [c] else []) /\
      get_bar_count st' asset market_type
        = Nat.min 120 (S (get_bar_count st asset market_type)) /\
      composite_bars_total (counters_of st' (asset, market_type))
        = composite_bars_total (counters_of st (asset, market_type)) + 1.
Proof.
  intros st'. subst st'. unfold compute_single_composite at 2 3 4 5 6 7 8 9 10 11.
  destruct (match lookup MarketKey_eqb (last_composite_times st) (asset, market_type) with
            | Some t => t =? bar_time
            | None => false
            end) eqn:Hdup.
  - unfold compute_single_composite. rewrite Hdup.
    repeat split; try reflexivity.
    destruct (lookup MarketKey_eqb (last_composite_times st) (asset, market_type))
      as [t|]; [|discriminate].
    apply Z.eqb_eq in Hdup. now subst.
  - destruct (collect st _ asset market_type bar_time) as [vb vs].
    pose proof (build_composite_identity asset market_type bar_time vb vs)
      as (Ht & Ha & Hm & _).
    destruct (build_composite asset market_type bar_time vb vs) as [c cr].
    cbn [fst] in Ht, Ha, Hm.
    set (st1 := mkState _ _ _ _ _ _ _).
    assert (Hlast : lookup MarketKey_eqb (last_composite_times st1) (asset, market_type)
                    = Some bar_time).
    { apply (lookup_assign_same _ _ _ MarketKey_eqb_eq). }
    split.
    { unfold compute_single_composite. rewrite Hlast, Z.eqb_refl. reflexivity. }
    split; [exact Hlast|]. split; [reflexivity|]. split; [reflexivity|].
    exists c.
    assert (Hbuf : lookup BufferKey_eqb (composite_bar_buffer st1)
                     (Some asset, Some market_type)
                   = Some (ring_append MAX_IN_MEMORY_BARS
                             match lookup BufferKey_eqb (composite_bar_buffer st)
                                     (Some asset, Some market_type) with
                             | Some d => d
                             | None => []
                             end c)).
    { unfold st1. cbn [composite_bar_buffer]. unfold store_composite_bar.
      rewrite Ha, Hm. apply (lookup_assign_same _ _ _ BufferKey_eqb_eq). }
    split.
    { unfold get_latest_bar. rewrite Hbuf. apply ring_append_last.
      unfold MAX_IN_MEMORY_BARS. lia. }
    split; [exact Ht|]. split; [exact Ha|]. split; [exact Hm|]. split.
    { unfold st1. cbn [sent_composites].
      destruct (has_on_composite_bar s); [reflexivity|now rewrite app_nil_r]. }
    split.
    { unfold get_bar_count. rewrite Hbuf, ring_append_length.
      destruct (lookup BufferKey_eqb (composite_bar_buffer st) _); reflexivity. }
    unfold counters_of at 1. unfold st1. cbn [counters].
    rewrite (lookup_assign_same _ _ _ MarketKey_eqb_eq). reflexivity.
Qed.

End ComputeOnce.

(* ------------------------------------------------------------------ *)
(** ** The aggregator: what it stores and hands on *)

Section AggregatorInvariant.
Import Constants OutlierFilter Aggregator AggregatorState.

Lemma dict_set_values {V : Type} (Q : VenueId * V -> Prop)
    (d : list (VenueId * V)) (k : VenueId) (v : V) :
  Forall Q d -> Q (k, v) -> Forall Q (Backfill.dict_set d k v).
Proof.
  intros Hd Hv. induction Hd as [|[k' v'] d Hx Hd IH]; cbn.
  - now constructor.
  - destruct (VenueId_eqb k' k); constructor; auto.
Qed.

Lemma dict_get_In {V : Type} (d : list (VenueId * V)) (k : VenueId) (v : V) :
  dict_get d k = Some v -> In (k, v) d.
Proof.
  unfold dict_get. destruct (find _ d) as [[k' v']|] eqn:E; [|discriminate].
  intros [= <-]. apply find_some in E. destruct E as [Hin E].
  cbn in E. apply VenueId_eqb_eq in E. now subst.
Qed.

(** The venue bars collected for a minute have pairwise different venues,
    and each is a bar of that minute. *)
Lemma collect_sound (st : State) (venues : list VenueId) (asset : AssetId)
    (market_type : MarketType) (minute : Z) :
  Forall (fun kb : VenueKey * VenueBarBuffer =>
            match latest_bar (snd kb) with
            | Some bar => buffer_bar_time (snd kb) = Some (bar_time bar)
            | None => True
            end) (bar_buffers st) ->
  let vb := fst (collect st venues asset market_type minute) in
  NoDup (map fst vb) /\
  Forall (fun x : VenueId * option Bar =>
            match snd x with
            | Some bar => bar_time bar = minute
            | None => True
            end) vb.
Proof.
  intros Hbuf. unfold collect.
  assert (Hgen : forall acc : VenueBars * VenueState,
            NoDup (map fst (fst acc)) ->
            Forall (fun x : VenueId * option Bar =>
                      match snd x with
                      | Some bar => bar_time bar = minute
                      | None => True
                      end) (fst acc) ->
            let vb := fst (fold_left
              (fun (acc : VenueBars * VenueState) venue =>
                 let key := (venue, asset, market_type) in
                 let state :=
                   match lookup VenueKey_eqb (connectors st) key with
                   | Some connector => (connected connector, last_update_time connector)
                   | None => (false, None)
                   end in
                 let bar :=
                   match lookup VenueKey_eqb (bar_buffers st) key with
                   | Some buffer =>
                       match buffer_bar_time buffer with
                       | Some t => if t =? minute then latest_bar buffer else None
                       | None => None
                       end
                   | None => None
                   end in
                 (Backfill.dict_set (fst acc) venue bar,
                  Backfill.dict_set (snd acc) venue state))
              venues acc) in
            NoDup (map fst vb) /\
            Forall (fun x : VenueId * option Bar =>
                      match snd x with
                      | Some bar => bar_time bar = minute
                      | None => True
                      end) vb).
  { induction venues as [|v venues IH]; intros acc Hnd Hall; [now split|].
    cbn [fold_left]. apply IH; cbn [fst].
    - apply dict_set_keys, Hnd.
    - apply dict_set_values; [exact Hall|]. cbn [snd].
      destruct (lookup VenueKey_eqb (bar_buffers st) (v, asset, market_type))
        as [buffer|] eqn:El; [|exact I].
      apply (lookup_In _ _ _ VenueKey_eqb_eq) in El.
      rewrite Forall_forall in Hbuf. specialize (Hbuf _ El). cbn [snd] in Hbuf.
      destruct (buffer_bar_time buffer) as [t|]; [|exact I].
      destruct (t =? minute) eqn:Et; [|exact I]. apply Z.eqb_eq in Et.
      destruct (latest_bar buffer) as [bar|]; [|exact I]. congruence. }
  apply Hgen; cbn; constructor.
Qed.

Lemma filter_outliers_gap_degraded (inputs : list VenuePriceInput) (now : Z)
    (market_type : MarketType) :
  cr_is_gap (filter_outliers inputs now market_type) = true ->
  cr_degraded (filter_outliers inputs now market_type) = true.
Proof.
  unfold filter_outliers. cbn [cr_is_gap cr_degraded]. intros ->.
  apply orb_true_r.
Qed.

Lemma build_composite_sound (asset : AssetId) (market_type : MarketType)
    (minute : Z) (venue_bars : VenueBars) (venue_state : VenueState) :
  minute mod 60 = 0 ->
  sound_composite (fst (build_composite asset market_type minute venue_bars venue_state)).
Proof.
  intros Hm.
  destruct (build_composite_gap_shape asset market_type minute venue_bars venue_state)
    as (Hgap & Hnot).
  cbn zeta in Hgap, Hnot.
  unfold sound_composite. split; [exact Hm|].
  split; [discriminate|]. split; [discriminate|]. split; [reflexivity|].
  split.
  - split.
    + intros Hc. destruct (cb_is_gap _) eqn:E; [reflexivity|].
      exfalso. now apply Hnot.
    + intros Hg. now apply Hgap.
  - unfold build_composite. cbn [fst]. unfold build_composite_bar.
    cbn [cb_is_gap cb_degraded].
    destruct (cr_is_gap (filter_outliers (build_inputs venue_bars venue_state bar_close) _ _))
      eqn:E; [|reflexivity].
    apply filter_outliers_gap_degraded in E. rewrite E. cbn.
    now rewrite !orb_true_r.
Qed.

Lemma fold_dict_set_values {A V : Type} (Q : VenueId * V -> Prop)
    (key : A -> VenueId) (value : A -> V) (l : list A) (d : list (VenueId * V)) :
  Forall (fun a => Q (key a, value a)) l ->
  Forall Q d ->
  Forall Q (fold_left (fun d a => Backfill.dict_set d (key a) (value a)) l d).
Proof.
  intros Hl. revert d. induction Hl as [|a l Ha Hl IH]; intros d Hd; [exact Hd|].
  cbn [fold_left]. apply IH. now apply dict_set_values.
Qed.

(** The tuples prepared for persistence. *)
Lemma prepare_tuples (venue_bars : VenueBars) (close_result : CompositeResult)
    (minute : Z) :
  Forall (fun c => vc_included c = Spec.is_none (vc_exclude_reason c))
         (cr_venues close_result) ->
  Forall (fun x : VenueId * option Bar =>
            match snd x with
            | Some bar => bar_time bar = minute
            | None => True
            end) venue_bars ->
  Forall (fun x : Bar * bool * option string =>
            bar_time (fst (fst x)) = minute /\
            snd (fst x) = match snd x with None => true | Some _ => false end)
         (prepare_venue_bars_for_persistence venue_bars close_result).
Proof.
  intros Hrec Hbars. unfold prepare_venue_bars_for_persistence.
  set (venue_status := fold_left _ (cr_venues close_result) []).
  assert (Hstatus :
    Forall (fun kv : VenueId * (bool * option string) =>
              fst (snd kv) = match snd (snd kv) with None => true | Some _ => false end)
           venue_status).
  { apply fold_dict_set_values; [|constructor].
    eapply Forall_impl; [|exact Hrec]. intros c Hc. cbn. rewrite Hc.
    now destruct (vc_exclude_reason c). }
  apply Forall_forall. intros x Hx. apply in_flat_map in Hx.
  destruct Hx as ([v ob] & Hin & Hx). cbn [fst snd] in Hx.
  destruct ob as [bar|]; [|destruct Hx].
  rewrite Forall_forall in Hbars. specialize (Hbars _ Hin). cbn in Hbars.
  destruct (dict_get venue_status v) as [[inc r]|] eqn:Eg.
  - destruct Hx as [<-|[]]. cbn. split; [exact Hbars|].
    apply dict_get_In in Eg. rewrite Forall_forall in Hstatus.
    apply (Hstatus _ Eg).
  - destruct Hx as [<-|[]]. cbn. split; [exact Hbars|reflexivity].
Qed.

Lemma ring_append_Forall {A : Type} (Q : A -> Prop) (n : nat) (d : list A) (x : A) :
  Forall Q d -> Q x -> Forall Q (ring_append n d x).
Proof.
  intros Hd Hx. unfold ring_append. apply Forall_skipn_keep, Forall_app.
  split; [exact Hd|]. now constructor.
Qed.

(** [sound_state] is kept by the computation of a composite for a minute
    that starts on a multiple of 60. *)
Lemma compute_single_composite_sound (s : Settings) (st : State)
    (asset : AssetId) (market_type : MarketType) (minute : Z) :
  minute mod 60 = 0 ->
  sound_state st ->
  sound_state (compute_single_composite s st asset market_type minute).
Proof.
  intros Hm Hst. unfold compute_single_composite.
  destruct (match lookup MarketKey_eqb (last_composite_times st) (asset, market_type) with
            | Some t => t =? minute
            | None => false
            end); [exact Hst|].
  destruct Hst as (Hbuf & Hring & Hcount & Hsent & Htuples).
  set (venues := match market_type with
                 | SPOT => spot_venues (config s)
                 | PERP => perp_venues (config s)
                 end).
  destruct (collect_sound st venues asset market_type minute Hbuf) as (Hnd & Hbars).
  destruct (collect st venues asset market_type minute) as [vb vs]. cbn [fst] in Hnd, Hbars.
  pose proof (build_composite_sound asset market_type minute vb vs Hm) as Hc.
  pose proof (build_composite_identity asset market_type minute vb vs) as (_ & Ha & Hmk & _).
  assert (Hrec : Forall (fun c => vc_included c = Spec.is_none (vc_exclude_reason c))
                   (cr_venues (snd (build_composite asset market_type minute vb vs)))).
  { unfold build_composite. cbn [snd]. apply records_included_or_excluded.
    now rewrite build_inputs_venues. }
  destruct (build_composite asset market_type minute vb vs) as [c cr].
  cbn [fst snd] in Hc, Ha, Hmk, Hrec.
  unfold sound_state.
  cbn [bar_buffers composite_bar_buffer counters sent_composites sent_venue_bars].
  split; [exact Hbuf|]. split.
  { unfold store_composite_bar. apply assign_Forall; [exact Hring|]. cbn [fst snd].
    assert (Hd : (List.length
                    match lookup BufferKey_eqb (composite_bar_buffer st)
                            (cb_asset c, cb_market_type c) with
                    | Some d => d
                    | None => []
                    end <= MAX_IN_MEMORY_BARS)%nat /\
                 Forall (fun c' => sound_composite c' /\
                                   (cb_asset c', cb_market_type c')
                                   = (cb_asset c, cb_market_type c))
                   match lookup BufferKey_eqb (composite_bar_buffer st)
                           (cb_asset c, cb_market_type c) with
                   | Some d => d
                   | None => []
                   end).
    { destruct (lookup BufferKey_eqb (composite_bar_buffer st) _) as [d|] eqn:El.
      - apply (lookup_In _ _ _ BufferKey_eqb_eq) in El.
        rewrite Forall_forall in Hring. apply (Hring _ El).
      - split; [cbn; lia|constructor]. }
    split.
    - rewrite ring_append_length. lia.
    - apply ring_append_Forall; [apply Hd|]. split; [exact Hc|reflexivity]. }
  split.
  { apply assign_Forall; [exact Hcount|]. cbn [snd].
    assert (Hk : 0 <= gap_bars_total (counters_of st (asset, market_type)) /\
                 0 <= degraded_bars_total (counters_of st (asset, market_type)) /\
                 gap_bars_total (counters_of st (asset, market_type))
                 + degraded_bars_total (counters_of st (asset, market_type))
                 <= composite_bars_total (counters_of st (asset, market_type))).
    { unfold counters_of.
      destruct (lookup MarketKey_eqb (counters st) (asset, market_type)) as [k|] eqn:El.
      - apply (lookup_In _ _ _ MarketKey_eqb_eq) in El.
        rewrite Forall_forall in Hcount. apply (Hcount _ El).
      - cbn. lia. }
    unfold record_composite_bar.
    cbn [gap_bars_total degraded_bars_total composite_bars_total].
    destruct (cb_is_gap c), (cb_degraded c); lia. }
  split.
  { destruct (has_on_composite_bar s); [|exact Hsent].
    apply Forall_app. split; [exact Hsent|]. now constructor. }
  destruct (has_on_venue_bars s); [|exact Htuples].
  destruct (prepare_venue_bars_for_persistence vb cr) as [|x xs] eqn:Ep;
    [exact Htuples|].
  apply Forall_app. split; [exact Htuples|]. constructor; [|constructor].
  split; [discriminate|]. exists minute. split; [exact Hm|].
  rewrite <- Ep. now apply prepare_tuples.
Qed.

Lemma compute_composites_sound (s : Settings) (st : State) (minute : Z) :
  minute mod 60 = 0 -> sound_state st -> sound_state (compute_composites s st minute).
Proof.
  intros Hm. unfold compute_composites.
  generalize (assets (config s)) as l. intros l. revert st.
  induction l as [|a l IH]; intros st Hst; [exact Hst|].
  cbn [fold_left]. apply IH.
  now repeat apply compute_single_composite_sound.
Qed.

Lemma create_connector_sound (st : State) (venue : VenueId) (asset : AssetId)
    (market_type : MarketType) :
  sound_state st -> sound_state (create_connector st venue asset market_type).
Proof.
  intros Hst. unfold create_connector.
  destruct (make_connector venue market_type); [|exact Hst].
  destruct Hst as (Hbuf & Hrest). split; [|exact Hrest].
  cbn [bar_buffers]. apply assign_Forall; [exact Hbuf|exact I].
Qed.

Lemma start_sound (s : Settings) (st : State) :
  sound_state st -> sound_state (start s st).
Proof.
  unfold start. generalize (assets (config s)) as l. intros l. revert st.
  induction l as [|a l IH]; intros st Hst; [exact Hst|].
  cbn [fold_left]. apply IH.
  assert (Hloop : forall m venues st0,
            sound_state st0 ->
            sound_state (fold_left (fun st venue => create_connector st venue a m)
                                   venues st0)).
  { intros m venues. induction venues as [|v venues IHv]; intros st0 H0; [exact H0|].
    cbn [fold_left]. apply IHv. now apply create_connector_sound. }
  now repeat apply Hloop.
Qed.

Lemma step_sound (s : Settings) (st : State) (e : Event) :
  sound_state st -> sound_state (step s st e).
Proof.
  intros Hst. destruct e as [key bar|key status|now]; cbn [step].
  - unfold handle_bar_complete.
    destruct (lookup VenueKey_eqb (bar_buffers st) key); [|exact Hst].
    destruct Hst as (Hbuf & Hrest). split; [|exact Hrest].
    cbn [bar_buffers]. apply assign_Forall; [exact Hbuf|reflexivity].
  - destruct (lookup VenueKey_eqb (connectors st) key); exact Hst.
  - unfold composite_loop_step, BAR_INTERVAL_SECONDS.
    destruct (now mod 60 =? 0) eqn:E; [|exact Hst].
    apply Z.eqb_eq in E. apply compute_composites_sound; [|exact Hst].
    rewrite Zminus_mod, E, Z_mod_same_full. reflexivity.
Qed.

Lemma run_sound (s : Settings) (events : list Event) : sound_state (run s events).
Proof.
  unfold run.
  assert (H0 : sound_state (start s initial)).
  { apply start_sound. unfold sound_state, initial. cbn. repeat split; constructor. }
  revert H0. generalize (start s initial) as st. intros st.
  revert st. induction events as [|e events IH]; intros st Hst; [exact Hst|].
  cbn [fold_left]. apply IH. now apply step_sound.
Qed.

Lemma last_item_In {A : Type} (l : list A) (x : A) :
  BarQueries.last_item l = Some x -> In x l.
Proof.
  induction l as [|y l IH]; [discriminate|].
  cbn. destruct l as [|z l]; [intros [= <-]; now left|].
  intros H. right. now apply IH.
Qed.

(** X21.  In every state a started aggregator reaches, whatever bars the
    venues complete, however the connections change and whenever the loop
    wakes up: every composite handed to [on_composite_bar] is of a minute
    that starts on a multiple of 60, carries its asset and market type, is
    not marked backfilled, has a close exactly when it is not a gap, and is
    degraded when it is a gap; every list handed to [on_venue_bars] is not
    empty, its bars are all of one such minute, and a bar is marked included
    exactly when it has no exclusion reason; the in-memory buffer of a key
    never holds more than 120 composites, its latest bar is such a composite
    of that key, and of the three counters of the key the gap and the
    degraded bars together never exceed the composite bars. *)
Theorem aggregator_run_sound (s : Settings) (events : list Event)
    (asset : AssetId) (market_type : MarketType) :
  let st := run s events in
  Forall sound_composite (sent_composites st) /\
  Forall sound_tuples (sent_venue_bars st) /\
  (get_bar_count st asset market_type <= 120)%nat /\
  match get_latest_bar st asset market_type with
  | Some c =>
      sound_composite c /\ cb_asset c = Some asset /\
      cb_market_type c = Some market_type
  | None => True
  end /\
  0 <= gap_bars_total (counters_of st (asset, market_type)) /\
  0 <= degraded_bars_total (counters_of st (asset, market_type)) /\
  gap_bars_total (counters_of st (asset, market_type))
  + degraded_bars_total (counters_of st (asset, market_type))
  <= composite_bars_total (counters_of st (asset, market_type)).
Proof.
  intros st. destruct (run_sound s events) as (_ & Hring & Hcount & Hsent & Htuples).
  fold st in Hring, Hcount, Hsent, Htuples.
  split; [exact Hsent|]. split; [exact Htuples|].
  rewrite Forall_forall in Hring, Hcount.
  split; [|split].
  - unfold get_bar_count.
    destruct (lookup BufferKey_eqb (composite_bar_buffer st) _) as [d|] eqn:El; [|lia].
    apply (lookup_In _ _ _ BufferKey_eqb_eq) in El. apply (Hring _ El).
  - unfold get_latest_bar.
    destruct (lookup BufferKey_eqb (composite_bar_buffer st) _) as [d|] eqn:El;
      [|exact I].
    apply (lookup_In _ _ _ BufferKey_eqb_eq) in El.
    destruct (Hring _ El) as (_ & Hd). cbn [fst snd] in Hd.
    destruct (BarQueries.last_item d) as [c|] eqn:Ec; [|exact I].
    apply last_item_In in Ec. rewrite Forall_forall in Hd.
    destruct (Hd _ Ec) as (Hc & Hk). injection Hk as Ha Hm. auto.
  - unfold counters_of.
    destruct (lookup MarketKey_eqb (counters st) (asset, market_type)) as [k|] eqn:El.
    + apply (lookup_In _ _ _ MarketKey_eqb_eq) in El. apply (Hcount _ El).
    + cbn. lia.
Qed.

End AggregatorInvariant.

(* ------------------------------------------------------------------ *)
(** ** The aggregator: reading the in-memory buffer *)

Section BufferQueries.
Import Constants AggregatorState AggregatorSpec.

Lemma insert_bar_In (x c : CompositeBar) (l : list CompositeBar) :
  In c (insert_bar x l) <-> c = x \/ In c l.
Proof.
  induction l as [|y l IH]; cbn; [intuition|].
  destruct (cb_time y <? cb_time x); cbn; [rewrite IH|]; intuition.
Qed.

Lemma sort_by_time_In (c : CompositeBar) (l : list CompositeBar) :
  In c (sort_by_time l) <-> In c l.
Proof.
  induction l as [|y l IH]; [reflexivity|].
  change (sort_by_time (y :: l)) with (insert_bar y (sort_by_time l)).
  rewrite insert_bar_In, IH. cbn. intuition.
Qed.






Lemma slice_to_member {A : Type} (limit : Z) (l : list A) (x : A) :
  In x (slice_to limit l) -> In x l.
Proof. unfold slice_to. destruct (0 <=? limit); apply firstn_member. Qed.


End BufferQueries.

(* ------------------------------------------------------------------ *)
(** ** The aggregator: the venue bars persisted with a composite *)

Section PersistedVenueBars.
Import Constants OutlierFilter Aggregator AggregatorState Spec.





End PersistedVenueBars.

(* ------------------------------------------------------------------ *)
(** ** The aggregator: the connectors created by [start] *)

Section StartConnectors.
Import Constants Aggregator AggregatorState StartSpec.

Lemma create_loop_lookup (asset : AssetId) (market_type : MarketType)
    (venues : list VenueId) (st : State) (key : VenueKey) :
  let st' :=
    fold_left (fun st venue => create_connector st venue asset market_type)
              venues st in
  let hit :=
    AssetId_eqb (snd (fst key)) asset && MarketType_eqb (snd key) market_type
    && venue_in (fst (fst key)) venues
    && match make_connector (fst (fst key)) market_type with
       | Some _ => true
       | None => false
       end in
  lookup VenueKey_eqb (connectors st') key
  = (if hit then Some (mkStatus false None)
     else lookup VenueKey_eqb (connectors st) key) /\
  lookup VenueKey_eqb (bar_buffers st') key
  = (if hit then Some (mkBuffer None None)
     else lookup VenueKey_eqb (bar_buffers st) key) /\
  composite_bar_buffer st' = composite_bar_buffer st /\
  last_composite_times st' = last_composite_times st /\
  sent_composites st' = sent_composites st.
Proof.
  destruct key as [[kv ka] km]. cbn [fst snd].
  induction venues as [|v venues IH] using rev_ind.
  - cbn. rewrite !andb_false_r. cbn. repeat split.
  - cbn zeta in *. rewrite fold_left_app. cbn [fold_left].
    set (st1 := fold_left _ venues st) in *.
    destruct IH as (IHc & IHb & IH1 & IH2 & IH3).
    assert (Hin : venue_in kv (venues ++ [v])
                  = venue_in kv venues || VenueId_eqb kv v).
    { unfold venue_in. rewrite existsb_app. cbn. now rewrite orb_false_r. }
    rewrite Hin.
    unfold create_connector.
    destruct (make_connector v market_type) as [c|] eqn:Ev.
    + assert (Hc : c = mkStatus false None).
      { destruct v, market_type; cbn in Ev; congruence. }
      subst c. cbn [connectors bar_buffers composite_bar_buffer
                    last_composite_times sent_composites].
      destruct (AssetId_eqb ka asset && MarketType_eqb km market_type
                && VenueId_eqb kv v) eqn:Ehit.
      * apply andb_prop in Ehit. destruct Ehit as [Ehit Evv].
        apply andb_prop in Ehit. destruct Ehit as [Ea Em].
        rewrite Ea, Em, Evv, orb_true_r. cbn [andb].
        apply AssetId_eqb_eq in Ea. apply MarketType_eqb_eq in Em.
        apply VenueId_eqb_eq in Evv. subst ka km kv.
        rewrite Ev.
        rewrite !(lookup_assign_same _ _ _ VenueKey_eqb_eq).
        repeat split; assumption.
      * assert (Hne : (kv, ka, km) <> (v, asset, market_type)).
        { intros Heq. injection Heq as -> -> ->.
          rewrite VenueId_eqb_refl in Ehit.
          rewrite (proj2 (AssetId_eqb_eq asset asset) eq_refl) in Ehit.
          rewrite (proj2 (MarketType_eqb_eq market_type market_type) eq_refl) in Ehit.
          discriminate. }
        rewrite !(lookup_assign_other _ _ _ VenueKey_eqb_eq) by exact Hne.
        rewrite IHc, IHb.
        destruct (AssetId_eqb ka asset), (MarketType_eqb km market_type),
                 (VenueId_eqb kv v); cbn [andb] in *; try discriminate;
          rewrite ?orb_false_r; repeat split; assumption.
    + destruct (VenueId_eqb kv v) eqn:Evv.
      * apply VenueId_eqb_eq in Evv. subst kv.
        destruct (MarketType_eqb km market_type) eqn:Em.
        -- apply MarketType_eqb_eq in Em. subst km.
           rewrite Ev, !andb_false_r in *. repeat split; assumption.
        -- rewrite !andb_false_r in *. cbn [andb] in *. repeat split; assumption.
      * rewrite orb_false_r. repeat split; assumption.
Qed.

Lemma start_loop_lookup (s : Settings) (l : list AssetId) (st : State)
    (key : VenueKey) :
  let st' :=
    fold_left
      (fun st asset =>
         let st1 :=
           fold_left (fun st venue => create_connector st venue asset SPOT)
                     (spot_venues (config s)) st in
         fold_left (fun st venue => create_connector st venue asset PERP)
                   (perp_venues (config s)) st1)
      l st in
  let hit :=
    existsb (AssetId_eqb (snd (fst key))) l
    && venue_in (fst (fst key))
         (match snd key with
          | SPOT => spot_venues (config s)
          | PERP => perp_venues (config s)
          end)
    && match make_connector (fst (fst key)) (snd key) with
       | Some _ => true
       | None => false
       end in
  lookup VenueKey_eqb (connectors st') key
  = (if hit then Some (mkStatus false None)
     else lookup VenueKey_eqb (connectors st) key) /\
  lookup VenueKey_eqb (bar_buffers st') key
  = (if hit then Some (mkBuffer None None)
     else lookup VenueKey_eqb (bar_buffers st) key) /\
  composite_bar_buffer st' = composite_bar_buffer st /\
  last_composite_times st' = last_composite_times st /\
  sent_composites st' = sent_composites st.
Proof.
  induction l as [|a l IH] using rev_ind.
  - cbn. repeat split.
  - cbn zeta in *. rewrite fold_left_app. cbn [fold_left].
    set (st0 := fold_left _ l st) in *.
    destruct IH as (IHc & IHb & IH1 & IH2 & IH3).
    set (st1 := fold_left (fun st venue => create_connector st venue a SPOT) _ st0).
    destruct (create_loop_lookup a SPOT (spot_venues (config s)) st0 key)
      as (Sc & Sb & S1 & S2 & S3).
    destruct (create_loop_lookup a PERP (perp_venues (config s)) st1 key)
      as (Pc & Pb & P1 & P2 & P3).
    fold st1 in Sc, Sb, S1, S2, S3.
    rewrite Pc, Pb, P1, P2, P3, Sc, Sb, S1, S2, S3, IHc, IHb, IH1, IH2, IH3.
    rewrite existsb_app. cbn [existsb]. rewrite orb_false_r.
    destruct key as [[kv ka] km]. cbn [fst snd].
    destruct (AssetId_eqb ka a); rewrite ?orb_false_r, ?orb_true_r;
      cbn [andb]; [|repeat split].
    destruct km; cbn [MarketType_eqb andb].
    + destruct (existsb (AssetId_eqb ka) l); cbn [orb andb];
        destruct (venue_in kv (spot_venues (config s))); cbn [andb];
        destruct (make_connector kv SPOT); repeat split.
    + destruct (existsb (AssetId_eqb ka) l); cbn [orb andb];
        destruct (venue_in kv (perp_venues (config s))); cbn [andb];
        destruct (make_connector kv PERP); repeat split.
Qed.

Lemma compute_single_composite_frame (s : Settings) (st : State)
    (asset : AssetId) (market_type : MarketType) (minute : Z) :
  connectors (compute_single_composite s st asset market_type minute) = connectors st /\
  bar_buffers (compute_single_composite s st asset market_type minute) = bar_buffers st.
Proof.
  unfold compute_single_composite.
  destruct (match lookup MarketKey_eqb (last_composite_times st) (asset, market_type) with
            | Some t => t =? minute
            | None => false
            end); [split; reflexivity|].
  destruct (collect st _ asset market_type minute) as [vb vs].
  destruct (build_composite asset market_type minute vb vs) as [c cr].
  split; reflexivity.
Qed.

Lemma compute_composites_frame (s : Settings) (st : State) (minute : Z) :
  connectors (compute_composites s st minute) = connectors st /\
  bar_buffers (compute_composites s st minute) = bar_buffers st.
Proof.
  unfold compute_composites.
  generalize (assets (config s)) as l. intros l. revert st.
  induction l as [|a l IH]; intros st; [split; reflexivity|].
  change (fold_left _ (a :: l) st)
    with (fold_left
            (fun st asset =>
               fold_left
                 (fun st market_type =>
                    compute_single_composite s st asset market_type minute)
                 [SPOT; PERP] st)
            l (compute_single_composite s
                 (compute_single_composite s st a SPOT minute) a PERP minute)).
  destruct (IH (compute_single_composite s
                  (compute_single_composite s st a SPOT minute) a PERP minute))
    as [Hc Hb].
  rewrite Hc, Hb.
  destruct (compute_single_composite_frame s
              (compute_single_composite s st a SPOT minute) a PERP minute) as [-> ->].
  apply compute_single_composite_frame.
Qed.

Lemma assign_present {V : Type} (d : list (VenueKey * V)) (k k' : VenueKey)
    (old new : V) :
  lookup VenueKey_eqb d k = Some old ->
  match lookup VenueKey_eqb (assign VenueKey_eqb d k new) k' with
  | Some _ => true
  | None => false
  end
  = match lookup VenueKey_eqb d k' with
    | Some _ => true
    | None => false
    end.
Proof.
  intros Hold.
  destruct (VenueKey_eqb k' k) eqn:E.
  - apply VenueKey_eqb_eq in E. subst k'.
    now rewrite (lookup_assign_same _ _ _ VenueKey_eqb_eq), Hold.
  - rewrite (lookup_assign_other _ _ _ VenueKey_eqb_eq); [reflexivity|].
    intros ->. rewrite (proj2 (VenueKey_eqb_eq k k) eq_refl) in E. discriminate.
Qed.

Lemma step_keeps_keys (s : Settings) (st : State) (e : Event) (key : VenueKey) :
  match lookup VenueKey_eqb (connectors (step s st e)) key with
  | Some _ => true
  | None => false
  end
  = match lookup VenueKey_eqb (connectors st) key with
    | Some _ => true
    | None => false
    end /\
  match lookup VenueKey_eqb (bar_buffers (step s st e)) key with
  | Some _ => true
  | None => false
  end
  = match lookup VenueKey_eqb (bar_buffers st) key with
    | Some _ => true
    | None => false
    end.
Proof.
  destruct e as [k bar|k status|now]; cbn [step].
  - unfold handle_bar_complete.
    destruct (lookup VenueKey_eqb (bar_buffers st) k) as [old|] eqn:E;
      [|split; reflexivity].
    cbn [connectors bar_buffers]. split; [reflexivity|].
    exact (assign_present _ _ _ _ _ E).
  - destruct (lookup VenueKey_eqb (connectors st) k) as [old|] eqn:E;
      [|split; reflexivity].
    cbn [connectors bar_buffers]. split; [|reflexivity].
    exact (assign_present _ _ _ _ _ E).
  - unfold composite_loop_step.
    destruct (now mod BAR_INTERVAL_SECONDS =? 0); [|split; reflexivity].
    destruct (compute_composites_frame s st (now - BAR_INTERVAL_SECONDS)) as [-> ->].
    split; reflexivity.
Qed.

(** X24.  [start] on a new aggregator creates a connector, disconnected and
    without any message, and an empty bar buffer for exactly the keys made
    of a configured asset, a venue configured for the market type and a
    market type the venue has a connector for: Coinbase and Kraken have
    none for perpetuals, Bybit none for spot, while every venue enabled in
    the constants has one.  No event of a running aggregator adds or
    removes a connector or a venue buffer. *)
Theorem run_connectors_are_started (s : Settings) (events : list Event)
    (key : VenueKey) :
  (lookup VenueKey_eqb (connectors (start s initial)) key
   = if started s key then Some (mkStatus false None) else None) /\
  (lookup VenueKey_eqb (bar_buffers (start s initial)) key
   = if started s key then Some (mkBuffer None None) else None) /\
  match lookup VenueKey_eqb (connectors (run s events)) key with
  | Some _ => true
  | None => false
  end = started s key /\
  match lookup VenueKey_eqb (bar_buffers (run s events)) key with
  | Some _ => true
  | None => false
  end = started s key /\
  (forall venue market_type,
     make_connector venue market_type = None <->
     (market_type = PERP /\ (venue = COINBASE \/ venue = KRAKEN)) \/
     (market_type = SPOT /\ venue = BYBIT)) /\
  (forall venue market_type,
     In venue (get_enabled_venues market_type) ->
     make_connector venue market_type <> None).
Proof.
  assert (Hc : lookup VenueKey_eqb (connectors (start s initial)) key
               = if started s key then Some (mkStatus false None) else None)
    by exact (proj1 (start_loop_lookup s (assets (config s)) initial key)).
  assert (Hb : lookup VenueKey_eqb (bar_buffers (start s initial)) key
               = if started s key then Some (mkBuffer None None) else None)
    by exact (proj1 (proj2 (start_loop_lookup s (assets (config s)) initial key))).
  split; [exact Hc|]. split; [exact Hb|].
  assert (Hrun : match lookup VenueKey_eqb (connectors (run s events)) key with
                 | Some _ => true
                 | None => false
                 end = started s key /\
                 match lookup VenueKey_eqb (bar_buffers (run s events)) key with
                 | Some _ => true
                 | None => false
                 end = started s key).
  { unfold run. induction events as [|e events IH] using rev_ind.
    - cbn [fold_left]. rewrite Hc, Hb. destruct (started s key); split; reflexivity.
    - rewrite fold_left_app. cbn [fold_left].
      destruct (step_keeps_keys s (fold_left (step s) events (start s initial)) e key)
        as [-> ->].
      exact IH. }
  destruct Hrun as [Hrc Hrb].
  split; [exact Hrc|]. split; [exact Hrb|]. split.
  - intros venue market_type. split.
    + destruct venue, market_type; cbn; intros H; try discriminate; auto.
    + intros [[-> [->| ->]]|[-> ->]]; reflexivity.
  - intros venue market_type Hin.
    destruct market_type; cbn in Hin;
      repeat (destruct Hin as [<-|Hin]; [cbn; discriminate|]);
      destruct Hin.
Qed.

End StartConnectors.

(* ------------------------------------------------------------------ *)
(** ** The aggregator: the quorum and the configured venues *)

Section QuorumOfConnectors.
Import Constants OutlierFilter Aggregator AggregatorState StartSpec Spec.

Lemma filter_length_implies {A : Type} (f g : A -> bool) (l : list A) :
  (forall x, f x = true -> g x = true) ->
  (List.length (List.filter f l) <= List.length (List.filter g l))%nat.
Proof.
  intros Himp. induction l as [|x l IH]; cbn; [lia|].
  destruct (f x) eqn:Ef.
  - rewrite (Himp x Ef). cbn. lia.
  - destruct (g x); cbn; lia.
Qed.

Lemma NoDup_map_filter {A B : Type} (h : A -> B) (f : A -> bool) (l : list A) :
  NoDup (map h l) -> NoDup (map h (List.filter f l)).
Proof.
  induction l as [|x l IH]; cbn; [auto|].
  intros Hnd. apply NoDup_cons_iff in Hnd. destruct Hnd as [Hx Hnd].
  destruct (f x); [|auto]. cbn. constructor; [|auto].
  intros Hin. apply Hx. apply in_map_iff in Hin.
  destruct Hin as (y & Hy & Hin). apply filter_In in Hin.
  apply in_map_iff. exists y. tauto.
Qed.

(** With pairwise distinct venues [included_count] counts the records
    marked included. *)
Lemma included_count_records (inputs : list VenuePriceInput) (now : Z)
    (market_type : MarketType) :
  NoDup (map vpi_venue inputs) ->
  cr_included_count (filter_outliers inputs now market_type)
  = List.length (List.filter vc_included
                   (cr_venues (filter_outliers inputs now market_type))).
Proof.
  intros Hnd. rewrite included_count_exclusion.
  unfold filter_outliers at 1. cbn [cr_venues].
  rewrite phase3_contributions_distinct by exact Hnd.
  generalize (reference_median inputs now market_type) as median. intros median.
  clear. induction inputs as [|inp inputs IH]; [reflexivity|].
  cbn [List.filter map]. rewrite expected_contribution_included.
  destruct (is_none _); cbn [List.length]; now rewrite IH.
Qed.

(** No more inputs are included than are connected. *)
Lemma included_count_connected (inputs : list VenuePriceInput) (now : Z)
    (market_type : MarketType) :
  (cr_included_count (filter_outliers inputs now market_type)
   <= List.length (List.filter vpi_is_connected inputs))%nat.
Proof.
  rewrite included_count_exclusion. apply filter_length_implies.
  intros inp. unfold exclusion. now destruct (vpi_is_connected inp).
Qed.

(** The dictionaries filled by [collect]: the venues of [venue_bars] are
    pairwise different, and a venue recorded as connected has a connector. *)
Lemma collect_connected (st : State) (venues : list VenueId) (asset : AssetId)
    (market_type : MarketType) (minute : Z) :
  NoDup (map fst (fst (collect st venues asset market_type minute))) /\
  Forall (fun kv : VenueId * (bool * option Z) =>
            fst (snd kv) = true ->
            lookup VenueKey_eqb (connectors st) (fst kv, asset, market_type) <> None)
         (snd (collect st venues asset market_type minute)).
Proof.
  unfold collect.
  set (body := fun (acc : VenueBars * VenueState) (venue : VenueId) => _).
  assert (Hgen : forall acc : VenueBars * VenueState,
            NoDup (map fst (fst acc)) ->
            Forall (fun kv : VenueId * (bool * option Z) =>
                      fst (snd kv) = true ->
                      lookup VenueKey_eqb (connectors st) (fst kv, asset, market_type)
                      <> None) (snd acc) ->
            NoDup (map fst (fst (fold_left body venues acc))) /\
            Forall (fun kv : VenueId * (bool * option Z) =>
                      fst (snd kv) = true ->
                      lookup VenueKey_eqb (connectors st) (fst kv, asset, market_type)
                      <> None) (snd (fold_left body venues acc))).
  { induction venues as [|v venues IH]; intros acc Hnd Hall; [now split|].
    cbn [fold_left]. apply IH; subst body; cbn [fst snd].
    - apply dict_set_keys, Hnd.
    - apply dict_set_values; [exact Hall|]. cbn [fst snd].
      destruct (lookup VenueKey_eqb (connectors st) (v, asset, market_type));
        cbn [fst]; [discriminate|discriminate]. }
  apply Hgen; cbn; constructor.
Qed.

Lemma started_connectable (s : Settings) (venue : VenueId) (asset : AssetId)
    (market_type : MarketType) :
  started s (venue, asset, market_type) = true ->
  In venue (connectable s market_type).
Proof.
  unfold started, connectable. cbn [fst snd]. intros H.
  apply andb_prop in H. destruct H as [H Hs].
  apply andb_prop in H. destruct H as [_ Hv].
  apply filter_In. split.
  - destruct venue; cbn; tauto.
  - now rewrite Hv, Hs.
Qed.

(** The composite built from the collected dictionaries in a state whose
    connectors are among those that [start] creates. *)
Lemma build_composite_quorum (s : Settings) (st : State) (asset : AssetId)
    (market_type : MarketType) (minute : Z) :
  (forall key, lookup VenueKey_eqb (connectors st) key <> None -> started s key = true) ->
  let venues :=
    match market_type with
    | SPOT => spot_venues (config s)
    | PERP => perp_venues (config s)
    end in
  let col := collect st venues asset market_type minute in
  quorum_bound s (fst (build_composite asset market_type minute (fst col) (snd col))).
Proof.
  intros Hdom venues col.
  destruct (collect_connected st venues asset market_type minute) as [Hnd Hconn].
  fold col in Hnd, Hconn.
  destruct col as [vb vs]. cbn [fst snd] in *.
  unfold quorum_bound, build_composite. cbn [fst].
  unfold build_composite_bar. cbn [cb_market_type cb_included_venues cb_is_gap cb_degraded].
  set (now := (minute * 1000 + BAR_INTERVAL_SECONDS * 1000)%Z).
  set (inputs := build_inputs vb vs bar_close).
  assert (Hin : NoDup (map vpi_venue inputs)).
  { subst inputs. now rewrite build_inputs_venues. }
  assert (Hbound : (List.length (List.filter vpi_is_connected inputs)
                    <= List.length (connectable s market_type))%nat).
  { rewrite <- (length_map vpi_venue).
    apply NoDup_incl_length; [now apply NoDup_map_filter|].
    intros v Hv. apply in_map_iff in Hv. destruct Hv as (inp & <- & Hv).
    apply filter_In in Hv. destruct Hv as [Hv Hc].
    subst inputs. unfold build_inputs in Hv. apply in_map_iff in Hv.
    destruct Hv as ([venue ob] & <- & Hvb).
    apply (started_connectable s _ asset). apply Hdom.
    destruct (dict_get vs venue) as [[b lu]|] eqn:Eg.
    - apply dict_get_In in Eg. rewrite Forall_forall in Hconn.
      specialize (Hconn _ Eg). cbn [fst snd] in Hconn.
      destruct ob; cbn in Hc |- *; now apply Hconn.
    - destruct ob; cbn in Hc; discriminate. }
  pose proof (included_count_connected inputs now market_type) as Hle.
  pose proof (included_count_records inputs now market_type Hin) as Hrec.
  set (r := filter_outliers inputs now market_type) in *.
  assert (Hgap : cr_is_gap r
                 = Nat.ltb (cr_included_count r) (min_quorum get_quorum_config)).
  { reflexivity. }
  assert (Hdeg : cr_degraded r
                 = Nat.ltb (cr_included_count r) (preferred_quorum get_quorum_config)
                   || cr_is_gap r).
  { reflexivity. }
  split; [|split].
  - rewrite length_map, <- Hrec. lia.
  - intros Hn. rewrite Hgap. apply Nat.ltb_lt. lia.
  - intros Hn. rewrite Hdeg.
    replace (Nat.ltb (cr_included_count r) (preferred_quorum get_quorum_config))
      with true by (symmetry; apply Nat.ltb_lt; lia).
    cbn. apply orb_true_r.
Qed.

Lemma compute_single_composite_quorum (s : Settings) (st : State)
    (asset : AssetId) (market_type : MarketType) (minute : Z) :
  quorum_state s st ->
  quorum_state s (compute_single_composite s st asset market_type minute).
Proof.
  intros Hst. pose proof Hst as (Hdom & Hsent & Hbuf).
  pose proof (build_composite_quorum s st asset market_type minute Hdom) as Hc.
  cbn zeta in Hc.
  unfold compute_single_composite.
  destruct (match lookup MarketKey_eqb (last_composite_times st) (asset, market_type) with
            | Some t => t =? minute
            | None => false
            end); [exact Hst|].
  destruct (collect st _ asset market_type minute) as [vb vs]. cbn [fst snd] in Hc.
  destruct (build_composite asset market_type minute vb vs) as [c cr].
  cbn [fst] in Hc.
  unfold quorum_state. cbn [connectors sent_composites composite_bar_buffer].
  split; [exact Hdom|]. split.
  - destruct (has_on_composite_bar s); [|exact Hsent].
    apply Forall_app. split; [exact Hsent|]. now constructor.
  - unfold store_composite_bar. apply assign_Forall; [exact Hbuf|]. cbn [snd].
    apply ring_append_Forall; [|exact Hc].
    destruct (lookup BufferKey_eqb (composite_bar_buffer st) _) as [d|] eqn:El;
      [|constructor].
    apply (lookup_In _ _ _ BufferKey_eqb_eq) in El.
    rewrite Forall_forall in Hbuf. apply (Hbuf _ El).
Qed.

Lemma compute_composites_quorum (s : Settings) (st : State) (minute : Z) :
  quorum_state s st -> quorum_state s (compute_composites s st minute).
Proof.
  unfold compute_composites.
  generalize (assets (config s)) as l. intros l. revert st.
  induction l as [|a l IH]; intros st Hst; [exact Hst|].
  cbn [fold_left]. apply IH.
  now repeat apply compute_single_composite_quorum.
Qed.

Lemma step_quorum (s : Settings) (st : State) (e : Event) :
  quorum_state s st -> quorum_state s (step s st e).
Proof.
  intros Hst. destruct e as [key bar|key status|now]; cbn [step].
  - unfold handle_bar_complete.
    destruct (lookup VenueKey_eqb (bar_buffers st) key); exact Hst.
  - destruct (lookup VenueKey_eqb (connectors st) key) as [old|] eqn:E; [|exact Hst].
    destruct Hst as (Hdom & Hrest). split; [|exact Hrest].
    cbn [connectors]. intros k Hk. apply Hdom.
    pose proof (assign_present (connectors st) key k old status E) as Hp.
    destruct (lookup VenueKey_eqb (assign VenueKey_eqb (connectors st) key status) k);
      [|congruence].
    destruct (lookup VenueKey_eqb (connectors st) k); [discriminate|discriminate].
  - unfold composite_loop_step.
    destruct (now mod BAR_INTERVAL_SECONDS =? 0); [|exact Hst].
    now apply compute_composites_quorum.
Qed.

Lemma run_quorum (s : Settings) (events : list Event) :
  quorum_state s (run s events).
Proof.
  unfold run.
  assert (H0 : quorum_state s (start s initial)).
  { unfold quorum_state.
    assert (Hl : forall key,
              lookup VenueKey_eqb (connectors (start s initial)) key
              = (if started s key then Some (mkStatus false None) else None) /\
              composite_bar_buffer (start s initial) = [] /\
              sent_composites (start s initial) = []).
    { intros key.
      destruct (start_loop_lookup s (assets (config s)) initial key)
        as (Hc & _ & Hb & _ & Hs).
      split; [exact Hc|]. split; [exact Hb|exact Hs]. }
    split; [|split].
    - intros key Hk. destruct (Hl key) as [Hc _]. rewrite Hc in Hk.
      destruct (started s key); [reflexivity|congruence].
    - destruct (Hl (BINANCE, BTC, SPOT)) as (_ & _ & ->). constructor.
    - destruct (Hl (BINANCE, BTC, SPOT)) as (_ & -> & _). constructor. }
  revert H0. generalize (start s initial) as st. intros st.
  revert st. induction events as [|e events IH]; intros st Hst; [exact Hst|].
  cbn [fold_left]. apply IH. now apply step_quorum.
Qed.

(** X25.  A running aggregator never includes more venues in a composite
    than are configured for its market type and have a connector; when
    these are fewer than the minimum quorum (2) every composite of that
    market type is a gap, and when they are fewer than the preferred quorum
    (3) every composite is degraded.  This holds of the composites handed
    to [on_composite_bar] and of those returned by [get_bars].  With the
    default configuration one venue can be connected for perpetuals and two
    for spot. *)
Theorem run_respects_quorum (s : Settings) (events : list Event) :
  Forall (quorum_bound s) (sent_composites (run s events)) /\
  (forall asset market_type start_time end_time limit,
     Forall (quorum_bound s)
            (get_bars (run s events) asset market_type start_time end_time limit)) /\
  (forall on_composite on_venue,
     connectable (mkSettings default_config on_composite on_venue) SPOT
     = [BINANCE; COINBASE] /\
     connectable (mkSettings default_config on_composite on_venue) PERP
     = [BINANCE]).
Proof.
  destruct (run_quorum s events) as (_ & Hsent & Hbuf).
  split; [exact Hsent|]. split.
  - intros asset market_type start_time end_time limit.
    unfold get_bars.
    destruct (lookup BufferKey_eqb (composite_bar_buffer (run s events))
                (Some asset, Some market_type)) as [buffer|] eqn:El; [|constructor].
    apply (lookup_In _ _ _ BufferKey_eqb_eq) in El.
    rewrite Forall_forall in Hbuf. specialize (Hbuf _ El). cbn [snd] in Hbuf.
    apply Forall_forall. intros c Hc. apply slice_to_member in Hc.
    apply (proj1 (sort_by_time_In _ _)) in Hc. apply filter_In in Hc.
    rewrite Forall_forall in Hbuf. apply Hbuf. tauto.
  - intros on_composite on_venue. split; reflexivity.
Qed.

End QuorumOfConnectors.

(* ------------------------------------------------------------------ *)
(** ** Reading composite bars back *)

Section RowOrder.
Import stdpp.base stdpp.gmap stdpp.strings.
Import Repository Queries Reads.

Variable before : Z -> Z -> bool.
Variable R : Z -> Z -> Prop.
Hypothesis before_R : forall a b, before a b = true -> R a b.
Hypothesis after_R : forall a b, before a b = false -> a <> b -> R b a.
Hypothesis R_trans : forall a b c, R a b -> R b c -> R a c.

Lemma insert_row_In (r x : Row) (l : list Row) :
  In x (insert_row before r l) <-> x = r \/ In x l.
Proof.
  induction l as [|y l IH]; cbn.
  - intuition.
  - destruct (before (row_time r) (row_time y)); cbn; [intuition|].
    rewrite IH. intuition.
Qed.

Lemma order_rows_In (x : Row) (l : list Row) :
  In x (order_rows before l) <-> In x l.
Proof.
  induction l as [|y l IH]; [reflexivity|].
  change (order_rows before (y :: l)) with (insert_row before y (order_rows before l)).
  rewrite insert_row_In, IH. cbn. intuition.
Qed.

Lemma insert_row_sorted (r : Row) (l : list Row) :
  ~ In (row_time r) (map row_time l) ->
  StronglySorted (fun x y => R (row_time x) (row_time y)) l ->
  StronglySorted (fun x y => R (row_time x) (row_time y)) (insert_row before r l).
Proof.
  intros Hnot Hs. induction Hs as [|y l Hs IH Hy]; cbn.
  - constructor; constructor.
  - destruct (before (row_time r) (row_time y)) eqn:E.
    + apply before_R in E. constructor; [now constructor|].
      constructor; [exact E|].
      eapply List.Forall_impl; [|exact Hy]. cbn. intros a Ha.
      now apply (R_trans _ _ _ E).
    + assert (Hne : row_time r <> row_time y).
      { intros Heq. apply Hnot. left. now symmetry. }
      apply after_R in E; [|exact Hne].
      constructor.
      * apply IH. intros Hin. apply Hnot. now right.
      * apply List.Forall_forall. intros x Hx. apply insert_row_In in Hx.
        destruct Hx as [->|Hx]; [exact E|].
        rewrite List.Forall_forall in Hy. now apply Hy.
Qed.

Lemma order_rows_sorted (l : list Row) :
  List.NoDup (map row_time l) ->
  StronglySorted (fun x y => R (row_time x) (row_time y)) (order_rows before l).
Proof.
  induction l as [|y l IH]; [constructor|].
  cbn [map]. intros Hnd. apply List.NoDup_cons_iff in Hnd. destruct Hnd as [Hy Hnd].
  change (order_rows before (y :: l)) with (insert_row before y (order_rows before l)).
  apply insert_row_sorted; [|now apply IH].
  intros Hin. apply Hy. apply in_map_iff in Hin. destruct Hin as (x & Hx & Hin).
  apply (proj1 (order_rows_In _ _)) in Hin. apply in_map_iff. exists x. split; [exact Hx|exact Hin].
Qed.

End RowOrder.

Section TableReads.
Import stdpp.base stdpp.gmap stdpp.strings.
Import Repository Queries Reads.

Lemma insert_row_length (before : Z -> Z -> bool) (r : Row) (l : list Row) :
  List.length (insert_row before r l) = S (List.length l).
Proof.
  induction l as [|z l IH]; cbn; [reflexivity|].
  destruct (before (row_time r) (row_time z)); cbn; [reflexivity|]. now rewrite IH.
Qed.

Lemma order_rows_length (before : Z -> Z -> bool) (l : list Row) :
  List.length (order_rows before l) = List.length l.
Proof.
  induction l as [|y l IH]; [reflexivity|].
  change (order_rows before (y :: l)) with (insert_row before y (order_rows before l)).
  rewrite insert_row_length, IH. reflexivity.
Qed.

(** The rows of one asset and market type have different times, because
    they share the two other columns of the primary key. *)
Lemma market_rows_times (table : Table) (p : Row -> bool)
    (asset market_type : string) :
  (forall r, p r = true -> of_market asset market_type r = true) ->
  List.NoDup (map row_time (List.filter p (map_to_list table))).
Proof.
  intros Hp.
  pose proof (NoDup_fst_map_to_list table) as Hnd.
  apply NoDup_ListNoDup in Hnd.
  induction (map_to_list table) as [|r l IH]; cbn; [constructor|].
  cbn in Hnd. apply List.NoDup_cons_iff in Hnd. destruct Hnd as [Hr Hl].
  destruct (p r) eqn:Er; [|now apply IH].
  cbn. constructor; [|now apply IH].
  intros Hin. apply in_map_iff in Hin. destruct Hin as (r' & Ht & Hin).
  apply filter_In in Hin. destruct Hin as [Hin Er'].
  apply Hr. apply in_map_iff. exists r'. split; [|exact Hin].
  apply Hp in Er, Er'. unfold of_market in Er, Er'.
  apply andb_prop in Er, Er'. destruct Er as [Ea Em], Er' as [Ea' Em'].
  apply String.eqb_eq in Ea, Em, Ea', Em'.
  destruct r as [[[t a] m] c], r' as [[[t' a'] m'] c'].
  unfold row_time, row_asset, row_market in *. cbn in *. congruence.
Qed.

Lemma of_market_row (table : Table) (asset market_type : string) (r : Row) :
  In r (List.filter (of_market asset market_type) (map_to_list table)) <->
  exists t stored,
    r = ((t, Backfill.upper asset, Backfill.lower market_type), stored) /\
    table !! (t, Backfill.upper asset, Backfill.lower market_type) = Some stored.
Proof.
  rewrite filter_In. split.
  - intros [Hin Hsel]. apply list_elem_of_In in Hin.
    destruct r as [[[t a] m] c]. apply elem_of_map_to_list in Hin.
    unfold of_market, row_asset, row_market in Hsel. cbn in Hsel.
    apply andb_prop in Hsel. destruct Hsel as [Ha Hm].
    apply String.eqb_eq in Ha, Hm. subst. eauto.
  - intros (t & stored & -> & Hrow). split.
    + apply list_elem_of_In. now apply elem_of_map_to_list.
    + unfold of_market, row_asset, row_market. cbn. now rewrite !String.eqb_refl.
Qed.







(** The first row of [ORDER BY time DESC]. *)
Lemma latest_row (table : Table) (asset market_type : string) :
  match order_rows Z.gtb
          (List.filter (of_market asset market_type) (map_to_list table)) with
  | [] => forall t, table !! (t, Backfill.upper asset, Backfill.lower market_type) = None
  | r :: _ =>
      exists t stored,
        r = ((t, Backfill.upper asset, Backfill.lower market_type), stored) /\
        table !! (t, Backfill.upper asset, Backfill.lower market_type) = Some stored /\
        forall t' stored',
          table !! (t', Backfill.upper asset, Backfill.lower market_type) = Some stored' ->
          (t' <= t)%Z
  end.
Proof.
  set (rows := List.filter (of_market asset market_type) (map_to_list table)).
  assert (Hs : StronglySorted (fun x y => (row_time y < row_time x)%Z)
                 (order_rows Z.gtb rows)).
  { apply (order_rows_sorted Z.gtb (fun a b => (b < a)%Z)).
    - intros a b H. apply Z.gtb_lt in H. exact H.
    - intros a b H Hne. rewrite Z.gtb_ltb in H. apply Z.ltb_ge in H. lia.
    - intros a b c H1 H2. lia.
    - apply (market_rows_times table _ asset market_type). auto. }
  assert (Hin : forall r, In r (order_rows Z.gtb rows) <->
            exists t stored,
              r = ((t, Backfill.upper asset, Backfill.lower market_type), stored) /\
              table !! (t, Backfill.upper asset, Backfill.lower market_type)
              = Some stored).
  { intros r. rewrite order_rows_In. apply of_market_row. }
  destruct (order_rows Z.gtb rows) as [|r rest].
  - intros t. destruct (table !! _) as [stored|] eqn:El; [|reflexivity].
    exfalso. apply (proj2 (Hin ((t, Backfill.upper asset, Backfill.lower market_type),
                                stored))).
    exists t, stored. auto.
  - destruct (proj1 (Hin r) (or_introl eq_refl)) as (t & stored & -> & Hrow).
    exists t, stored. split; [reflexivity|]. split; [exact Hrow|].
    intros t' stored' Hrow'.
    assert (Hin' : In ((t', Backfill.upper asset, Backfill.lower market_type), stored')
                      (((t, Backfill.upper asset, Backfill.lower market_type), stored)
                         :: rest)).
    { apply Hin. exists t', stored'. auto. }
    destruct Hin' as [Heq|Hin']; [injection Heq as -> _; lia|].
    apply StronglySorted_inv in Hs. destruct Hs as [_ Hs].
    rewrite List.Forall_forall in Hs. specialize (Hs _ Hin').
    unfold row_time in Hs. cbn in Hs. lia.
Qed.

(** X27.  [get_latest] returns [None] exactly when the table holds no row
    for the upper-cased asset and the lower-cased market type; otherwise
    it returns the conversion of the row of that asset and market type
    whose time is the greatest. *)
Theorem get_latest_characterised (table : Table) (asset market_type : string) :
  let A := Backfill.upper asset in
  let M := Backfill.lower market_type in
  match get_latest table asset market_type with
  | None => forall t, table !! (t, A, M) = None
  | Some b =>
      cb_asset b = Backfill.parse_asset A /\
      cb_market_type b = Backfill.parse_market M /\
      (exists stored,
         table !! (cb_time b, A, M) = Some stored /\
         b = row_to_composite_bar ((cb_time b, A, M), stored)) /\
      forall t stored, table !! (t, A, M) = Some stored -> (t <= cb_time b)%Z
  end.
Proof.
  intros A M. unfold get_latest.
  pose proof (latest_row table asset market_type) as H.
  destruct (order_rows Z.gtb _) as [|r rest]; cbn [firstn]; [exact H|].
  destruct H as (t & stored & -> & Hrow & Hmax).
  split; [reflexivity|]. split; [reflexivity|]. split; [|exact Hmax].
  exists stored. split; [exact Hrow|reflexivity].
Qed.







End TableReads.

(* ------------------------------------------------------------------ *)
(** ** Upserting a batch *)

Section BatchUpsert.
Import stdpp.base stdpp.gmap stdpp.strings.
Import Repository Queries Reads.

Lemma insert_batch_loop (bars : list CompositeBar) (table : Table) (n : Z) :
  fold_left
    (fun (acc : Table * Z) bar => (fst (insert (fst acc) bar), (snd acc + 1)%Z))
    bars (table, n)
  = (insert_all table bars, (n + Z.of_nat (List.length bars))%Z).
Proof.
  revert table n. induction bars as [|b bars IH]; intros table n.
  - cbn. f_equal. lia.
  - cbn [fold_left fst snd]. rewrite IH. unfold insert_all. cbn [fold_left List.length].
    f_equal. lia.
Qed.

Lemma insert_size (table : Table) (bar : CompositeBar) :
  (size table <= size (fst (insert table bar)) <= S (size table))%nat.
Proof.
  unfold insert. destruct (table !! key_of bar) as [stored|] eqn:E; cbn [fst].
  - rewrite map_size_insert_Some by (rewrite E; eauto). lia.
  - rewrite map_size_insert_None by exact E. lia.
Qed.

(** X29.  [insert_batch] is the sequence of the single upserts of its
    bars; it returns the number of bars, also when several bars share a
    key.  Afterwards a key that no bar of the batch carries holds what it
    held, and a key carried by some bar holds the columns of the last such
    bar of the batch, [is_backfilled] being true when that bar's flag is.
    The number of rows does not shrink and grows by at most the number of
    bars. *)
Theorem insert_batch_last_write_wins (table : Table) (bars : list CompositeBar) :
  snd (insert_batch table bars) = Z.of_nat (List.length bars) /\
  fst (insert_batch table bars) = insert_all table bars /\
  (forall k,
     match find (fun b => bool_decide (key_of b = k)) (rev bars) with
     | None => fst (insert_batch table bars) !! k = table !! k
     | Some bar =>
         exists flag,
           fst (insert_batch table bars) !! k = Some (with_is_backfilled flag bar) /\
           orb (cb_is_backfilled bar) flag = flag
     end) /\
  (size table <= size (fst (insert_batch table bars))
   <= size table + List.length bars)%nat.
Proof.
  assert (Hb : insert_batch table bars
               = (insert_all table bars, Z.of_nat (List.length bars))).
  { unfold insert_batch. destruct bars as [|b bars]; [reflexivity|].
    now rewrite insert_batch_loop. }
  rewrite Hb. cbn [fst snd]. split; [reflexivity|]. split; [reflexivity|].
  induction bars as [|b bars IH] using rev_ind.
  - cbn. split; [reflexivity|lia].
  - assert (Hs : insert_all table (bars ++ [b])
                 = fst (insert (insert_all table bars) b)).
    { unfold insert_all. now rewrite fold_left_app. }
    rewrite Hs.
    assert (Hi : insert_batch table bars
                 = (insert_all table bars, Z.of_nat (List.length bars))).
    { unfold insert_batch. destruct bars as [|b' bars']; [reflexivity|].
      now rewrite insert_batch_loop. }
    destruct (IH Hi) as [IHk IHsize]. split.
    + intros k. rewrite rev_app_distr. cbn [rev app find].
      rewrite insert_lookup.
      destruct (decide (k = key_of b)) as [->|Hne].
      * rewrite bool_decide_eq_true_2 by reflexivity.
        eexists. split; [reflexivity|].
        unfold merged_is_backfilled.
        destruct (insert_all table bars !! key_of b) as [stored|];
          destruct (cb_is_backfilled b); try reflexivity;
          destruct (cb_is_backfilled stored); try reflexivity;
          destruct (cb_is_gap stored && negb (cb_is_gap b)); reflexivity.
      * rewrite bool_decide_eq_false_2 by congruence. apply IHk.
    + pose proof (insert_size (insert_all table bars) b) as Hsz.
      rewrite length_app. cbn [List.length]. lia.
Qed.

End BatchUpsert.

(* ------------------------------------------------------------------ *)
(** ** Integrity statistics *)

Section IntegrityStatistics.
Import stdpp.base stdpp.gmap stdpp.strings.
Import Repository Queries Reads Integrity.

Lemma count_filter_bounds (p : CompositeBar -> bool) (rows : list Row) :
  (0 <= count_filter p rows <= Z.of_nat (List.length rows))%Z.
Proof.
  unfold count_filter.
  pose proof (filter_length_le (fun r : Row => p (snd r)) rows). lia.
Qed.

Lemma filter_twice {A : Type} (f g h : A -> bool) (l : list A) :
  (forall x, h x = g x && f x) ->
  List.filter f (List.filter g l) = List.filter h l.
Proof.
  intros H. induction l as [|x l IH]; cbn; [reflexivity|].
  rewrite H. destruct (g x); cbn; [|exact IH].
  destruct (f x); now rewrite IH.
Qed.

(** X30.  In the statistics of a range, [actual_bars] is the number of
    rows [get_range] selects and [gaps] is [count_gaps]; the counts of gap,
    degraded, backfilled and quality-degraded rows lie between 0 and
    [actual_bars]; [missing_bars] is the shortfall of the rows against
    [(end_time - start_time) // 60] and never negative; [total_gaps] adds it
    to [gaps].  The tier is 1, 2 or 3; tier 1 holds exactly when
    [total_gaps <= 5] and [quality_degraded <= 60], and tier 2 or better
    exactly when [total_gaps <= 30] and [quality_degraded <= 180], so that
    tier 1 needs at most five expected bars to be missing and
    [tier1_eligible] implies [tier2_eligible]. *)
Theorem integrity_stats_consistent (table : Table) (asset market_type : string)
    (start_time end_time : Z) :
  let s := get_integrity_stats table asset market_type start_time end_time in
  actual_bars s
  = Z.of_nat (List.length (range_rows table asset market_type start_time end_time)) /\
  gaps s = count_gaps table asset market_type start_time end_time /\
  (0 <= gaps s <= actual_bars s)%Z /\
  (0 <= degraded s <= actual_bars s)%Z /\
  (0 <= backfilled s <= actual_bars s)%Z /\
  (0 <= quality_degraded s <= actual_bars s)%Z /\
  expected_bars s = ((end_time - start_time) / 60)%Z /\
  (0 <= missing_bars s)%Z /\
  (expected_bars s <= actual_bars s + missing_bars s)%Z /\
  (missing_bars s = 0 <-> expected_bars s <= actual_bars s)%Z /\
  total_gaps s = (gaps s + missing_bars s)%Z /\
  (1 <= tier s <= 3)%Z /\
  (tier1_eligible s = true <-> (total_gaps s <= 5 /\ quality_degraded s <= 60)%Z) /\
  (tier2_eligible s = true <-> (total_gaps s <= 30 /\ quality_degraded s <= 180)%Z) /\
  (tier s = 1 <-> tier1_eligible s = true)%Z /\
  (tier s <= 2 <-> tier2_eligible s = true)%Z /\
  (tier1_eligible s = true -> expected_bars s - actual_bars s <= 5)%Z.
Proof.
  intros s. subst s. unfold get_integrity_stats.
  cbn [actual_bars gaps degraded backfilled quality_degraded expected_bars
       missing_bars total_gaps tier tier1_eligible tier2_eligible].
  set (rows := List.filter (in_range asset market_type start_time end_time)
                 (map_to_list table)).
  pose proof (count_filter_bounds cb_is_gap rows) as Hg.
  pose proof (count_filter_bounds cb_degraded rows) as Hd.
  pose proof (count_filter_bounds cb_is_backfilled rows) as Hb.
  pose proof (count_filter_bounds has_exclusions rows) as Hq.
  set (g := count_filter cb_is_gap rows) in *.
  set (q := count_filter has_exclusions rows) in *.
  set (a := Z.of_nat (List.length rows)) in *.
  set (e := ((end_time - start_time) / 60)%Z).
  split.
  { unfold a, rows, range_rows. now rewrite order_rows_length. }
  split.
  { unfold g, count_filter, count_gaps, rows. do 2 f_equal.
    apply filter_twice. intros r.
    unfold in_range, of_market, gap_in_range. reflexivity. }
  repeat (split; [lia|]).
  assert (Ht1 : (Z.leb (g + Z.max 0 (e - a)) 5 && Z.leb q 60 = true
                 <-> (g + Z.max 0 (e - a) <= 5 /\ q <= 60)%Z)).
  { rewrite andb_true_iff, !Z.leb_le. reflexivity. }
  assert (Ht2 : (Z.leb (g + Z.max 0 (e - a)) 30 && Z.leb q 180 = true
                 <-> (g + Z.max 0 (e - a) <= 30 /\ q <= 180)%Z)).
  { rewrite andb_true_iff, !Z.leb_le. reflexivity. }
  destruct (Z.leb (g + Z.max 0 (e - a)) 5 && Z.leb q 60) eqn:E1;
    destruct (Z.leb (g + Z.max 0 (e - a)) 30 && Z.leb q 180) eqn:E2;
    cbn [Z.leb Z.compare Pos.compare Pos.compare_cont];
    repeat split; intros; try lia; try discriminate; try reflexivity;
    try (apply Ht1; assumption); try (apply Ht2; assumption);
    try (pose proof (proj1 Ht1 eq_refl); pose proof (proj1 Ht2 eq_refl); lia);
    try (pose proof (proj1 Ht1 eq_refl); lia);
    try (pose proof (proj1 Ht2 eq_refl); lia);
    try (exfalso;
         match goal with
         | H : (_ <= 5 /\ _ <= 60)%Z |- _ => apply Ht1 in H; discriminate
         | H : (_ <= 30 /\ _ <= 180)%Z |- _ => apply Ht2 in H; discriminate
         end).
Qed.

End IntegrityStatistics.
